(** * OCM base storage: the record store of [ocm_base_storage.js]

    A shallow embedding of the [BaseStorage] class (the in-memory record
    store with validation, persistence to [localStorage] and change
    listeners) together with the part of the JavaScript platform it relies
    on: property reads, object spread, truthiness, strict equality,
    [JSON.stringify] and [JSON.parse].  A method of the class is a
    computation on the store and the world around it that returns or throws;
    the properties proved about the methods follow the definitions.

    Scope of the value universe.  JavaScript values are modelled by the
    inductive type [value]: [undefined], [null], booleans, numbers that are
    integers (type [Z], standing for the safe integers; [NaN], infinities,
    fractions and the sign of zero are not modelled), strings whose code
    units are below 256 (Rocq's [string]), arrays and plain objects.
    Functions, dates and other host objects are outside the universe.
    Objects keep their own properties in insertion order; the engine's
    reordering of array-index-like property names is not modelled.  Values
    are trees: object identity is not modelled, and [===] on arrays and
    objects is taken to be equality of content.  In the repository record
    ids are strings, where [===] is equality of content in JavaScript too.
    No method changes a record object in place (an update puts a new object
    in the array), so the sharing of record objects between the store, its
    callers and its listeners does not show in what the methods do.  The
    array of a store is shared as well, with the object that [export]
    returns and with the listeners that are handed it, and [create],
    [update], [delete] and a merging [import] change it in place.  A value
    here is what the array holds when it is read; what is stated about a
    snapshot that is kept is stated for calls that leave its array alone.

    Besides the methods of [BaseStorage], the development covers the
    construction of a store ([_loadData]), the [StorageManager] registry of
    the same file, and the [validate] and the queries of the client store
    of [ocm_client_module.js].  The handlers that [_setupAutoSave] adds to
    the [beforeunload] event of the window are part of what the constructor
    gives. *)

From Stdlib Require Import ZArith String Ascii List Bool Lia.
From Stdlib Require Import DecimalString DecimalN DecimalFacts.
From stdpp Require Import base option list strings gmap.

(** ** JavaScript values *)

Unset Elimination Schemes.
Inductive value : Type :=
| VUndef
| VNull
| VBool (b : bool)
| VNum (n : Z)
| VStr (s : string)
| VArr (xs : list value)
| VObj (ps : list (string * value)).
Set Elimination Schemes.

(** The own properties of an object, in insertion order. *)
Abbreviation props := (list (string * value)).

(** Induction on values, with the property at hand for the elements of an
    array and for the values of the properties of an object. *)
Section value_induction.
Variable P : value -> Prop.
Hypothesis Pundef : P VUndef.
Hypothesis Pnull : P VNull.
Hypothesis Pbool : forall b, P (VBool b).
Hypothesis Pnum : forall n, P (VNum n).
Hypothesis Pstr : forall s, P (VStr s).
Hypothesis Parr : forall xs, Forall P xs -> P (VArr xs).
Hypothesis Pobj : forall ps, Forall (fun kv => P (snd kv)) ps -> P (VObj ps).

Fixpoint value_ind (v : value) : P v :=
  match v with
  | VUndef => Pundef
  | VNull => Pnull
  | VBool b => Pbool b
  | VNum n => Pnum n
  | VStr s => Pstr s
  | VArr xs =>
      Parr xs ((fix all (l : list value) : Forall P l :=
                  match l with
                  | [] => List.Forall_nil P
                  | x :: l' => @List.Forall_cons _ P x l' (value_ind x) (all l')
                  end) xs)
  | VObj ps =>
      Pobj ps ((fix all (l : props) : Forall (fun kv => P (snd kv)) l :=
                  match l with
                  | [] => List.Forall_nil _
                  | kv :: l' =>
                      @List.Forall_cons _ (fun kv => P (snd kv)) kv l'
                        (value_ind (snd kv)) (all l')
                  end) ps)
  end.
End value_induction.

(** *** Strict equality [===]

    On primitives this is equality of content.  Arrays and objects are
    compared by content as well (see the note on object identity above). *)

Fixpoint strict_equals (a b : value) : bool :=
  match a, b with
  | VUndef, VUndef => true
  | VNull, VNull => true
  | VBool x, VBool y => Bool.eqb x y
  | VNum x, VNum y => Z.eqb x y
  | VStr x, VStr y => String.eqb x y
  | VArr xs, VArr ys =>
      (fix go (xs ys : list value) : bool :=
         match xs, ys with
         | [], [] => true
         | x :: xs', y :: ys' => strict_equals x y && go xs' ys'
         | _, _ => false
         end) xs ys
  | VObj ps, VObj qs =>
      (fix go (ps qs : props) : bool :=
         match ps, qs with
         | [], [] => true
         | (k, x) :: ps', (l, y) :: qs' =>
             String.eqb k l && strict_equals x y && go ps' qs'
         | _, _ => false
         end) ps qs
  | _, _ => false
  end.

(** [SameValueZero], the comparison of [Set.prototype.has]: it differs from
    [===] only on [NaN] and the sign of zero, which are outside the
    universe. *)
Definition same_value_zero (a b : value) : bool := strict_equals a b.

(** Truthiness ([ToBoolean]). *)
Definition truthy (v : value) : bool :=
  match v with
  | VUndef | VNull => false
  | VBool b => b
  | VNum n => negb (Z.eqb n 0)
  | VStr s => negb (String.eqb s EmptyString)
  | VArr _ | VObj _ => true
  end.

(** [a || b] on values. *)
Definition js_or (a b : value) : value := if truthy a then a else b.

(** [typeof v === 'object'] *)
Definition typeof_object (v : value) : bool :=
  match v with
  | VNull | VArr _ | VObj _ => true
  | _ => false
  end.

(** [Array.isArray] *)
Definition isArray (v : value) : bool :=
  match v with VArr _ => true | _ => false end.

(** ** Decimal numerals *)

Definition string_of_N (n : N) : string :=
  NilEmpty.string_of_uint (N.to_uint n).

(** [Number::toString] on integers. *)
Definition string_of_Z (z : Z) : string :=
  match z with
  | Z0 => "0"
  | Zpos p => string_of_N (Npos p)
  | Zneg p => String "-" (string_of_N (Npos p))
  end.

(** ** Own properties of objects *)

Fixpoint obj_get (ps : props) (k : string) : option value :=
  match ps with
  | [] => None
  | (k', v) :: ps' => if String.eqb k' k then Some v else obj_get ps' k
  end.

(** Writing a property: an existing property keeps its position, a new one
    goes to the end. *)
Fixpoint obj_set (ps : props) (k : string) (v : value) : props :=
  match ps with
  | [] => [(k, v)]
  | (k', v') :: ps' =>
      if String.eqb k' k then (k, v) :: ps' else (k', v') :: obj_set ps' k v
  end.

(** The property names of an object are distinct. *)
Fixpoint distinct_keys (ps : props) : bool :=
  match ps with
  | [] => true
  | (k, _) :: ps' =>
      negb (existsb (String.eqb k) (map fst ps')) && distinct_keys ps'
  end.

(** A record of the store: a plain object (with distinct property names,
    as every JavaScript object has). *)
Definition is_record (v : value) : bool :=
  match v with VObj ps => distinct_keys ps | _ => false end.

(** [Object.assign]-like copy of a list of properties into [ps]. *)
Definition obj_assign (ps src : props) : props :=
  fold_left (fun acc kv => obj_set acc (fst kv) (snd kv)) src ps.

(** The properties indexed [i], [i+1], ... of an array-like. *)
Fixpoint indexed {A} (f : A -> value) (i : nat) (xs : list A) : props :=
  match xs with
  | [] => []
  | x :: xs' => (string_of_N (N.of_nat i), f x) :: indexed f (S i) xs'
  end.

(** The own enumerable properties that [{...v}] copies: those of an
    object, the elements of an array, the characters of a string, and
    nothing for the other values ([null] and [undefined] included). *)
Definition own_props (v : value) : props :=
  match v with
  | VObj ps => ps
  | VArr xs => indexed (fun x => x) 0 xs
  | VStr s =>
      indexed (fun c => VStr (String c EmptyString)) 0 (list_ascii_of_string s)
  | _ => []
  end.

(** [{...ps, ...v}] *)
Definition spread (ps : props) (v : value) : props :=
  obj_assign ps (own_props v).

(** ** Errors and outcomes *)

(** The errors the store throws, by throw site.  JavaScript has one [Error]
    class here; the kind is the place that throws. *)
Inductive error : Type :=
| ValidationError (msg : string)  (* [_validateData] and the [validate] hook *)
| NotFoundError (id : value)      (* [update] of an unknown id *)
| DuplicateIdError (id : value)   (* [create] with an id already in use *)
| ImportFormatError               (* [import] of a malformed snapshot *)
| PersistenceError                (* [localStorage.setItem] refused the write *)
| TypeError                       (* property read on [null]/[undefined], ... *)
| JsonSyntaxError.                (* [JSON.parse] of a malformed text *)

Inductive outcome (A : Type) : Type :=
| Returns (a : A)
| Throws (e : error).
Arguments Returns {A} a.
Arguments Throws {A} e.

(** Sequencing of two evaluations that may throw. *)
Definition and_then {A B} (o : outcome A) (k : A -> outcome B) : outcome B :=
  match o with
  | Returns a => k a
  | Throws e => Throws e
  end.

(** Reading a property [v.k], for a name [k] that the built-in prototypes
    do not define and that is neither [length] nor an array index ([id],
    [data], [_compressed], [createdAt], ...).  On [null] and [undefined]
    the read throws a [TypeError]. *)
Definition get_prop (v : value) (k : string) : outcome value :=
  match v with
  | VUndef | VNull => Throws TypeError
  | VObj ps => Returns (default VUndef (obj_get ps k))
  | _ => Returns VUndef
  end.

(** The field [k] of a record as a read sees it ([undefined] when absent). *)
Definition field (v : value) (k : string) : value :=
  match v with
  | VObj ps => default VUndef (obj_get ps k)
  | _ => VUndef
  end.

(** ** [ToString] and [JSON.stringify] *)

(** [ToString], as applied by template literals and by [JSON.parse] to its
    argument. *)
Fixpoint ToString (v : value) : string :=
  match v with
  | VUndef => "undefined"
  | VNull => "null"
  | VBool true => "true"
  | VBool false => "false"
  | VNum n => string_of_Z n
  | VStr s => s
  | VArr xs =>
      String.concat ","
        (map (fun x => match x with
                       | VUndef | VNull => EmptyString
                       | _ => ToString x
                       end) xs)
  | VObj _ => "[object Object]"
  end.

Definition dquote : ascii := ascii_of_N 34.
Definition bslash : ascii := ascii_of_N 92.

Definition hex_char (n : N) : ascii :=
  if (n <? 10)%N then ascii_of_N (48 + n) else ascii_of_N (87 + n).

(** One code unit of [QuoteJSONString]. *)
Definition quote_char (c : ascii) : string :=
  let n := N_of_ascii c in
  if (n =? 34)%N then String bslash (String dquote EmptyString)
  else if (n =? 92)%N then String bslash (String bslash EmptyString)
  else if (n =? 8)%N then String bslash "b"
  else if (n =? 12)%N then String bslash "f"
  else if (n =? 10)%N then String bslash "n"
  else if (n =? 13)%N then String bslash "r"
  else if (n =? 9)%N then String bslash "t"
  else if (n <? 32)%N then
    String bslash
      (String "u" (String "0" (String "0"
         (String (hex_char (n / 16)) (String (hex_char (n mod 16)) EmptyString)))))
  else String c EmptyString.

Fixpoint quote_chars (s : string) : string :=
  match s with
  | EmptyString => EmptyString
  | String c s' => quote_char c +:+ quote_chars s'
  end.

(** [QuoteJSONString] *)
Definition quote (s : string) : string :=
  String dquote (quote_chars s +:+ String dquote EmptyString).

(** [JSON.stringify(v)] without replacer or indentation; [None] is the
    result [undefined].  An [undefined] array element is written [null], an
    [undefined] property is left out. *)
Fixpoint JSON_stringify (v : value) : option string :=
  match v with
  | VUndef => None
  | VNull => Some "null"
  | VBool true => Some "true"
  | VBool false => Some "false"
  | VNum n => Some (string_of_Z n)
  | VStr s => Some (quote s)
  | VArr xs =>
      Some ("[" +:+
            String.concat "," (map (fun x => default "null" (JSON_stringify x)) xs)
            +:+ "]")
  | VObj ps =>
      Some ("{" +:+
            String.concat ","
              ((fix members (ps : props) : list string :=
                  match ps with
                  | [] => []
                  | (k, x) :: ps' =>
                      match JSON_stringify x with
                      | Some sx => (quote k +:+ ":" +:+ sx) :: members ps'
                      | None => members ps'
                      end
                  end) ps)
            +:+ "}")
  end.

Definition stringify_element (x : value) : string :=
  default "null" (JSON_stringify x).

Fixpoint stringify_members (ps : props) : list string :=
  match ps with
  | [] => []
  | (k, x) :: ps' =>
      match JSON_stringify x with
      | Some sx => (quote k +:+ ":" +:+ sx) :: stringify_members ps'
      | None => stringify_members ps'
      end
  end.

(** ** [JSON.parse]

    The result of parsing a text.  [Unrepresentable] means that the text
    leaves the modelled fragment: a number with a fraction or an exponent or
    beyond the safe integers, or a [\u] escape of a code unit above 255.
    The model says nothing about what the engine does with such a text.
    The recursive functions below take a budget and give [Unrepresentable]
    when it runs out; the budget [JSON_parse] gives them is large enough for
    the result not to depend on it (lemma [JSON_parse_budget]). *)
Inductive parsed (A : Type) : Type :=
| Parsed (a : A)
| SyntaxError
| Unrepresentable.
Arguments Parsed {A} a.
Arguments SyntaxError {A}.
Arguments Unrepresentable {A}.

Definition is_ws (c : ascii) : bool :=
  let n := N_of_ascii c in
  (n =? 32)%N || (n =? 9)%N || (n =? 10)%N || (n =? 13)%N.

Fixpoint skip_ws (s : string) : string :=
  match s with
  | EmptyString => EmptyString
  | String c s' => if is_ws c then skip_ws s' else s
  end.

Definition digit_of (c : ascii) : option (Decimal.uint -> Decimal.uint) :=
  match N_of_ascii c with
  | 48%N => Some Decimal.D0
  | 49%N => Some Decimal.D1
  | 50%N => Some Decimal.D2
  | 51%N => Some Decimal.D3
  | 52%N => Some Decimal.D4
  | 53%N => Some Decimal.D5
  | 54%N => Some Decimal.D6
  | 55%N => Some Decimal.D7
  | 56%N => Some Decimal.D8
  | 57%N => Some Decimal.D9
  | _ => None
  end.

(** The longest prefix of digits, and what follows it. *)
Fixpoint parse_digits (s : string) : Decimal.uint * string :=
  match s with
  | EmptyString => (Decimal.Nil, EmptyString)
  | String c s' =>
      match digit_of c with
      | Some D => let '(d, rest) := parse_digits s' in (D d, rest)
      | None => (Decimal.Nil, s)
      end
  end.

Definition MAX_SAFE_INTEGER : N := 9007199254740991.

(** Whether the text goes on with a fraction or an exponent. *)
Definition continues_number (s : string) : bool :=
  match s with
  | String c _ =>
      let n := N_of_ascii c in (n =? 46)%N || (n =? 101)%N || (n =? 69)%N
  | EmptyString => false
  end.

(** The minus sign in front of a number, if any. *)
Definition strip_minus (s : string) : bool * string :=
  match s with
  | String c r => if (N_of_ascii c =? 45)%N then (true, r) else (false, s)
  | EmptyString => (false, s)
  end.

(** The number that the digits [d] denote: there is at least one digit, a
    leading zero stands alone, and no fraction or exponent follows. *)
Definition number_of_digits (negative : bool) (d : Decimal.uint) (rest : string) :
  parsed (value * string) :=
  match d with
  | Decimal.Nil => SyntaxError
  | Decimal.D0 (Decimal.D0 _ | Decimal.D1 _ | Decimal.D2 _ | Decimal.D3 _
               | Decimal.D4 _ | Decimal.D5 _ | Decimal.D6 _ | Decimal.D7 _
               | Decimal.D8 _ | Decimal.D9 _) => SyntaxError
  | _ =>
      if continues_number rest then Unrepresentable
      else
        let n := N.of_uint d in
        if (n <=? MAX_SAFE_INTEGER)%N then
          Parsed (VNum (if negative then - Z.of_N n else Z.of_N n)%Z, rest)
        else Unrepresentable
  end.

(** A number: an optional minus sign, then [0] or a digit sequence without
    a leading zero. *)
Definition parse_number (s : string) : parsed (value * string) :=
  let '(negative, s1) := strip_minus s in
  let '(d, rest) := parse_digits s1 in
  number_of_digits negative d rest.

Definition hex_value (c : ascii) : option N :=
  let n := N_of_ascii c in
  if (48 <=? n)%N && (n <=? 57)%N then Some (n - 48)%N
  else if (97 <=? n)%N && (n <=? 102)%N then Some (n - 87)%N
  else if (65 <=? n)%N && (n <=? 70)%N then Some (n - 55)%N
  else None.

Definition cons_parsed (c : ascii) (p : parsed (string * string)) :
  parsed (string * string) :=
  match p with
  | Parsed (t, rest) => Parsed (String c t, rest)
  | SyntaxError => SyntaxError
  | Unrepresentable => Unrepresentable
  end.

(** The characters of a string literal after its opening quote, up to and
    including the closing quote. *)
Fixpoint parse_string_chars (s : string) : parsed (string * string) :=
  match s with
  | EmptyString => SyntaxError
  | String c r =>
      let n := N_of_ascii c in
      if (n =? 34)%N then Parsed (EmptyString, r)
      else if (n =? 92)%N then
        match r with
        | EmptyString => SyntaxError
        | String e r' =>
            match N_of_ascii e with
            | 34%N => cons_parsed dquote (parse_string_chars r')
            | 92%N => cons_parsed bslash (parse_string_chars r')
            | 47%N => cons_parsed "/" (parse_string_chars r')
            | 98%N => cons_parsed (ascii_of_N 8) (parse_string_chars r')
            | 102%N => cons_parsed (ascii_of_N 12) (parse_string_chars r')
            | 110%N => cons_parsed (ascii_of_N 10) (parse_string_chars r')
            | 114%N => cons_parsed (ascii_of_N 13) (parse_string_chars r')
            | 116%N => cons_parsed (ascii_of_N 9) (parse_string_chars r')
            | 117%N =>
                match r' with
                | String h1 (String h2 (String h3 (String h4 r''))) =>
                    match hex_value h1, hex_value h2, hex_value h3, hex_value h4 with
                    | Some a, Some b, Some c', Some d =>
                        let code := (((a * 16 + b) * 16 + c') * 16 + d)%N in
                        if (code <? 256)%N
                        then cons_parsed (ascii_of_N code) (parse_string_chars r'')
                        else Unrepresentable
                    | _, _, _, _ => SyntaxError
                    end
                | _ => SyntaxError
                end
            | _ => SyntaxError
            end
        end
      else if (n <? 32)%N then SyntaxError
      else cons_parsed c (parse_string_chars r)
  end.

(** The rest of a literal name ([null], [true], [false]) after its first
    letter. *)
Definition expect (word : string) (s : string) (v : value) :
  parsed (value * string) :=
  if String.prefix word s
  then Parsed (v, substring (String.length word) (String.length s) s)
  else SyntaxError.

(** Recursive descent over the JSON grammar.  [parse_value] reads one value
    after optional white space; [parse_elements] reads the elements of an
    array after its opening bracket or a comma, up to the closing bracket;
    [parse_members] does the same for the members of an object.  A repeated
    member name overwrites the earlier value in place. *)
Fixpoint parse_value (fuel : nat) (s : string) : parsed (value * string) :=
  match fuel with
  | O => Unrepresentable
  | S fuel' =>
      match skip_ws s with
      | EmptyString => SyntaxError
      | String c r =>
          let n := N_of_ascii c in
          if (n =? 110)%N then expect "ull" r VNull
          else if (n =? 116)%N then expect "rue" r (VBool true)
          else if (n =? 102)%N then expect "alse" r (VBool false)
          else if (n =? 34)%N then
            match parse_string_chars r with
            | Parsed (t, rest) => Parsed (VStr t, rest)
            | SyntaxError => SyntaxError
            | Unrepresentable => Unrepresentable
            end
          else if (n =? 91)%N then
            match skip_ws r with
            | String c' r' =>
                if (N_of_ascii c' =? 93)%N then Parsed (VArr [], r')
                else
                  match parse_elements fuel' r with
                  | Parsed (xs, rest) => Parsed (VArr xs, rest)
                  | SyntaxError => SyntaxError
                  | Unrepresentable => Unrepresentable
                  end
            | EmptyString => SyntaxError
            end
          else if (n =? 123)%N then
            match skip_ws r with
            | String c' r' =>
                if (N_of_ascii c' =? 125)%N then Parsed (VObj [], r')
                else
                  match parse_members fuel' r with
                  | Parsed (ms, rest) => Parsed (VObj (obj_assign [] ms), rest)
                  | SyntaxError => SyntaxError
                  | Unrepresentable => Unrepresentable
                  end
            | EmptyString => SyntaxError
            end
          else if (n =? 45)%N || ((48 <=? n)%N && (n <=? 57)%N)
          then parse_number (String c r)
          else SyntaxError
      end
  end
with parse_elements (fuel : nat) (s : string) : parsed (list value * string) :=
  match fuel with
  | O => Unrepresentable
  | S fuel' =>
      match parse_value fuel' s with
      | Parsed (x, rest) =>
          match skip_ws rest with
          | String c r =>
              if (N_of_ascii c =? 44)%N then
                match parse_elements fuel' r with
                | Parsed (xs, rest') => Parsed (x :: xs, rest')
                | SyntaxError => SyntaxError
                | Unrepresentable => Unrepresentable
                end
              else if (N_of_ascii c =? 93)%N then Parsed ([x], r)
              else SyntaxError
          | EmptyString => SyntaxError
          end
      | SyntaxError => SyntaxError
      | Unrepresentable => Unrepresentable
      end
  end
with parse_members (fuel : nat) (s : string) : parsed (props * string) :=
  match fuel with
  | O => Unrepresentable
  | S fuel' =>
      match skip_ws s with
      | String q r =>
          if (N_of_ascii q =? 34)%N then
            match parse_string_chars r with
            | Parsed (k, rest) =>
                match skip_ws rest with
                | String colon r1 =>
                    if (N_of_ascii colon =? 58)%N then
                      match parse_value fuel' r1 with
                      | Parsed (x, rest1) =>
                          match skip_ws rest1 with
                          | String c r2 =>
                              if (N_of_ascii c =? 44)%N then
                                match parse_members fuel' r2 with
                                | Parsed (ms, rest') => Parsed ((k, x) :: ms, rest')
                                | SyntaxError => SyntaxError
                                | Unrepresentable => Unrepresentable
                                end
                              else if (N_of_ascii c =? 125)%N
                              then Parsed ([(k, x)], r2)
                              else SyntaxError
                          | EmptyString => SyntaxError
                          end
                      | SyntaxError => SyntaxError
                      | Unrepresentable => Unrepresentable
                      end
                    else SyntaxError
                | EmptyString => SyntaxError
                end
            | SyntaxError => SyntaxError
            | Unrepresentable => Unrepresentable
            end
          else SyntaxError
      | EmptyString => SyntaxError
      end
  end.

(** [JSON.parse(text)] without reviver: one value, then only white space. *)
Definition JSON_parse (text : string) : parsed value :=
  match parse_value (2 * String.length text + 1) text with
  | Parsed (v, rest) =>
      match skip_ws rest with
      | EmptyString => Parsed v
      | String _ _ => SyntaxError
      end
  | SyntaxError => SyntaxError
  | Unrepresentable => Unrepresentable
  end.

(** *** The values that JSON represents

    A value of the universe survives [JSON.stringify] when it holds no
    [undefined], its numbers are safe integers and the property names of
    each of its objects are distinct. *)
Fixpoint json_value (v : value) : bool :=
  match v with
  | VUndef => false
  | VNull | VBool _ | VStr _ => true
  | VNum n => (Z.abs_N n <=? MAX_SAFE_INTEGER)%N
  | VArr xs => forallb json_value xs
  | VObj ps =>
      distinct_keys ps && forallb (fun kv => json_value (snd kv)) ps
  end.

(** A valid record sequence: an array of records that JSON represents. *)
Definition json_records (x : value) : bool :=
  match x with
  | VArr items => forallb (fun item => is_record item && json_value item) items
  | _ => false
  end.






(** A bound on the recursion depth [parse_value] needs for the text of a
    value. *)
Fixpoint vsize (v : value) : nat :=
  match v with
  | VArr xs => S (list_sum (map (fun x => S (vsize x)) xs))
  | VObj ps => S (list_sum (map (fun kv => S (vsize (snd kv))) ps))
  | _ => 1
  end.

(** *** Notions for reading texts back *)

(** A decimal digit. *)
Definition is_digit (c : ascii) : bool :=
  (48 <=? N_of_ascii c)%N && (N_of_ascii c <=? 57)%N.

(** The text that follows a number does not go on with a digit, a fraction
    or an exponent. *)
Definition ends_number (rest : string) : Prop :=
  match rest with
  | EmptyString => True
  | String c _ => digit_of c = None /\ continues_number rest = false
  end.

(** The text of one member of an object. *)
Definition member_text (kv : string * value) : string :=
  quote (fst kv) +:+ ":" +:+ stringify_element (snd kv).

(** The first character of the text of a value is not white space and
    closes neither an array nor an object. *)
Definition value_head (c : ascii) : bool :=
  negb (is_ws c) && negb (N_of_ascii c =? 93)%N && negb (N_of_ascii c =? 125)%N.

(** The statement proved by induction on the value: with enough fuel,
    [parse_value] reads the text of [v] back and stops where it ends. *)
Definition reads_back (v : value) : Prop :=
  json_value v = true ->
  forall fuel rest,
    vsize v <= fuel -> ends_number rest ->
    parse_value fuel (stringify_element v +:+ rest) = Parsed (v, rest).

(** ** The platform

    What the store reaches outside itself: the clock, the random number
    generator, [window.OCM_CONFIG], [localStorage], the console and the
    listeners it calls. *)

(** A subscribed listener.  [lid] is its identity as a function object;
    [lrun action data storageKey] is what a call does: return ([None]) or
    throw.  Listeners are observers: they do not call back into the store. *)
Record Listener : Type := {
  lid : nat;
  lrun : string -> value -> string -> option error
}.

(** One call [listener(action, data, storageKey)]. *)
Record Call : Type := {
  call_listener : nat;
  call_action : string;
  call_data : value;
  call_storageKey : string
}.

Record World : Type := {
  (** the successive readings of the clock, in milliseconds *)
  clock : nat -> Z;
  clockReads : nat;
  (** [Date.prototype.toISOString] on a reading *)
  toISOString : Z -> string;
  (** the successive results of [Math.random().toString(36)] *)
  random36 : nat -> string;
  randomReads : nat;
  (** [window.OCM_CONFIG?.storage?.prefix] and [window.OCM_CONFIG?.version] *)
  configPrefix : value;
  configVersion : value;
  localStorage : gmap string string;
  (** whether [localStorage.setItem] refuses a write (quota exceeded) *)
  setItemRefused : gmap string string -> string -> string -> bool;
  (** the lines written with [console.error], latest last *)
  console : list (string * error);
  (** the listener calls made so far, latest last *)
  calls : list Call
}.

Definition tick_clock (w : World) : World :=
  {| clock := clock w; clockReads := S (clockReads w);
     toISOString := toISOString w;
     random36 := random36 w; randomReads := randomReads w;
     configPrefix := configPrefix w; configVersion := configVersion w;
     localStorage := localStorage w; setItemRefused := setItemRefused w;
     console := console w; calls := calls w |}.

Definition tick_random (w : World) : World :=
  {| clock := clock w; clockReads := clockReads w;
     toISOString := toISOString w;
     random36 := random36 w; randomReads := S (randomReads w);
     configPrefix := configPrefix w; configVersion := configVersion w;
     localStorage := localStorage w; setItemRefused := setItemRefused w;
     console := console w; calls := calls w |}.

Definition with_localStorage (ls : gmap string string) (w : World) : World :=
  {| clock := clock w; clockReads := clockReads w;
     toISOString := toISOString w;
     random36 := random36 w; randomReads := randomReads w;
     configPrefix := configPrefix w; configVersion := configVersion w;
     localStorage := ls; setItemRefused := setItemRefused w;
     console := console w; calls := calls w |}.

Definition with_console (c : list (string * error)) (w : World) : World :=
  {| clock := clock w; clockReads := clockReads w;
     toISOString := toISOString w;
     random36 := random36 w; randomReads := randomReads w;
     configPrefix := configPrefix w; configVersion := configVersion w;
     localStorage := localStorage w; setItemRefused := setItemRefused w;
     console := c; calls := calls w |}.

Definition with_calls (c : list Call) (w : World) : World :=
  {| clock := clock w; clockReads := clockReads w;
     toISOString := toISOString w;
     random36 := random36 w; randomReads := randomReads w;
     configPrefix := configPrefix w; configVersion := configVersion w;
     localStorage := localStorage w; setItemRefused := setItemRefused w;
     console := console w; calls := c |}.

(** ** The store *)

Module BaseStorage.

Record Options : Type := {
  autoSave : bool;
  validation : bool;
  compression : bool;
  encryption : bool
}.

(** The defaults of the constructor. *)
Definition default_options : Options :=
  {| autoSave := true; validation := true;
     compression := false; encryption := false |}.

(** The state of one store.  [validate] is the hook a subclass overrides:
    [Some msg] when it throws an [Error] with that message. *)
Record t : Type := {
  storageKey : string;
  options : Options;
  validate : value -> option string;
  data : list value;
  listeners : list Listener
}.

Definition with_data (d : list value) (s : t) : t :=
  {| storageKey := storageKey s; options := options s;
     validate := validate s; data := d; listeners := listeners s |}.

Definition with_listeners (ls : list Listener) (s : t) : t :=
  {| storageKey := storageKey s; options := options s;
     validate := validate s; data := data s; listeners := ls |}.

(** *** Computations of a method: state passing with exceptions

    A method runs on the store [this] and the world, and either returns or
    throws; what it changed before it threw stays changed. *)
Definition state : Type := t * World.

Definition M (A : Type) : Type := state -> state * outcome A.

Definition ret {A} (a : A) : M A := fun st => (st, Returns a).

Definition bind {A B} (m : M A) (k : A -> M B) : M B :=
  fun st =>
    match m st with
    | (st', Returns a) => k a st'
    | (st', Throws e) => (st', Throws e)
    end.

Definition throw {A} (e : error) : M A := fun st => (st, Throws e).

(** [try { m } catch (error) { h error }] *)
Definition try_catch {A} (m : M A) (h : error -> M A) : M A :=
  fun st =>
    match m st with
    | (st', Returns a) => (st', Returns a)
    | (st', Throws e) => h e st'
    end.

Definition lift {A} (o : outcome A) : M A := fun st => (st, o).

Declare Scope js_scope.
Delimit Scope js_scope with js.
Notation "x ← y ; z" := (bind y (fun x => z)) (only parsing) : js_scope.
Notation "y ;; z" := (bind y (fun _ => z)) (only parsing) : js_scope.
Local Open Scope js_scope.

Definition this : M t := fun st => (st, Returns (fst st)).

Definition this_data : M (list value) := fun st => (st, Returns (data (fst st))).

Definition set_this_data (d : list value) : M unit :=
  fun st => ((with_data d (fst st), snd st), Returns tt).

Definition world : M World := fun st => (st, Returns (snd st)).

Definition set_world (w : World) : M unit :=
  fun st => ((fst st, w), Returns tt).

(** [console.error(msg, e)] *)
Definition console_error (msg : string) (e : error) : M unit :=
  w ← world; set_world (with_console (console w ++ [(msg, e)]) w).

(** [new Date().toISOString()] *)
Definition new_Date_toISOString : M string :=
  w ← world;
  set_world (tick_clock w) ;;
  ret (toISOString w (clock w (clockReads w))).

(** [Date.now()] *)
Definition Date_now : M Z :=
  w ← world;
  set_world (tick_clock w) ;;
  ret (clock w (clockReads w)).

(** [Math.random().toString(36)] *)
Definition Math_random_toString36 : M string :=
  w ← world;
  set_world (tick_random w) ;;
  ret (random36 w (randomReads w)).

(** [localStorage.setItem(key, text)] *)
Definition localStorage_setItem (key text : string) : M unit :=
  w ← world;
  if setItemRefused w (localStorage w) key text
  then throw PersistenceError
  else set_world (with_localStorage (<[key := text]> (localStorage w)) w).

(** The message prefix [`[${this.storageKey}] ...`] of the log lines. *)
Definition tagged (s : t) (msg : string) : string :=
  "[" +:+ storageKey s +:+ "] " +:+ msg.

(** *** Searching the records by id *)

(** [items.find(item => item.id === id)] *)
Fixpoint find_by_id (items : list value) (id : value) : outcome (option value) :=
  match items with
  | [] => Returns None
  | item :: rest =>
      match get_prop item "id" with
      | Throws e => Throws e
      | Returns i =>
          if strict_equals i id then Returns (Some item) else find_by_id rest id
      end
  end.

(** [items.findIndex(item => item.id === id)]; [None] is [-1]. *)
Fixpoint findIndex_by_id (items : list value) (id : value) : outcome (option nat) :=
  match items with
  | [] => Returns None
  | item :: rest =>
      match get_prop item "id" with
      | Throws e => Throws e
      | Returns i =>
          if strict_equals i id then Returns (Some 0)
          else match findIndex_by_id rest id with
               | Returns (Some n) => Returns (Some (S n))
               | r => r
               end
      end
  end.

(** [items.some(item => item.id === id)] *)
Fixpoint some_by_id (items : list value) (id : value) : outcome bool :=
  match items with
  | [] => Returns false
  | item :: rest =>
      match get_prop item "id" with
      | Throws e => Throws e
      | Returns i => if strict_equals i id then Returns true else some_by_id rest id
      end
  end.

(** [items.map(item => item.id)] *)
Fixpoint map_id (items : list value) : outcome (list value) :=
  match items with
  | [] => Returns []
  | item :: rest =>
      match get_prop item "id" with
      | Throws e => Throws e
      | Returns i =>
          match map_id rest with
          | Returns ids => Returns (i :: ids)
          | Throws e => Throws e
          end
      end
  end.

(** [new Set(ids).has(id)] *)
Definition set_has (ids : list value) (id : value) : bool :=
  existsb (same_value_zero id) ids.

(** [items.filter(item => !existingIds.has(item.id))] *)
Fixpoint filter_new (existingIds : list value) (items : list value) :
  outcome (list value) :=
  match items with
  | [] => Returns []
  | item :: rest =>
      match get_prop item "id" with
      | Throws e => Throws e
      | Returns i =>
          match filter_new existingIds rest with
          | Returns keep =>
              Returns (if set_has existingIds i then keep else item :: keep)
          | Throws e => Throws e
          end
      end
  end.

(** [items.filter(predicate)] for a predicate that may throw. *)
Fixpoint filter_pred (predicate : value -> outcome bool) (items : list value) :
  outcome (list value) :=
  match items with
  | [] => Returns []
  | item :: rest =>
      match predicate item with
      | Throws e => Throws e
      | Returns b =>
          match filter_pred predicate rest with
          | Returns keep => Returns (if b then item :: keep else keep)
          | Throws e => Throws e
          end
      end
  end.

(** [items.map(f)] for a callback with effects, left to right. *)
Fixpoint mapM {A B} (f : A -> M B) (items : list A) : M (list B) :=
  match items with
  | [] => ret []
  | x :: rest => y ← f x; ys ← mapM f rest; ret (y :: ys)
  end.

(** *** Internal methods *)

(** [_validateData(data)]: the object check, then the [validate] hook. *)
Definition _validateData (d : value) : M unit :=
  if negb (truthy d) || negb (typeof_object d)
  then throw (ValidationError "데이터는 객체여야 합니다.")
  else
    s ← this;
    match validate s d with
    | Some msg => throw (ValidationError msg)
    | None => ret tt
    end.

(** [_generateId()] *)
Definition _generateId : M string :=
  now ← Date_now;
  r ← Math_random_toString36;
  ret (string_of_Z now +:+ "_" +:+ substring 2 9 r).

(** [_compress(data)]: [JSON.stringify(data)], which is [undefined] for
    [undefined]. *)
Definition _compress (d : value) : value :=
  match JSON_stringify d with
  | Some text => VStr text
  | None => VUndef
  end.

(** [_decompress(compressedData)]: [JSON.parse] of the argument converted to
    a string; a syntax error is logged and gives the empty array.  [None]
    when the text leaves the modelled fragment. *)
Definition _decompress (compressedData : value) : M (option value) :=
  match JSON_parse (ToString compressedData) with
  | Parsed v => ret (Some v)
  | SyntaxError =>
      console_error "압축 해제 오류:" JsonSyntaxError ;; ret (Some (VArr []))
  | Unrepresentable => ret None
  end.

(** [_save()] *)
Definition _save : M unit :=
  s ← this;
  try_catch
    (w ← world;
     let prefix := js_or (configPrefix w) (VStr "ocm_v2_") in
     let key := ToString prefix +:+ storageKey s in
     d ← this_data;
     let dataToSave :=
       if compression (options s)
       then VObj [("_compressed", VBool true); ("data", _compress (VArr d))]
       else VArr d in
     localStorage_setItem key (default "undefined" (JSON_stringify dataToSave)))
    (fun e => console_error (tagged s "데이터 저장 오류:") e ;; throw e).

(** One call of a listener inside [_notifyListeners]: its error is logged
    and goes no further. *)
Definition call_listener_safely (action : string) (d : value) (l : Listener) :
  M unit :=
  s ← this;
  w ← world;
  set_world
    (with_calls
       (calls w ++ [{| call_listener := lid l; call_action := action;
                       call_data := d; call_storageKey := storageKey s |}]) w) ;;
  match lrun l action d (storageKey s) with
  | Some e => console_error "리스너 실행 오류:" e
  | None => ret tt
  end.

(** [_notifyListeners(action, data)] *)
Definition _notifyListeners (action : string) (d : value) : M unit :=
  s ← this;
  mapM (call_listener_safely action d) (listeners s) ;;
  ret tt.

(** *** Public methods *)

(** [getAll()] *)
Definition getAll : M (list value) :=
  s ← this;
  try_catch this_data
    (fun e => console_error (tagged s "데이터 조회 오류:") e ;; ret []).

(** [getById(id)] *)
Definition getById (id : value) : M value :=
  s ← this;
  try_catch
    (items ← this_data;
     found ← lift (find_by_id items id);
     ret (js_or (default VUndef found) VNull))
    (fun e => console_error (tagged s "ID 조회 오류:") e ;; ret VNull).

(** [getWhere(predicate)] *)
Definition getWhere (predicate : value -> outcome bool) : M (list value) :=
  s ← this;
  try_catch
    (items ← this_data; lift (filter_pred predicate items))
    (fun e => console_error (tagged s "조건 조회 오류:") e ;; ret []).

(** The object literal of [create]:
    [{...itemData, id, createdAt, updatedAt}]. *)
Definition new_item (itemData id : value) (createdAt updatedAt : string) : value :=
  VObj (obj_set (obj_set (obj_set (spread [] itemData) "id" id)
                   "createdAt" (VStr createdAt))
          "updatedAt" (VStr updatedAt)).

(** The object literal of [update]:
    [{...this.data[index], ...updates, id, updatedAt}]. *)
Definition updated_item (current updates id : value) (updatedAt : string) : value :=
  VObj (obj_set (obj_set (spread (spread [] current) updates) "id" id)
          "updatedAt" (VStr updatedAt)).

(** The object literal of [bulkUpdate]: [{...item, updatedAt}]. *)
Definition restamped_item (item : value) (updatedAt : string) : value :=
  VObj (obj_set (spread [] item) "updatedAt" (VStr updatedAt)).

(** The [try] block of [create(itemData)]. *)
Definition create_try (itemData : value) : M value :=
  s ← this;
  (if validation (options s) then _validateData itemData else ret tt) ;;
  given ← lift (get_prop itemData "id");
  id ← (if truthy given then ret given
        else (generated ← _generateId; ret (VStr generated)));
  createdAt ← new_Date_toISOString;
  updatedAt ← new_Date_toISOString;
  let newItem := new_item itemData id createdAt updatedAt in
  newId ← lift (get_prop newItem "id");
  existing ← getById newId;
  (if truthy existing then throw (DuplicateIdError newId) else ret tt) ;;
  items ← this_data;
  set_this_data (items ++ [newItem]) ;;
  _save ;;
  _notifyListeners "create" newItem ;;
  ret newItem.

(** [create(itemData)] *)
Definition create (itemData : value) : M value :=
  s ← this;
  try_catch (create_try itemData)
    (fun e => console_error (tagged s "생성 오류:") e ;; throw e).

(** The [try] block of [update(id, updates)]. *)
Definition update_try (id updates : value) : M value :=
  s ← this;
  items ← this_data;
  index ← lift (findIndex_by_id items id);
  match index with
  | None => throw (NotFoundError id)
  | Some i =>
      let current := default VUndef (items !! i) in
      now ← new_Date_toISOString;
      let updatedItem := updated_item current updates id now in
      (if validation (options s) then _validateData updatedItem else ret tt) ;;
      items' ← this_data;
      set_this_data (<[i := updatedItem]> items') ;;
      _save ;;
      _notifyListeners "update" updatedItem ;;
      ret updatedItem
  end.

(** [update(id, updates)] *)
Definition update (id updates : value) : M value :=
  s ← this;
  try_catch (update_try id updates)
    (fun e => console_error (tagged s "수정 오류:") e ;; throw e).

(** [delete(id)] *)
Definition delete (id : value) : M bool :=
  s ← this;
  try_catch
    (items ← this_data;
     index ← lift (findIndex_by_id items id);
     match index with
     | None => ret false
     | Some i =>
         let deletedItem := default VUndef (items !! i) in
         set_this_data (base.delete i items) ;;
         _save ;;
         _notifyListeners "delete" deletedItem ;;
         ret true
     end)
    (fun e => console_error (tagged s "삭제 오류:") e ;; ret false).

(** The callback of [items.map] in [bulkUpdate]. *)
Definition bulkUpdate_item (item : value) : M value :=
  s ← this;
  (if validation (options s) then _validateData item else ret tt) ;;
  now ← new_Date_toISOString;
  ret (restamped_item item now).

(** The [try] block of [bulkUpdate(items)]. *)
Definition bulkUpdate_try (items : value) : M bool :=
  match items with
  | VArr xs =>
      validatedItems ← mapM bulkUpdate_item xs;
      set_this_data validatedItems ;;
      _save ;;
      _notifyListeners "bulkUpdate" (VArr validatedItems) ;;
      ret true
  | _ => throw TypeError
  end.

(** [bulkUpdate(items)] *)
Definition bulkUpdate (items : value) : M bool :=
  s ← this;
  try_catch (bulkUpdate_try items)
    (fun e => console_error (tagged s "일괄 업데이트 오류:") e ;; ret false).

(** [count()] *)
Definition count : M nat :=
  items ← this_data; ret (length items).

(** [exists(id)] *)
Definition exists_ (id : value) : M bool :=
  items ← this_data; lift (some_by_id items id).

(** [clear()] *)
Definition clear : M unit :=
  s ← this;
  try_catch
    (set_this_data [] ;;
     _save ;;
     _notifyListeners "clear" (VArr []))
    (fun e => console_error (tagged s "초기화 오류:") e ;; throw e).

(** [subscribe(listener)]: [Set.prototype.add] keeps one entry per
    function object. *)
Definition subscribe (l : Listener) : M unit :=
  fun st =>
    let s := fst st in
    let ls := listeners s in
    ((with_listeners
        (if existsb (fun l' => Nat.eqb (lid l') (lid l)) ls then ls else ls ++ [l])
        s, snd st), Returns tt).

(** The function [subscribe] returns: [this.listeners.delete(listener)]. *)
Definition unsubscribe (l : Listener) : M unit :=
  fun st =>
    let s := fst st in
    ((with_listeners
        (List.filter (fun l' => negb (Nat.eqb (lid l') (lid l))) (listeners s))
        s, snd st), Returns tt).

(** [export()]; the [data] field is the array of the store itself.  The
    value here is what the array holds when [export] returns.  The object
    goes on holding the array: it shows what [create], [update], [delete]
    and a merging [import] do to the array afterwards, until [clear],
    [bulkUpdate] or a replacing [import] gives the store another one. *)
Definition export : M value :=
  s ← this;
  w ← world;
  let version := js_or (configVersion w) (VStr "2.0.0") in
  exportedAt ← new_Date_toISOString;
  d ← this_data;
  ret (VObj [("storageKey", VStr (storageKey s));
             ("version", version);
             ("exportedAt", VStr exportedAt);
             ("data", VArr d)]).

(** The elements of an array value. *)
Definition elements (v : value) : list value :=
  match v with VArr xs => xs | _ => [] end.

(** The [try] block of [import(exportedData, merge)]. *)
Definition import_try (exportedData : value) (merge : bool) : M unit :=
  (if negb (truthy exportedData) then throw ImportFormatError
   else
     d ← lift (get_prop exportedData "data");
     if negb (isArray d) then throw ImportFormatError else ret tt) ;;
  (if merge then
     items ← this_data;
     existingIds ← lift (map_id items);
     d ← lift (get_prop exportedData "data");
     newItems ← lift (filter_new existingIds (elements d));
     items' ← this_data;
     set_this_data (items' ++ newItems)
   else
     d ← lift (get_prop exportedData "data");
     set_this_data (elements d)) ;;
  _save ;;
  d ← this_data;
  _notifyListeners "import" (VArr d).

(** [import(exportedData, merge)] *)
Definition import (exportedData : value) (merge : bool) : M unit :=
  s ← this;
  try_catch (import_try exportedData merge)
    (fun e => console_error (tagged s "가져오기 오류:") e ;; throw e).

(** *** Reading the result of a call *)

(** The store, the world and the outcome after running [m] on store [s] in
    world [w]. *)
Definition store_after {A} (m : M A) (s : t) (w : World) : t := fst (fst (m (s, w))).
Definition world_after {A} (m : M A) (s : t) (w : World) : World := snd (fst (m (s, w))).
Definition outcome_of {A} (m : M A) (s : t) (w : World) : outcome A := snd (m (s, w)).

(** *** The invariants the properties speak of *)

(** The id of a record as a read [item.id] sees it. *)
Definition id_of (item : value) : value := field item "id".

(** Every element of the sequence is a record. *)
Definition records (items : list value) : Prop :=
  Forall (fun item => is_record item = true) items.

(** No two records share an id. *)
Definition unique_ids (items : list value) : Prop :=
  NoDup (map id_of items).

(** The record [r] sits at index [i] and no element before it has its id:
    it is the record that a search by the id of [r] reaches.  Every record
    of a sequence with distinct ids is the first with its id. *)
Definition first_with_id (items : list value) (i : nat) (r : value) : Prop :=
  items !! i = Some r /\
  forall j x, j < i -> items !! j = Some x -> id_of x <> id_of r.

(** The errors of the store's own checks: validation, not found, duplicate
    id, import format. *)
Definition is_store_error (e : error) : bool :=
  match e with
  | ValidationError _ | NotFoundError _ | DuplicateIdError _
  | ImportFormatError => true
  | PersistenceError | TypeError | JsonSyntaxError => false
  end.

(** The key and the text that [_save] writes. *)
Definition save_key (s : t) (w : World) : string :=
  ToString (js_or (configPrefix w) (VStr "ocm_v2_")) +:+ storageKey s.

Definition save_text (s : t) : string :=
  default "undefined"
    (JSON_stringify
       (if compression (options s)
        then VObj [("_compressed", VBool true); ("data", _compress (VArr (data s)))]
        else VArr (data s))).

(** The call that [_notifyListeners] makes to listener [l]. *)
Definition call_of (action : string) (d : value) (key : string) (l : Listener) : Call :=
  {| call_listener := lid l; call_action := action;
     call_data := d; call_storageKey := key |}.

(** *** Construction *)

(** [localStorage.getItem(key)]: the text stored under the key, or [null]. *)
Definition localStorage_getItem (key : string) : M value :=
  w ← world;
  ret (match localStorage w !! key with
       | Some text => VStr text
       | None => VNull
       end).

(** The options object that the constructor builds:
    [{autoSave: true, validation: true, compression: false,
      encryption: false, ...options}]. *)
Definition merged_options (opts : value) : value :=
  VObj (spread [("autoSave", VBool true); ("validation", VBool true);
                ("compression", VBool false); ("encryption", VBool false)]
          opts).

(** The methods only test the options for truthiness. *)
Definition options_of (opts : value) : Options :=
  let merged := merged_options opts in
  {| autoSave := truthy (field merged "autoSave");
     validation := truthy (field merged "validation");
     compression := truthy (field merged "compression");
     encryption := truthy (field merged "encryption") |}.

(** [_loadData()].  The result is [None] when the stored text leaves the
    modelled fragment of JSON. *)
Definition _loadData : M (option value) :=
  s ← this;
  try_catch
    (w ← world;
     let prefix := js_or (configPrefix w) (VStr "ocm_v2_") in
     let key := ToString prefix +:+ storageKey s in
     stored ← localStorage_getItem key;
     if negb (truthy stored) then ret (Some (VArr []))
     else
       match JSON_parse (ToString stored) with
       | Unrepresentable => ret None
       | SyntaxError => throw JsonSyntaxError
       | Parsed parsed =>
           compressed ← (if compression (options s)
                         then lift (get_prop parsed "_compressed")
                         else ret (VBool false));
           if truthy compressed then
             d ← lift (get_prop parsed "data");
             _decompress d
           else ret (Some (if isArray parsed then parsed else VArr []))
       end)
    (fun e => console_error (tagged s "데이터 로드 오류:") e ;;
              ret (Some (VArr []))).

(** [_setupAutoSave()]: the handlers that it adds to the [beforeunload]
    event of the window.  The handler [() => { this._save(); }] is a call on
    this store: it runs on the state that the store has when the event
    comes. *)
Definition _setupAutoSave (s : t) : list (M unit) :=
  if autoSave (options s) then [_save] else [].

(** The object under construction when [_loadData] runs: its name and
    options are set, its data are not read. *)
Definition under_construction (key : string) (opts : value)
           (hook : value -> option string) : t :=
  {| storageKey := key; options := options_of opts; validate := hook;
     data := []; listeners := [] |}.

(** [new BaseStorage(storageKey, options)] for a class whose [validate] is
    [hook]: the store, the world after the load, and the handlers that the
    call of [_setupAutoSave] at the end of the constructor has added to the
    [beforeunload] event of the window.  The result is [None] when what
    [_loadData] returns is not an array (compressed data that decode to
    another value: the record type of the store holds a sequence), or when
    the stored text leaves the modelled fragment of JSON. *)
Definition constructor (key : string) (opts : value)
           (hook : value -> option string) (w : World) :
  option (t * World * list (M unit)) :=
  let s0 := under_construction key opts hook in
  match _loadData (s0, w) with
  | ((_, w'), Returns (Some (VArr items))) =>
      let s := with_data items s0 in
      Some (s, w', _setupAutoSave s)
  | _ => None
  end.

(** *** Notions for the effects of a call *)

(** The id that [_generateId] makes in the world [w]. *)
Definition generated_id (w : World) : string :=
  string_of_Z (clock w (clockReads w)) +:+ "_" +:+
  substring 2 9 (random36 w (randomReads w)).

(** The id and the two timestamps that [create] gives to the data [d] in
    the world [w]: the id of the data when it is truthy, a generated one
    otherwise, and the two readings of the clock that follow. *)
Definition stamps_of_create (d : value) (w : World) (id : value)
           (createdAt updatedAt : string) : Prop :=
  exists k,
    createdAt = toISOString w (clock w k) /\
    updatedAt = toISOString w (clock w (S k)) /\
    if truthy (field d "id")
    then id = field d "id" /\ k = clockReads w
    else id = VStr (generated_id w) /\ k = S (clockReads w).

(** Whether [localStorage] refuses the text that [_save] writes. *)
Definition save_refused (s : t) (w : World) : bool :=
  setItemRefused w (localStorage w) (save_key s w) (save_text s).

(** The world after a [_save] that went through. *)
Definition saved (s : t) (w : World) : World :=
  with_localStorage (<[save_key s w := save_text s]> (localStorage w)) w.

(** The world after a [_save] that was refused. *)
Definition save_failed (s : t) (w : World) : World :=
  with_console (console w ++ [(tagged s "데이터 저장 오류:", PersistenceError)]) w.

(** The world after a method has caught the error of a refused [_save] and
    logged it under [msg]. *)
Definition refusal_logged (msg : string) (s : t) (w : World) : World :=
  with_console
    (console (save_failed s w) ++ [(tagged s msg, PersistenceError)])
    (save_failed s w).

(** The console lines of [_notifyListeners]: one for each listener that
    throws. *)
Definition listener_errors (action : string) (d : value) (key : string)
           (ls : list Listener) : list (string * error) :=
  omap (fun l => option_map (fun e => ("리스너 실행 오류:", e))
                   (lrun l action d key)) ls.

(** The world after [_notifyListeners]. *)
Definition notified (action : string) (d : value) (key : string)
           (ls : list Listener) (w : World) : World :=
  with_console (console w ++ listener_errors action d key ls)
    (with_calls (calls w ++ map (call_of action d key) ls) w).

(** The common end of the mutating methods. *)
Definition save_and_notify {A} (action : string) (d : value) (r : A) : M A :=
  _save ;; _notifyListeners action d ;; ret r.

(** [w'] differs from [w] by clock readings, random draws and console
    lines at most. *)
Definition same_platform (w w' : World) : Prop :=
  localStorage w' = localStorage w /\ calls w' = calls w /\
  setItemRefused w' = setItemRefused w /\
  configPrefix w' = configPrefix w /\ configVersion w' = configVersion w /\
  clock w' = clock w /\ toISOString w' = toISOString w /\
  random36 w' = random36 w.

(** The call [m] on the store [s] in the world [w] has written the records
    that it leaves in the store under the key of the store, and has written
    under no other key. *)
Definition wrote_records {A} (m : M A) (s : t) (w : World) : Prop :=
  localStorage (world_after m s w)
  = <[save_key s w := save_text (store_after m s w)]> (localStorage w).

(** The call has written nothing and has called no listener. *)
Definition silent {A} (m : M A) (s : t) (w : World) : Prop :=
  localStorage (world_after m s w) = localStorage w /\
  calls (world_after m s w) = calls w.

(** The call has called every listener of the store once, in the order of
    subscription, with the action and the data given and the name of the
    store, and has made no other call. *)
Definition told_listeners {A} (m : M A) (s : t) (w : World)
           (action : string) (d : value) : Prop :=
  calls (world_after m s w)
  = calls w ++ map (call_of action d (storageKey s)) (listeners s).

(** [localStorage] refuses every write. *)
Definition storage_full (w : World) : Prop :=
  forall ls key text, setItemRefused w ls key text = true.

(** [localStorage] accepts every write. *)
Definition storage_free (w : World) : Prop :=
  forall ls key text, setItemRefused w ls key text = false.

End BaseStorage.

(** ** The registry of stores *)

Module StorageManager.

(** The state of the manager.  A store is an object that the manager
    shares with whoever made it: the map holds references, which are
    indices into the sequence of the store objects of the page. *)
Record t : Type := {
  (** the [Map] from names to stores, in insertion order *)
  storages : list (string * nat);
  (** the [Set] of global listeners, in insertion order *)
  globalListeners : list Listener
}.

(** [new StorageManager()] *)
Definition constructor : t := {| storages := []; globalListeners := [] |}.

(** The manager, the store objects and the platform. *)
Record page : Type := {
  manager : t;
  heap : list BaseStorage.t;
  platform : World
}.

Definition with_manager (m : t) (p : page) : page :=
  {| manager := m; heap := heap p; platform := platform p |}.

Definition with_platform (w : World) (p : page) : page :=
  {| manager := manager p; heap := heap p; platform := w |}.

(** A method of the manager runs on the page and returns or throws. *)
Definition M (A : Type) : Type := page -> page * outcome A.

(** The call [storage.m(...)] of a method of the store object [storage].
    A reference that points to no object does not arise. *)
Definition on_store {A} (storage : nat) (m : BaseStorage.M A) : M A :=
  fun p =>
    match heap p !! storage with
    | Some s =>
        match m (s, platform p) with
        | ((s', w'), o) =>
            ({| manager := manager p; heap := <[storage := s']> (heap p);
                platform := w' |}, o)
        end
    | None => (p, Throws TypeError)
    end.

(** [Map.prototype.set]: a name that is there keeps its position. *)
Fixpoint map_set (m : list (string * nat)) (name : string) (storage : nat) :
  list (string * nat) :=
  match m with
  | [] => [(name, storage)]
  | (name', storage') :: m' =>
      if String.eqb name' name then (name, storage) :: m'
      else (name', storage') :: map_set m' name storage
  end.

(** [Map.prototype.get]; [None] is [undefined]. *)
Fixpoint map_get (m : list (string * nat)) (name : string) : option nat :=
  match m with
  | [] => None
  | (name', storage) :: m' =>
      if String.eqb name' name then Some storage else map_get m' name
  end.

(** The identity of a function object made now: one that no listener of the
    page has. *)
Definition fresh_listener (p : page) : nat :=
  S (list_max (map lid (globalListeners (manager p)) ++
               concat (map (fun s => map lid (BaseStorage.listeners s)) (heap p)))).

(** The listener that [register] subscribes to a store.  It hands the event
    to [_notifyGlobalListeners] and always returns.  Like every listener
    here it is an observer of the store; the calls that it makes in turn are
    those of [_notifyGlobalListeners] below, and the methods of the store do
    not replay them. *)
Definition forwarder (n : nat) : Listener :=
  {| lid := n; lrun := fun _ _ _ => None |}.

(** [register(name, storage)] *)
Definition register (name : string) (storage : nat) : M unit :=
  fun p =>
    let m := manager p in
    on_store storage (BaseStorage.subscribe (forwarder (fresh_listener p)))
      (with_manager {| storages := map_set (storages m) name storage;
                       globalListeners := globalListeners m |} p).

(** [get(name)]: [this.storages.get(name) || null]; [None] is [null]. *)
Definition get (name : string) : M (option nat) :=
  fun p => (p, Returns (map_get (storages (manager p)) name)).

(** [subscribe(listener)] *)
Definition subscribe (l : Listener) : M unit :=
  fun p =>
    let m := manager p in
    let ls := globalListeners m in
    (with_manager
       {| storages := storages m;
          globalListeners :=
            if existsb (fun l' => Nat.eqb (lid l') (lid l)) ls then ls else ls ++ [l] |}
       p, Returns tt).

(** The function that [subscribe] returns. *)
Definition unsubscribe (l : Listener) : M unit :=
  fun p =>
    let m := manager p in
    (with_manager
       {| storages := storages m;
          globalListeners :=
            List.filter (fun l' => negb (Nat.eqb (lid l') (lid l))) (globalListeners m) |}
       p, Returns tt).

(** The assignment [exports[name] = snapshot] on the plain object
    [exports]: it makes the own property or replaces its value.  Under the
    name [__proto__] it does neither: the setter of [Object.prototype] takes
    the snapshot as the prototype of [exports], and [Object.entries] does
    not list what an object inherits. *)
Definition assign (exports : props) (name : string) (snapshot : value) : props :=
  if String.eqb name "__proto__" then exports else obj_set exports name snapshot.

(** The property is under a name other than [__proto__]. *)
Definition named (kv : string * value) : bool :=
  negb (String.eqb (fst kv) "__proto__").

(** The loop of [exportAll]: [exports[name] = storage.export()] for each
    entry of the map.  (The properties are kept in the order in which they
    are made, which is the order of [Object.entries] for names that are
    not array indices.) *)
Fixpoint export_each (entries : list (string * nat)) (exports : props) : M props :=
  match entries with
  | [] => fun p => (p, Returns exports)
  | (name, storage) :: rest =>
      fun p =>
        match on_store storage BaseStorage.export p with
        | (p', Returns snapshot) => export_each rest (assign exports name snapshot) p'
        | (p', Throws e) => (p', Throws e)
        end
  end.

(** [exportAll()] *)
Definition exportAll : M value :=
  fun p =>
    match export_each (storages (manager p)) [] p with
    | (p', Returns exports) =>
        let w := platform p' in
        (with_platform (tick_clock w) p',
         Returns (VObj [("version", js_or (configVersion w) (VStr "2.0.0"));
                        ("exportedAt", VStr (toISOString w (clock w (clockReads w))));
                        ("storages", VObj exports)]))
    | (p', Throws e) => (p', Throws e)
    end.

(** The loop of [importAll] over [Object.entries(importData.storages)]. *)
Fixpoint import_each (entries : props) (merge : bool) : M unit :=
  match entries with
  | [] => fun p => (p, Returns tt)
  | (name, d) :: rest =>
      fun p =>
        match map_get (storages (manager p)) name with
        | Some storage =>
            match on_store storage (BaseStorage.import d merge) p with
            | (p', Returns _) => import_each rest merge p'
            | (p', Throws e) => (p', Throws e)
            end
        | None => import_each rest merge p
        end
  end.

(** [importAll(importData, merge)] *)
Definition importAll (importData : value) (merge : bool) : M unit :=
  fun p =>
    match get_prop importData "storages" with
    | Throws e => (p, Throws e)
    | Returns given =>
        if negb (truthy given) then (p, Throws ImportFormatError)
        else import_each (own_props given) merge p
    end.

(** The loop of [clearAll]. *)
Fixpoint clear_each (entries : list (string * nat)) : M unit :=
  match entries with
  | [] => fun p => (p, Returns tt)
  | (_, storage) :: rest =>
      fun p =>
        match on_store storage BaseStorage.clear p with
        | (p', Returns _) => clear_each rest p'
        | (p', Throws e) => (p', Throws e)
        end
  end.

(** [clearAll()] *)
Definition clearAll : M unit :=
  fun p => clear_each (storages (manager p)) p.

(** One call of a global listener inside [_notifyGlobalListeners]. *)
Definition call_global (action : string) (d : value) (storageKey : string)
           (l : Listener) (w : World) : World :=
  let w1 :=
    with_calls
      (calls w ++ [{| call_listener := lid l; call_action := action;
                      call_data := d; call_storageKey := storageKey |}]) w in
  match lrun l action d storageKey with
  | Some e => with_console (console w1 ++ [("전역 리스너 실행 오류:", e)]) w1
  | None => w1
  end.

(** [_notifyGlobalListeners(action, data, storageKey)] *)
Definition _notifyGlobalListeners (action : string) (d : value)
           (storageKey : string) : M unit :=
  fun p =>
    (with_platform
       (fold_left (fun w l => call_global action d storageKey l w)
          (globalListeners (manager p)) (platform p)) p,
     Returns tt).

(** *** Notions for the properties *)

(** The names of the map are distinct, as the keys of a [Map] are, and its
    references point to store objects. *)
Definition well_formed (p : page) : Prop :=
  NoDup (map fst (storages (manager p))) /\
  Forall (fun entry => snd entry < length (heap p)) (storages (manager p)).

(** The records of the store object [storage]. *)
Definition records_of (p : page) (storage : nat) : list value :=
  match heap p !! storage with
  | Some s => BaseStorage.data s
  | None => []
  end.

(** The store object is registered under some name. *)
Definition registered (p : page) (storage : nat) : Prop :=
  storage ∈ map snd (storages (manager p)).

(** The store object is registered under a name that [exportAll] writes as
    a property of the snapshot: any name but [__proto__]. *)
Definition exported (p : page) (storage : nat) : Prop :=
  exists name,
    name <> "__proto__" /\ (name, storage) ∈ storages (manager p).

(** The pages that come after [p0] by calls that give a store a new array
    or leave the store alone: [clear], [bulkUpdate] and [import] with
    [merge] off, on any store object.  The arrays that the stores hold in
    [p0] are as they were then: a snapshot made in [p0] still says what it
    said.  ([create], [update], [delete] and [import] with [merge] change
    the array of the store in place, and the snapshot that holds it.) *)
Inductive replaced_since (p0 : page) : page -> Prop :=
| since_now : replaced_since p0 p0
| since_clear p storage :
    replaced_since p0 p ->
    replaced_since p0 (fst (on_store storage BaseStorage.clear p))
| since_bulkUpdate p storage items :
    replaced_since p0 p ->
    replaced_since p0 (fst (on_store storage (BaseStorage.bulkUpdate items) p))
| since_import p storage snapshot :
    replaced_since p0 p ->
    replaced_since p0
      (fst (on_store storage (BaseStorage.import snapshot false) p)).

End StorageManager.

(** ** The client store of [ocm_client_module.js] *)

Module ClientStorage.

(** The white space of [\s] among the code units below 256. *)
Definition is_space (c : ascii) : bool :=
  let n := N_of_ascii c in
  ((9 <=? n)%N && (n <=? 13)%N) || (n =? 32)%N || (n =? 160)%N.

(** A character of the class [[^\s@]]. *)
Definition is_plain (c : ascii) : bool :=
  negb (is_space c) && negb (N_of_ascii c =? 64)%N.

Fixpoint all_chars (p : ascii -> bool) (s : string) : bool :=
  match s with
  | EmptyString => true
  | String c s' => p c && all_chars p s'
  end.

(** The text before the first [@] and the text after it. *)
Fixpoint split_at (s : string) : string * option string :=
  match s with
  | EmptyString => (EmptyString, None)
  | String c s' =>
      if (N_of_ascii c =? 64)%N then (EmptyString, Some s')
      else let '(before, after) := split_at s' in (String c before, after)
  end.

(** A dot with a character before it and a character after it. *)
Fixpoint dot_inside (s : string) : bool :=
  match s with
  | String _ ((String c ((String _ _) as s'')) as s') =>
      (N_of_ascii c =? 46)%N || dot_inside s'
  | _ => false
  end.

(** [/^[^\s@]+@[^\s@]+\.[^\s@]+$/.test(s)] *)
Definition emailRegex_test (s : string) : bool :=
  match split_at s with
  | (before, Some after) =>
      negb (String.eqb before EmptyString) && all_chars is_plain before &&
      all_chars is_plain after && dot_inside after
  | (_, None) => false
  end.

(** A character of the class [[\d-+().\s]]. *)
Definition is_phone_char (c : ascii) : bool :=
  let n := N_of_ascii c in
  ((48 <=? n)%N && (n <=? 57)%N) || (n =? 45)%N || (n =? 43)%N ||
  (n =? 40)%N || (n =? 41)%N || (n =? 46)%N || is_space c.

(** [/^[\d-+().\s]+$/.test(s)] *)
Definition phoneRegex_test (s : string) : bool :=
  negb (String.eqb s EmptyString) && all_chars is_phone_char s.

Definition required : list string :=
  ["companyName"; "contactPerson"; "email"; "phone"].

(** [required.filter(field => !data[field])] *)
Definition missing_fields (d : value) : list string :=
  List.filter (fun f => negb (truthy (field d f))) required.

(** [ClientStorage.validate(data)]: the message of the error it throws, if
    any.  The required fields come first, then the form of the e-mail
    address, then the form of the telephone number. *)
Definition validate (d : value) : option string :=
  match missing_fields d with
  | (_ :: _) as missing =>
      Some ("필수 필드가 누락되었습니다: " +:+ String.concat ", " missing)
  | [] =>
      if negb (emailRegex_test (ToString (field d "email")))
      then Some "올바른 이메일 형식이 아닙니다."
      else if negb (phoneRegex_test (ToString (field d "phone")))
      then Some "올바른 전화번호 형식이 아닙니다."
      else None
  end.

(** *** The queries of the client store *)

(** [String.prototype.toLowerCase] on a code unit below 256: the letters
    [A] to [Z] and the capital letters of Latin-1 (192 to 222, the
    multiplication sign 215 apart) move up by 32. *)
Definition lower_char (c : ascii) : ascii :=
  let n := N_of_ascii c in
  if ((65 <=? n)%N && (n <=? 90)%N) ||
     ((192 <=? n)%N && (n <=? 222)%N && negb (n =? 215)%N)
  then ascii_of_N (n + 32)
  else c.

Fixpoint toLowerCase (s : string) : string :=
  match s with
  | EmptyString => EmptyString
  | String c s' => String (lower_char c) (toLowerCase s')
  end.

(** The call [v.toLowerCase()]: only a string has the method; on any other
    value the call throws a [TypeError]. *)
Definition call_toLowerCase (v : value) : outcome string :=
  match v with
  | VStr s => Returns (toLowerCase s)
  | _ => Throws TypeError
  end.

(** [s.includes(q)] *)
Fixpoint includes (s q : string) : bool :=
  String.prefix q s ||
  match s with
  | EmptyString => false
  | String _ s' => includes s' q
  end.

(** [client => client[prop].toLowerCase().includes(query)] *)
Definition lower_includes (prop query : string) (client : value) : outcome bool :=
  and_then (get_prop client prop) (fun v =>
  and_then (call_toLowerCase v) (fun lower =>
  Returns (includes lower query))).

(** [searchByCompany(companyName)] *)
Definition searchByCompany (companyName : value) : BaseStorage.M (list value) :=
  BaseStorage.bind (BaseStorage.lift (call_toLowerCase companyName)) (fun query =>
  BaseStorage.getWhere (lower_includes "companyName" query)).

(** [searchByContact(contactPerson)] *)
Definition searchByContact (contactPerson : value) : BaseStorage.M (list value) :=
  BaseStorage.bind (BaseStorage.lift (call_toLowerCase contactPerson)) (fun query =>
  BaseStorage.getWhere (lower_includes "contactPerson" query)).

(** [client => client.email.toLowerCase() === email.toLowerCase()] *)
Definition same_email (email : value) (client : value) : outcome bool :=
  and_then (get_prop client "email") (fun v =>
  and_then (call_toLowerCase v) (fun mine =>
  and_then (call_toLowerCase email) (fun theirs =>
  Returns (String.eqb mine theirs)))).

(** [getByEmail(email)]: [this.getWhere(...)[0] || null] *)
Definition getByEmail (email : value) : BaseStorage.M value :=
  BaseStorage.bind (BaseStorage.getWhere (same_email email)) (fun found =>
  BaseStorage.ret (js_or (default VUndef (head found)) VNull)).

(** [getByType(clientType)] *)
Definition getByType (clientType : value) : BaseStorage.M (list value) :=
  BaseStorage.getWhere (fun client =>
    and_then (get_prop client "clientType") (fun v =>
    Returns (strict_equals v clientType))).

(** [new ClientStorage()] *)
Definition constructor (w : World) :
  option (BaseStorage.t * World * list (BaseStorage.M unit)) :=
  BaseStorage.constructor "clients"
    (VObj [("autoSave", VBool true); ("validation", VBool true)]) validate w.

(** *** What the regular expressions of [validate] match *)

(** The strings of [/^[^\s@]+@[^\s@]+\.[^\s@]+$/]: three non-empty runs of
    characters that are neither white space nor an at sign, with an at sign
    after the first and a dot after the second. *)
Definition email_form (s : string) : Prop :=
  exists a b c,
    s = a +:+ String "@" (b +:+ String "." c) /\
    a <> EmptyString /\ b <> EmptyString /\ c <> EmptyString /\
    all_chars is_plain a = true /\ all_chars is_plain b = true /\
    all_chars is_plain c = true.

(** The strings of [/^[\d-+().\s]+$/]. *)
Definition phone_form (s : string) : Prop :=
  s <> EmptyString /\ all_chars is_phone_char s = true.

(** [q] occurs in [s]. *)
Definition occurs_in (q s : string) : Prop :=
  exists before after, s = before +:+ q +:+ after.

End ClientStorage.

(** ** Sample platform and stores, for the concrete scenarios *)

(** A world with an empty [localStorage] that accepts every write, the
    prefix and version of the repository's [OCM_CONFIG], a clock that
    advances by one millisecond per reading and timestamps rendered as the
    decimal reading. *)
Definition sample_world : World :=
  {| clock := fun n => (1700000000000 + Z.of_nat n)%Z;
     clockReads := 0;
     toISOString := string_of_Z;
     random36 := fun _ => "0.4fzyo82mvyr";
     randomReads := 0;
     configPrefix := VStr "ocm_v2_";
     configVersion := VStr "2.0.0";
     localStorage := ∅;
     setItemRefused := fun _ _ _ => false;
     console := [];
     calls := [] |}.

(** [new BaseStorage(key)] on an empty [localStorage], with the [validate]
    hook of the subclass. *)
Definition empty_store (key : string) (hook : value -> option string) :
  BaseStorage.t :=
  {| BaseStorage.storageKey := key;
     BaseStorage.options := BaseStorage.default_options;
     BaseStorage.validate := hook;
     BaseStorage.data := [];
     BaseStorage.listeners := [] |}.

(** The [validate] of [BaseStorage] itself: it accepts everything. *)
Definition accept_all (d : value) : option string := None.

(** A store that holds the given records. *)
Definition store_of (key : string) (hook : value -> option string)
           (items : list value) : BaseStorage.t :=
  BaseStorage.with_data items (empty_store key hook).

(** Two records with the same id, as an argument of [bulkUpdate]. *)
Definition two_same_ids : value :=
  VArr [VObj [("id", VStr "a"); ("name", VStr "x")];
        VObj [("id", VStr "a"); ("name", VStr "y")]].

(** A client that passes the required-field check, with id [c1]. *)
Definition client_c1 : value :=
  VObj [("id", VStr "c1"); ("companyName", VStr "Acme");
        ("contactPerson", VStr "Kim"); ("email", VStr "kim@acme.io");
        ("phone", VStr "010-1234"); ("createdAt", VStr "2020");
        ("updatedAt", VStr "2020")].

(** The data of a second client, as a caller hands them to [create]. *)
Definition client_data : value :=
  VObj [("companyName", VStr "Bolt"); ("contactPerson", VStr "Lee");
        ("email", VStr "lee@bolt.kr"); ("phone", VStr "(02) 555-0101")].

(** The record that [create] makes of these data in [sample_world]. *)
Definition client_created : value :=
  VObj [("companyName", VStr "Bolt"); ("contactPerson", VStr "Lee");
        ("email", VStr "lee@bolt.kr"); ("phone", VStr "(02) 555-0101");
        ("id", VStr "1700000000000_4fzyo82mv");
        ("createdAt", VStr "1700000000001");
        ("updatedAt", VStr "1700000000002")].

(** The stored client after an [update] of its telephone number in
    [sample_world]. *)
Definition client_updated : value :=
  VObj [("id", VStr "c1"); ("companyName", VStr "Acme");
        ("contactPerson", VStr "Kim"); ("email", VStr "kim@acme.io");
        ("phone", VStr "02-555"); ("createdAt", VStr "2020");
        ("updatedAt", VStr "1700000000000")].

(** The client store with that one client. *)
Definition client_store : BaseStorage.t :=
  store_of "clients" ClientStorage.validate [client_c1].






(** The client store with compression switched on. *)
Definition compressing_store : BaseStorage.t :=
  BaseStorage.with_data [client_c1]
    (BaseStorage.under_construction "clients"
       (VObj [("compression", VBool true)]) ClientStorage.validate).

(** The snapshot that [export] makes of the client store in
    [sample_world]. *)
Definition client_snapshot : value :=
  VObj [("storageKey", VStr "clients"); ("version", VStr "2.0.0");
        ("exportedAt", VStr "1700000000000"); ("data", VArr [client_c1])].

(** The same platform with a [localStorage] that refuses every write (its
    quota is used up). *)
Definition full_world : World :=
  {| clock := clock sample_world; clockReads := 0;
     toISOString := toISOString sample_world;
     random36 := random36 sample_world; randomReads := 0;
     configPrefix := configPrefix sample_world;
     configVersion := configVersion sample_world;
     localStorage := ∅;
     setItemRefused := fun _ _ _ => true;
     console := [];
     calls := [] |}.

(** A listener that returns normally. *)
Definition quiet_listener (n : nat) : Listener :=
  {| lid := n; lrun := fun _ _ _ => None |}.

(** A listener that throws on every call. *)
Definition failing_listener (n : nat) : Listener :=
  {| lid := n; lrun := fun _ _ _ => Some TypeError |}.

(** A project, and a store that holds it. *)
Definition project_p1 : value :=
  VObj [("id", VStr "p1"); ("clientId", VStr "c1"); ("projectTitle", VStr "Sensor")].

Definition project_store : BaseStorage.t := store_of "projects" accept_all [project_p1].

(** A page with the client store and the project store, both registered
    with a manager, as the modules of the repository do on loading. *)
Definition sample_page : StorageManager.page :=
  fst (StorageManager.register "projects" 1
         (fst (StorageManager.register "clients" 0
                 {| StorageManager.manager := StorageManager.constructor;
                    StorageManager.heap := [client_store; project_store];
                    StorageManager.platform := sample_world |}))).

(** The same page later: after [exportAll], both stores were cleared. *)
Definition emptied_page : StorageManager.page :=
  fst (StorageManager.on_store 1 BaseStorage.clear
         (fst (StorageManager.on_store 0 BaseStorage.clear
                 (fst (StorageManager.exportAll sample_page))))).

(** The snapshot that [exportAll] makes of [sample_page]. *)
Definition page_snapshot : value :=
  VObj [("version", VStr "2.0.0"); ("exportedAt", VStr "1700000000002");
        ("storages",
         VObj [("clients",
                VObj [("storageKey", VStr "clients"); ("version", VStr "2.0.0");
                      ("exportedAt", VStr "1700000000000");
                      ("data", VArr [client_c1])]);
               ("projects",
                VObj [("storageKey", VStr "projects"); ("version", VStr "2.0.0");
                      ("exportedAt", VStr "1700000000001");
                      ("data", VArr [project_p1])])])].

(** * Properties *)

Import BaseStorage.

(** ** Values *)

Lemma strict_equals_eq a b : strict_equals a b = true <-> a = b.
Proof.
  revert b. induction a as [ | | x | x | x | xs IH | ps IH] using value_ind;
    intros [ | | y | y | y | ys | qs]; cbn [strict_equals];
    try (split; [discriminate | intros H; discriminate H]);
    try (split; reflexivity).
  - rewrite Bool.eqb_true_iff. split; congruence.
  - rewrite Z.eqb_eq. split; congruence.
  - rewrite String.eqb_eq. split; congruence.
  - revert ys. induction IH as [|x xs Hx _ IHxs]; intros [|y ys];
      try (split; [discriminate | intros H; discriminate H]);
      try (split; reflexivity).
    rewrite andb_true_iff, Hx, IHxs. split.
    + intros [-> H]. inversion H. reflexivity.
    + intros H. inversion H. split; reflexivity.
  - revert qs. induction IH as [|[k x] ps Hx _ IHps]; intros [|[l y] qs];
      try (split; [discriminate | intros H; discriminate H]);
      try (split; reflexivity).
    cbn [snd] in Hx.
    rewrite !andb_true_iff, String.eqb_eq, Hx, IHps. split.
    + intros [[-> ->] H]. inversion H. reflexivity.
    + intros H. inversion H. repeat split; reflexivity.
Qed.

Lemma strict_equals_refl a : strict_equals a a = true.
Proof. apply strict_equals_eq. reflexivity. Qed.

Lemma strict_equals_neq a b : strict_equals a b = false <-> a <> b.
Proof.
  rewrite <- strict_equals_eq. destruct (strict_equals a b); split;
    congruence.
Qed.

(** ** Properties of objects *)

Lemma obj_get_set_eq ps k v : obj_get (obj_set ps k v) k = Some v.
Proof.
  induction ps as [|[k' v'] ps IH]; cbn.
  - rewrite String.eqb_refl. reflexivity.
  - destruct (String.eqb k' k) eqn:E; cbn.
    + rewrite String.eqb_refl. reflexivity.
    + rewrite E. exact IH.
Qed.

Lemma obj_get_set_ne ps k v k' :
  k <> k' -> obj_get (obj_set ps k v) k' = obj_get ps k'.
Proof.
  intros Hne. induction ps as [|[k0 v0] ps IH]; cbn.
  - apply String.eqb_neq in Hne. rewrite Hne. reflexivity.
  - destruct (String.eqb k0 k) eqn:E; cbn.
    + apply String.eqb_eq in E. subst k0.
      apply String.eqb_neq in Hne. rewrite Hne. reflexivity.
    + destruct (String.eqb k0 k'); [reflexivity | exact IH].
Qed.

Lemma obj_get_assign_none ps src k :
  obj_get src k = None -> obj_get (obj_assign ps src) k = obj_get ps k.
Proof.
  unfold obj_assign. revert ps.
  induction src as [|[k' v'] src IH]; intros ps; cbn; [reflexivity|].
  destruct (String.eqb k' k) eqn:E; [discriminate|].
  intros H. rewrite IH by exact H.
  apply obj_get_set_ne. apply String.eqb_neq. exact E.
Qed.

Lemma obj_get_assign_some ps src k v :
  NoDup (map fst src) -> obj_get src k = Some v ->
  obj_get (obj_assign ps src) k = Some v.
Proof.
  unfold obj_assign. revert ps.
  induction src as [|[k' v'] src IH]; intros ps Hnd; cbn; [discriminate|].
  apply NoDup_cons in Hnd as [Hnotin Hnd]. cbn in Hnotin.
  destruct (String.eqb k' k) eqn:E.
  - apply String.eqb_eq in E. subst k'. intros [= ->].
    assert (obj_get src k = None) as Hnone.
    { clear -Hnotin. induction src as [|[k0 v0] src IH]; cbn; [reflexivity|].
      cbn in Hnotin. apply not_elem_of_cons in Hnotin as [Hne Hnotin].
      assert (String.eqb k0 k = false) as -> by (apply String.eqb_neq; congruence).
      apply IH, Hnotin. }
    pose proof (obj_get_assign_none (obj_set ps k v) src k Hnone) as H.
    unfold obj_assign in H. rewrite H. apply obj_get_set_eq.
  - intros H. apply IH; assumption.
Qed.

Lemma obj_assign_nil src : NoDup (map fst src) -> obj_assign [] src = src.
Proof.
  assert (forall ps, NoDup (map fst (ps ++ src)) -> obj_assign ps src = ps ++ src)
    as H; [|intros Hnd; apply (H [] Hnd)].
  unfold obj_assign. induction src as [|[k v] src IH]; intros ps Hnd; cbn.
  - rewrite app_nil_r. reflexivity.
  - assert (obj_set ps k v = ps ++ [(k, v)]) as ->.
    { rewrite map_app in Hnd. apply NoDup_app in Hnd as (_ & Hdisj & _).
      assert (k ∉ map fst ps) as Hk.
      { intros Hin. apply (Hdisj k Hin). cbn. left. }
      clear -Hk. induction ps as [|[k' v'] ps IH]; cbn; [reflexivity|].
      cbn in Hk. apply not_elem_of_cons in Hk as [Hne Hk].
      assert (String.eqb k' k = false) as -> by (apply String.eqb_neq; congruence).
      rewrite IH by exact Hk. reflexivity. }
    rewrite IH; rewrite <- app_assoc; [reflexivity | exact Hnd].
Qed.

Lemma field_obj ps k : field (VObj ps) k = default VUndef (obj_get ps k).
Proof. reflexivity. Qed.

Lemma get_prop_record item k :
  is_record item = true -> get_prop item k = Returns (field item k).
Proof. destruct item; try discriminate. reflexivity. Qed.

(** A property read that succeeds reads the field. *)
Lemma get_prop_field item k v : get_prop item k = Returns v -> v = field item k.
Proof. destruct item; cbn; congruence. Qed.

(** ** The helper steps *)

Lemma _validateData_run d s w :
  _validateData d (s, w) = ((s, w), Returns tt) \/
  exists msg, _validateData d (s, w) = ((s, w), Throws (ValidationError msg)).
Proof.
  unfold _validateData.
  destruct (negb (truthy d) || negb (typeof_object d)).
  - right. eexists. reflexivity.
  - unfold bind, this. cbn. destruct (validate s d).
    + right. eexists. reflexivity.
    + left. reflexivity.
Qed.

Lemma validation_run d s w :
  (if validation (options s) then _validateData d else ret tt) (s, w)
    = ((s, w), Returns tt) \/
  exists msg,
    (if validation (options s) then _validateData d else ret tt) (s, w)
      = ((s, w), Throws (ValidationError msg)).
Proof.
  destruct (validation (options s)); [apply _validateData_run | left; reflexivity].
Qed.

Lemma _save_run s w :
  _save (s, w) =
  if setItemRefused w (localStorage w) (save_key s w) (save_text s)
  then ((s, with_console
              (console w ++ [(tagged s "데이터 저장 오류:", PersistenceError)]) w),
        Throws PersistenceError)
  else ((s, with_localStorage
              (<[save_key s w := save_text s]> (localStorage w)) w),
        Returns tt).
Proof.
  unfold _save, bind, try_catch, this, world, this_data, localStorage_setItem,
    save_key, save_text. cbn.
  unfold bind, world. cbn.
  destruct (setItemRefused w _ _ _); reflexivity.
Qed.

Lemma mapM_listeners_run action d ls s w :
  exists w' us,
    mapM (call_listener_safely action d) ls (s, w) = ((s, w'), Returns us) /\
    calls w' = calls w ++ map (call_of action d (storageKey s)) ls /\
    localStorage w' = localStorage w /\
    clockReads w' = clockReads w /\
    clock w' = clock w /\ toISOString w' = toISOString w.
Proof.
  revert w. induction ls as [|l ls IH]; intros w; cbn [mapM].
  - exists w, []. rewrite app_nil_r. repeat split; reflexivity.
  - unfold bind at 1. unfold call_listener_safely at 1.
    unfold bind, this, world, set_world, console_error. cbn.
    destruct (lrun l action d (storageKey s)) as [e|]; cbn;
      match goal with
      | |- context [mapM _ ls (s, ?w1)] =>
          destruct (IH w1) as (w' & us & E & Hc & Hl & Hr & Hk & Ht)
      end;
      rewrite E; cbn; exists w'; eexists; (split; [reflexivity|]);
      cbn in Hc, Hl, Hr, Hk, Ht; rewrite Hc, <- app_assoc;
      repeat split; assumption.
Qed.

Lemma _notifyListeners_run action d s w :
  exists w',
    _notifyListeners action d (s, w) = ((s, w'), Returns tt) /\
    calls w' = calls w ++ map (call_of action d (storageKey s)) (listeners s) /\
    localStorage w' = localStorage w /\
    clockReads w' = clockReads w /\
    clock w' = clock w /\ toISOString w' = toISOString w.
Proof.
  destruct (mapM_listeners_run action d (listeners s) s w)
    as (w' & us & E & H).
  exists w'. split; [|exact H].
  unfold _notifyListeners, bind, this. cbn. rewrite E. reflexivity.
Qed.

(** The common end of the mutating methods: save, notify, return. *)
Lemma save_notify_run {A} action d (r : A) s w :
  (exists w',
      (_save ;; _notifyListeners action d ;; ret r)%js (s, w)
        = ((s, w'), Returns r) /\
      calls w' = calls w ++ map (call_of action d (storageKey s)) (listeners s)) \/
  (exists w',
      (_save ;; _notifyListeners action d ;; ret r)%js (s, w)
        = ((s, w'), Throws PersistenceError) /\
      calls w' = calls w).
Proof.
  destruct (setItemRefused w (localStorage w) (save_key s w) (save_text s)) eqn:R.
  - right. eexists. unfold bind. rewrite _save_run, R. split; reflexivity.
  - left.
    destruct (_notifyListeners_run action d s
                (with_localStorage
                   (<[save_key s w := save_text s]> (localStorage w)) w))
      as (w' & E & Hc & _).
    exists w'. unfold bind. rewrite _save_run, R, E.
    split; [reflexivity | exact Hc].
Qed.

(** ** Searching by id *)

Lemma find_by_id_records items id :
  records items ->
  find_by_id items id =
  Returns (List.find (fun item => strict_equals (id_of item) id) items).
Proof.
  induction 1 as [|item items Hrec _ IH]; cbn; [reflexivity|].
  rewrite (get_prop_record _ _ Hrec). fold (id_of item).
  destruct (strict_equals (id_of item) id); [reflexivity | exact IH].
Qed.

Lemma find_id_none items id :
  List.find (fun item => strict_equals (id_of item) id) items = None ->
  id ∉ map id_of items.
Proof.
  induction items as [|item items IH]; cbn; [intros _; apply not_elem_of_nil|].
  destruct (strict_equals (id_of item) id) eqn:E; [discriminate|].
  intros H. apply not_elem_of_cons. split; [|apply IH, H].
  apply strict_equals_neq in E. congruence.
Qed.

Lemma find_id_some items id r :
  r ∈ items -> id_of r = id ->
  exists r', List.find (fun item => strict_equals (id_of item) id) items = Some r'
             /\ r' ∈ items.
Proof.
  intros Hin Hid. induction items as [|item items IH]; [inversion Hin|]. cbn.
  destruct (strict_equals (id_of item) id) eqn:E.
  - exists item. split; [reflexivity | left].
  - apply elem_of_cons in Hin as [->|Hin].
    + rewrite Hid, strict_equals_refl in E. discriminate.
    + destruct (IH Hin) as (r' & -> & Hr'). exists r'. split; [reflexivity|].
      right. exact Hr'.
Qed.

(** What [findIndex] finds is in range, reads the id asked for, and is the
    first such element. *)
Lemma findIndex_by_id_some items id i :
  findIndex_by_id items id = Returns (Some i) ->
  exists item, items !! i = Some item /\ id_of item = id.
Proof.
  revert i. induction items as [|item items IH]; intros i; cbn; [discriminate|].
  destruct (get_prop item "id") as [v|e] eqn:G; [|discriminate].
  apply get_prop_field in G. fold (id_of item) in G. subst v.
  destruct (strict_equals (id_of item) id) eqn:E.
  - intros [= <-]. exists item. split; [reflexivity|].
    apply strict_equals_eq, E.
  - destruct (findIndex_by_id items id) as [[n|]|e] eqn:F; try discriminate.
    intros [= <-]. apply (IH n). reflexivity.
Qed.

Lemma findIndex_by_id_unique items i r :
  records items -> unique_ids items -> items !! i = Some r ->
  findIndex_by_id items (id_of r) = Returns (Some i).
Proof.
  unfold unique_ids. intros Hrec. revert i.
  induction Hrec as [|item items Hitem _ IH]; intros i Hnd Hi; [discriminate|].
  cbn [map] in Hnd. apply NoDup_cons in Hnd as [Hnotin Hnd]. cbn.
  rewrite (get_prop_record _ _ Hitem). fold (id_of item).
  destruct i as [|i]; cbn in Hi.
  - injection Hi as ->. rewrite strict_equals_refl. reflexivity.
  - assert (strict_equals (id_of item) (id_of r) = false) as ->.
    { apply strict_equals_neq. intros E. apply Hnotin. rewrite E.
      apply list_elem_of_fmap. exists r. split; [reflexivity|].
      apply list_elem_of_lookup. exists i. exact Hi. }
    rewrite (IH i Hnd Hi). reflexivity.
Qed.

(** [getById] never throws and leaves the store alone; it only writes to
    the console when a read fails. *)
Lemma getById_run id s w :
  exists w' v,
    getById id (s, w) = ((s, w'), Returns v) /\
    calls w' = calls w /\ clockReads w' = clockReads w /\
    clock w' = clock w /\ toISOString w' = toISOString w /\
    localStorage w' = localStorage w /\ setItemRefused w' = setItemRefused w /\
    configPrefix w' = configPrefix w.
Proof.
  unfold getById, bind, try_catch, this, this_data, lift. cbn.
  destruct (find_by_id (data s) id) as [found|e]; cbn.
  - exists w. eexists. repeat split; reflexivity.
  - eexists. exists VNull. repeat split; reflexivity.
Qed.

Lemma getById_records id s w :
  records (data s) ->
  getById id (s, w) =
  ((s, w),
   Returns (default VNull
              (List.find (fun item => strict_equals (id_of item) id) (data s)))).
Proof.
  intros Hrec. unfold getById, bind, try_catch, this, this_data, lift. cbn.
  rewrite (find_by_id_records _ _ Hrec). cbn.
  destruct (List.find _ (data s)) as [item|] eqn:F; cbn; [|reflexivity].
  apply find_some in F as [Hin _].
  unfold records in Hrec. rewrite List.Forall_forall in Hrec.
  specialize (Hrec item Hin). destruct item; try discriminate. reflexivity.
Qed.

(** ** Stepping through a method *)

Lemma bind_run {A B} (m : M A) (k : A -> M B) st st' a :
  m st = (st', Returns a) -> bind m k st = k a st'.
Proof. unfold bind. intros ->. reflexivity. Qed.

Lemma bind_throws {A B} (m : M A) (k : A -> M B) st st' e :
  m st = (st', Throws e) -> bind m k st = (st', Throws e).
Proof. unfold bind. intros ->. reflexivity. Qed.

Lemma bind_assoc {A B C} (m : M A) (f : A -> M B) (g : B -> M C) st :
  bind (bind m f) g st = bind m (fun x => bind (f x) g) st.
Proof. unfold bind. destruct (m st) as [st' [a|e]]; reflexivity. Qed.

(** One step of a method whose result is known by computation, and as many
    such steps as there are. *)
Ltac run1 := erewrite bind_run by reflexivity; cbn [fst snd].
Ltac run := repeat (first [run1 | rewrite bind_assoc]).

(** A [catch] that logs and throws again changes neither the store, nor the
    outcome, nor the listener calls. *)
Lemma rethrow_run {A} (m : M A) (msg : string) s w :
  let r := bind this (fun s0 =>
             try_catch m (fun e => bind (console_error (tagged s0 msg) e)
                                     (fun _ => throw e))) (s, w) in
  fst (fst r) = fst (fst (m (s, w))) /\ snd r = snd (m (s, w)) /\
  calls (snd (fst r)) = calls (snd (fst (m (s, w)))) /\
  clockReads (snd (fst r)) = clockReads (snd (fst (m (s, w)))).
Proof.
  cbn zeta. run. unfold try_catch.
  destruct (m (s, w)) as [[s' w'] [a|e]]; cbn; repeat split; reflexivity.
Qed.

(** *** [create] *)

Lemma new_item_id d id c u : field (new_item d id c u) "id" = id.
Proof.
  unfold new_item. rewrite field_obj.
  rewrite !obj_get_set_ne by discriminate. rewrite obj_get_set_eq. reflexivity.
Qed.

Lemma create_try_run d s w :
  (exists msg, create_try d (s, w) = ((s, w), Throws (ValidationError msg))) \/
  create_try d (s, w) = ((s, w), Throws TypeError) \/
  (exists id w',
      create_try d (s, w) = ((s, w'), Throws (DuplicateIdError id)) /\
      calls w' = calls w) \/
  (exists id k w' o,
      let item := new_item d id (toISOString w (clock w k))
                    (toISOString w (clock w (S k))) in
      create_try d (s, w) = ((with_data (data s ++ [item]) s, w'), o) /\
      clockReads w <= k <= S (clockReads w) /\
      (records (data s) -> id ∉ map id_of (data s)) /\
      ((o = Returns item /\
        calls w' = calls w ++ map (call_of "create" item (storageKey s)) (listeners s))
       \/ (o = Throws PersistenceError /\ calls w' = calls w))).
Proof.
  unfold create_try. run.
  destruct (validation_run d s w) as [V|[msg V]].
  2:{ left. exists msg. erewrite bind_throws by exact V. reflexivity. }
  erewrite bind_run by exact V.
  destruct (get_prop d "id") as [given|e] eqn:G.
  2:{ right; left. erewrite bind_throws by reflexivity.
      destruct d; cbn in G; try discriminate; injection G as <-; reflexivity. }
  right; right. run1.
  assert (forall id k w1,
    clockReads w <= k <= S (clockReads w) ->
    clockReads w1 = k -> clock w1 = clock w -> toISOString w1 = toISOString w ->
    calls w1 = calls w ->
    let R :=
      bind new_Date_toISOString (fun createdAt =>
        bind new_Date_toISOString (fun updatedAt =>
          let newItem := new_item d id createdAt updatedAt in
          bind (lift (get_prop newItem "id")) (fun newId =>
          bind (getById newId) (fun existing =>
          bind (if truthy existing then throw (DuplicateIdError newId) else ret tt)
          (fun _ => bind this_data (fun items =>
          bind (set_this_data (items ++ [newItem])) (fun _ =>
          bind _save (fun _ => bind (_notifyListeners "create" newItem)
          (fun _ => ret newItem))))))))) (s, w1) in
    (exists id w',
      R = ((s, w'), Throws (DuplicateIdError id)) /\
      calls w' = calls w) \/
    (exists id k w' o,
      let item := new_item d id (toISOString w (clock w k))
                    (toISOString w (clock w (S k))) in
      R = ((with_data (data s ++ [item]) s, w'), o) /\
      clockReads w <= k <= S (clockReads w) /\
      (records (data s) -> id ∉ map id_of (data s)) /\
      ((o = Returns item /\
        calls w' = calls w ++ map (call_of "create" item (storageKey s)) (listeners s))
       \/ (o = Throws PersistenceError /\ calls w' = calls w)))) as Hrest.
  { intros id k w1 Hk Hr Hc Ht Hcalls R. subst R. run.
    cbn [tick_clock clock clockReads toISOString].
    rewrite !Hr, !Hc, !Ht.
    set (item := new_item d id _ _).
    change (default VUndef (obj_get _ "id")) with (field item "id").
    assert (field item "id" = id) as -> by apply new_item_id.
    destruct (getById_run id s (tick_clock (tick_clock w1)))
      as (w3 & existing & E & Hc3 & _).
    erewrite bind_run by exact E.
    destruct (truthy existing) eqn:T.
    - left. exists id, w3. erewrite bind_throws by reflexivity.
      split; [reflexivity|]. rewrite Hc3. exact Hcalls.
    - right. run.
      exists id, k.
      destruct (save_notify_run "create" item item (with_data (data s ++ [item]) s) w3)
        as [(w' & E' & Hc')|(w' & E' & Hc')];
        exists w'; eexists; (split; [exact E'|]); (split; [exact Hk|]); split.
      + intros Hrec. rewrite (getById_records _ _ _ Hrec) in E.
        injection E as _ <-.
        destruct (List.find _ (data s)) as [r|] eqn:F.
        * apply find_some in F as [Hin _].
          unfold records in Hrec. rewrite List.Forall_forall in Hrec.
          specialize (Hrec r Hin). destruct r; discriminate.
        * apply find_id_none, F.
      + left. split; [reflexivity|]. rewrite Hc'. cbn. rewrite Hc3. cbn.
        rewrite Hcalls. reflexivity.
      + intros Hrec. rewrite (getById_records _ _ _ Hrec) in E.
        injection E as _ <-.
        destruct (List.find _ (data s)) as [r|] eqn:F.
        * apply find_some in F as [Hin _].
          unfold records in Hrec. rewrite List.Forall_forall in Hrec.
          specialize (Hrec r Hin). destruct r; discriminate.
        * apply find_id_none, F.
      + right. split; [reflexivity|]. rewrite Hc'. cbn. rewrite Hc3. cbn.
        exact Hcalls. }
  destruct (truthy given) eqn:T.
  - run1. apply (Hrest given (clockReads w) w); try reflexivity; lia.
  - run1.
    apply (Hrest _ (S (clockReads w)) (tick_random (tick_clock w)));
      try reflexivity; lia.
Qed.

(** *** [update], [delete], [clear] *)

Lemma updated_item_id cur u id now : field (updated_item cur u id now) "id" = id.
Proof.
  unfold updated_item. rewrite field_obj.
  rewrite obj_get_set_ne by discriminate. rewrite obj_get_set_eq. reflexivity.
Qed.

Lemma update_try_run id u s w :
  (update_try id u (s, w) = ((s, w), Throws (NotFoundError id)) /\
   findIndex_by_id (data s) id = Returns None) \/
  (exists e, update_try id u (s, w) = ((s, w), Throws e) /\
             findIndex_by_id (data s) id = Throws e /\ is_store_error e = false) \/
  (exists i current,
      findIndex_by_id (data s) id = Returns (Some i) /\
      data s !! i = Some current /\ id_of current = id /\
      let item := updated_item current u id (toISOString w (clock w (clockReads w))) in
      ((exists msg,
          update_try id u (s, w) = ((s, tick_clock w), Throws (ValidationError msg))) \/
       (exists w' o,
          update_try id u (s, w) = ((with_data (<[i := item]> (data s)) s, w'), o) /\
          ((o = Returns item /\
            calls w' = calls w ++ map (call_of "update" item (storageKey s)) (listeners s))
           \/ (o = Throws PersistenceError /\ calls w' = calls w))))).
Proof.
  unfold update_try. run.
  destruct (findIndex_by_id (data s) id) as [[i|]|e] eqn:F.
  - right; right.
    destruct (findIndex_by_id_some _ _ _ F) as (current & Hi & Hid).
    exists i, current. repeat (split; [first [reflexivity | assumption]|]).
    run. rewrite Hi. cbn [default].
    set (item := updated_item current u id _).
    destruct (validation_run item s (tick_clock w)) as [V|[msg V]].
    + right. erewrite bind_run by exact V. run.
      destruct (save_notify_run "update" item item
                  (with_data (<[i:=item]> (data s)) s) (tick_clock w))
        as [(w' & E' & Hc')|(w' & E' & Hc')]; exists w'; eexists;
        (split; [exact E'|]); [left | right]; (split; [reflexivity | exact Hc']).
    + left. exists msg. erewrite bind_throws by exact V. reflexivity.
  - left. run1. split; reflexivity.
  - right; left. exists e. erewrite bind_throws by reflexivity.
    repeat split.
    clear -F. revert F. generalize (data s). intros items; induction items as [|x xs IH];
      cbn; [discriminate|].
    destruct (get_prop x "id") as [v|e'] eqn:G.
    + destruct (strict_equals v id); [discriminate|].
      destruct (findIndex_by_id xs id) as [[n|]|e'']; try discriminate.
      intros [= ->]. apply IH. reflexivity.
    + intros [= ->]. destruct x; cbn in G; try discriminate; injection G as <-; reflexivity.
Qed.

Lemma delete_run id s w :
  (exists w', BaseStorage.delete id (s, w) = ((s, w'), Returns false) /\ calls w' = calls w) \/
  (exists i w' b,
      findIndex_by_id (data s) id = Returns (Some i) /\
      BaseStorage.delete id (s, w) = ((with_data (base.delete i (data s)) s, w'), Returns b)).
Proof.
  unfold BaseStorage.delete. run. unfold try_catch. run.
  destruct (findIndex_by_id (data s) id) as [[i|]|e] eqn:F.
  - right. exists i. run.
    match goal with
    | |- context [bind _save ?k ?st] =>
        destruct (save_notify_run "delete" (default VUndef (data s !! i)) true
                    (with_data (base.delete i (data s)) s) w)
          as [(w' & E' & Hc')|(w' & E' & Hc')]
    end; rewrite E'; cbn; do 2 eexists; split; reflexivity.
  - left. run1. cbn. exists w. split; reflexivity.
  - left. erewrite bind_throws by reflexivity. cbn. eexists. split; reflexivity.
Qed.

Lemma clear_try_run s w :
  exists w' o,
    (set_this_data [] ;; _save ;; _notifyListeners "clear" (VArr []))%js (s, w)
    = ((with_data [] s, w'), o).
Proof.
  run.
  unfold bind. rewrite _save_run.
  destruct (setItemRefused _ _ _ _).
  - do 2 eexists. reflexivity.
  - match goal with
    | |- context [_notifyListeners ?a ?d (?s1, ?w1)] =>
        destruct (_notifyListeners_run a d s1 w1) as (w' & E & _)
    end.
    rewrite E. do 2 eexists. reflexivity.
Qed.

Lemma clear_data s w : data (store_after clear s w) = [].
Proof.
  unfold store_after.
  destruct (rethrow_run
              (set_this_data [] ;; _save ;; _notifyListeners "clear" (VArr []))%js
              "초기화 오류:" s w) as (Hs & _).
  cbn zeta in Hs. unfold clear. rewrite Hs.
  destruct (clear_try_run s w) as (w' & o & E). rewrite E. reflexivity.
Qed.

(** *** Records *)

Lemma distinct_keys_NoDup ps : distinct_keys ps = true <-> NoDup (map fst ps).
Proof.
  induction ps as [|[k v] ps IH]; cbn.
  - split; [intros _; apply NoDup_nil_2 | reflexivity].
  - rewrite andb_true_iff, negb_true_iff, IH, NoDup_cons.
    assert (existsb (String.eqb k) (map fst ps) = false <-> k ∉ map fst ps) as ->;
      [|reflexivity].
    rewrite <- not_true_iff_false, existsb_exists. split.
    + intros H Hin. apply H. exists k. split; [|apply String.eqb_refl].
      apply list_elem_of_In, Hin.
    + intros H (k' & Hin & E). apply String.eqb_eq in E. subst k'.
      apply H, list_elem_of_In, Hin.
Qed.

Lemma record_inv item :
  is_record item = true -> exists ps, item = VObj ps /\ NoDup (map fst ps).
Proof.
  destruct item; try discriminate. cbn. intros H. eexists. split; [reflexivity|].
  apply distinct_keys_NoDup, H.
Qed.

Lemma records_lookup items i r :
  records items -> items !! i = Some r -> is_record r = true.
Proof.
  unfold records. rewrite Forall_lookup. intros H Hi. exact (H i r Hi).
Qed.

Lemma truthy_get_prop v k : truthy v = true -> get_prop v k = Returns (field v k).
Proof. destruct v; cbn; try discriminate; reflexivity. Qed.

Lemma map_id_records items : records items -> map_id items = Returns (map id_of items).
Proof.
  induction 1 as [|item items Hitem _ IH]; cbn; [reflexivity|].
  destruct (record_inv _ Hitem) as (ps & -> & _). cbn. rewrite IH. reflexivity.
Qed.

Lemma filter_new_records ids items :
  records items ->
  filter_new ids items =
  Returns (List.filter (fun item => negb (set_has ids (id_of item))) items).
Proof.
  induction 1 as [|item items Hitem _ IH]; cbn; [reflexivity|].
  destruct (record_inv _ Hitem) as (ps & -> & _). cbn. rewrite IH.
  unfold id_of. cbn. destruct (set_has ids _); reflexivity.
Qed.

Lemma set_has_elem ids id : set_has ids id = true <-> id ∈ ids.
Proof.
  unfold set_has, same_value_zero. rewrite existsb_exists. split.
  - intros (x & Hin & E). apply strict_equals_eq in E. subst x.
    apply list_elem_of_In, Hin.
  - intros Hin. exists id. split; [apply list_elem_of_In, Hin|].
    apply strict_equals_refl.
Qed.

(** *** [bulkUpdate] and [import] *)

(** The callback of [bulkUpdate] on one item. *)
Lemma bulkUpdate_item_run x s w :
  (exists msg, bulkUpdate_item x (s, w) = ((s, w), Throws (ValidationError msg))) \/
  bulkUpdate_item x (s, w) =
    ((s, tick_clock w),
     Returns (restamped_item x (toISOString w (clock w (clockReads w))))).
Proof.
  unfold bulkUpdate_item. run.
  destruct (validation_run x s w) as [V|[msg V]].
  - right. erewrite bind_run by exact V. run. reflexivity.
  - left. exists msg. erewrite bind_throws by exact V. reflexivity.
Qed.

Lemma mapM_bulkUpdate_item_run xs s w :
  (exists w' msg,
      mapM bulkUpdate_item xs (s, w) = ((s, w'), Throws (ValidationError msg)) /\
      calls w' = calls w) \/
  (exists w' ys,
      mapM bulkUpdate_item xs (s, w) = ((s, w'), Returns ys) /\
      Forall2 (fun x y => exists now, y = restamped_item x now) xs ys /\
      calls w' = calls w).
Proof.
  revert w. induction xs as [|x xs IH]; intros w; cbn [mapM].
  - right. exists w, []. repeat split. constructor.
  - destruct (bulkUpdate_item_run x s w) as [[msg E]|E].
    + left. exists w, msg. erewrite bind_throws by exact E. split; reflexivity.
    + erewrite bind_run by exact E.
      destruct (IH (tick_clock w)) as [(w' & msg & E' & Hc)|(w' & ys & E' & HF & Hc)].
      * left. exists w', msg. erewrite bind_throws by exact E'.
        split; [reflexivity | exact Hc].
      * right. exists w'. eexists. erewrite bind_run by exact E'.
        split; [reflexivity|]. split; [|exact Hc].
        constructor; [eexists; reflexivity | exact HF].
Qed.

Lemma bulkUpdate_try_run items s w :
  (exists e w', bulkUpdate_try items (s, w) = ((s, w'), Throws e) /\
                calls w' = calls w /\
                (is_store_error e = true -> exists msg, e = ValidationError msg)) \/
  (exists xs ys w' o,
      items = VArr xs /\
      Forall2 (fun x y => exists now, y = restamped_item x now) xs ys /\
      bulkUpdate_try items (s, w) = ((with_data ys s, w'), o) /\
      (o = Returns true \/ o = Throws PersistenceError)).
Proof.
  unfold bulkUpdate_try.
  destruct items as [ | | b | n | str | xs | ps];
    try (left; exists TypeError, w; repeat split; discriminate).
  destruct (mapM_bulkUpdate_item_run xs s w)
    as [(w' & msg & E & Hc)|(w' & ys & E & HF & Hc)].
  - left. exists (ValidationError msg), w'. erewrite bind_throws by exact E.
    repeat split; [exact Hc|]. intros _. eexists. reflexivity.
  - right. exists xs, ys. erewrite bind_run by exact E. run.
    destruct (save_notify_run "bulkUpdate" (VArr ys) true (with_data ys s) w')
      as [(w'' & E' & _)|(w'' & E' & _)]; exists w''; eexists;
      (split; [reflexivity|]); (split; [exact HF|]); (split; [exact E'|]);
      [left | right]; reflexivity.
Qed.

(** The [catch] of [bulkUpdate] turns every error into the result [false]. *)
Lemma bulkUpdate_run items s w :
  store_after (bulkUpdate items) s w = fst (fst (bulkUpdate_try items (s, w))) /\
  outcome_of (bulkUpdate items) s w =
    match snd (bulkUpdate_try items (s, w)) with
    | Returns b => Returns b
    | Throws _ => Returns false
    end.
Proof.
  unfold store_after, outcome_of, bulkUpdate. run. unfold try_catch.
  destruct (bulkUpdate_try items (s, w)) as [[s' w'] [b|e]]; cbn;
    split; reflexivity.
Qed.

Lemma import_try_run snap merge s w :
  (import_try snap merge (s, w) = ((s, w), Throws ImportFormatError) /\
   (truthy snap = false \/ isArray (field snap "data") = false)) \/
  (exists e, import_try snap merge (s, w) = ((s, w), Throws e) /\
             is_store_error e = false /\ merge = true /\
             (map_id (data s) = Throws e \/
              exists ids, map_id (data s) = Returns ids /\
                          filter_new ids (elements (field snap "data")) = Throws e)) \/
  (exists incoming added w' o,
      truthy snap = true /\ field snap "data" = VArr incoming /\
      (if merge
       then exists ids, map_id (data s) = Returns ids /\
                        filter_new ids incoming = Returns added
       else True) /\
      import_try snap merge (s, w) =
        ((with_data (if merge then data s ++ added else incoming) s, w'), o) /\
      (o = Returns tt \/ o = Throws PersistenceError)).
Proof.
  assert (forall items, forall e, map_id items = Throws e -> e = TypeError) as Hmap.
  { induction items as [|x xs IH]; cbn; [discriminate|]. intros e.
    destruct (get_prop x "id") eqn:G.
    - destruct (map_id xs); [discriminate|]. intros [= ->]. apply IH. reflexivity.
    - intros [= ->]. destruct x; cbn in G; try discriminate; congruence. }
  assert (forall ids items, forall e, filter_new ids items = Throws e -> e = TypeError)
    as Hfil.
  { intros ids. induction items as [|x xs IH]; cbn; [discriminate|]. intros e.
    destruct (get_prop x "id") eqn:G.
    - destruct (filter_new ids xs); [discriminate|]. intros [= ->]. apply IH.
      reflexivity.
    - intros [= ->]. destruct x; cbn in G; try discriminate; congruence. }
  unfold import_try.
  destruct (truthy snap) eqn:T; cbn [negb].
  2:{ left. erewrite bind_throws by reflexivity. split; [reflexivity | left; reflexivity]. }
  rewrite (truthy_get_prop _ "data" T).
  destruct (field snap "data") as [ | | b | n | str | incoming | ps] eqn:D;
    try (left; erewrite bind_throws by reflexivity;
         split; [reflexivity | right; reflexivity]).
  right. run1. cbn [elements].
  destruct merge.
  - run. destruct (map_id (data s)) as [ids|e] eqn:Emap.
    + run. cbn [elements]. destruct (filter_new ids incoming) as [added|e] eqn:Efil.
      * right. run.
        exists incoming, added.
        assert (exists w' o,
          (_save ;; d ← this_data; _notifyListeners "import" (VArr d))%js
            (with_data (data s ++ added) s, w)
          = ((with_data (data s ++ added) s, w'), o) /\
          (o = Returns tt \/ o = Throws PersistenceError)) as (w' & o & E & Ho).
        { unfold bind at 1. rewrite _save_run.
          destruct (setItemRefused _ _ _ _).
          - do 2 eexists. split; [reflexivity | right; reflexivity].
          - run.
            match goal with
            | |- context [_notifyListeners ?a ?d (?s1, ?w1)] =>
                destruct (_notifyListeners_run a d s1 w1) as (w' & E & _)
            end.
            rewrite E. do 2 eexists. split; [reflexivity | left; reflexivity]. }
        exists w', o. split; [reflexivity|]. split; [reflexivity|].
        split; [exists ids; split; [reflexivity | exact Efil]|].
        split; [exact E | exact Ho].
      * left. exists e. erewrite bind_throws by reflexivity.
        pose proof (Hfil _ _ _ Efil) as ->.
        repeat split. right. exists ids. split; [reflexivity | exact Efil].
    + left. exists e. erewrite bind_throws by reflexivity.
      pose proof (Hmap _ _ Emap) as ->. repeat split. left. reflexivity.
  - right. run. cbn [elements]. exists incoming, [].
    assert (exists w' o,
      (_save ;; d ← this_data; _notifyListeners "import" (VArr d))%js
        (with_data incoming s, w)
      = ((with_data incoming s, w'), o) /\
      (o = Returns tt \/ o = Throws PersistenceError)) as (w' & o & E & Ho).
    { unfold bind at 1. rewrite _save_run.
      destruct (setItemRefused _ _ _ _).
      - do 2 eexists. split; [reflexivity | right; reflexivity].
      - run.
        match goal with
        | |- context [_notifyListeners ?a ?d (?s1, ?w1)] =>
            destruct (_notifyListeners_run a d s1 w1) as (w' & E & _)
        end.
        rewrite E. do 2 eexists. split; [reflexivity | left; reflexivity]. }
    exists w', o. split; [reflexivity|]. split; [reflexivity|].
    split; [exact I|]. split; [exact E | exact Ho].
Qed.

(** ** Uniqueness of ids *)

Lemma store_after_rethrow {A} (m : M A) msg s w :
  store_after
    (bind this (fun s0 =>
       try_catch m (fun e => bind (console_error (tagged s0 msg) e)
                               (fun _ => throw e)))) s w
  = fst (fst (m (s, w))).
Proof. unfold store_after. apply (rethrow_run m msg s w). Qed.

Lemma outcome_of_rethrow {A} (m : M A) msg s w :
  outcome_of
    (bind this (fun s0 =>
       try_catch m (fun e => bind (console_error (tagged s0 msg) e)
                               (fun _ => throw e)))) s w
  = snd (m (s, w)).
Proof. unfold outcome_of. apply (rethrow_run m msg s w). Qed.

Lemma restamped_item_id x now :
  is_record x = true -> id_of (restamped_item x now) = id_of x.
Proof.
  intros H. destruct (record_inv _ H) as (ps & -> & Hnd).
  unfold id_of, restamped_item, spread. cbn [own_props].
  rewrite obj_assign_nil by exact Hnd. rewrite !field_obj.
  rewrite obj_get_set_ne by discriminate. reflexivity.
Qed.

Lemma restamped_ids xs ys :
  records xs ->
  Forall2 (fun x y => exists now, y = restamped_item x now) xs ys ->
  map id_of ys = map id_of xs.
Proof.
  intros Hrec HF. induction HF as [|x y xs ys [now ->] _ IH]; [reflexivity|].
  apply Forall_cons in Hrec as [Hx Hrec]. cbn [map].
  rewrite restamped_item_id by exact Hx. rewrite IH by exact Hrec. reflexivity.
Qed.

Lemma unique_ids_snoc items item :
  unique_ids items -> id_of item ∉ map id_of items -> unique_ids (items ++ [item]).
Proof.
  unfold unique_ids. intros Hnd Hnotin. rewrite map_app. cbn.
  apply NoDup_app. split; [exact Hnd|]. split.
  - intros x Hx Hin. apply list_elem_of_singleton in Hin. subst x. contradiction.
  - apply NoDup_singleton.
Qed.

Lemma unique_ids_insert items i current item :
  items !! i = Some current -> id_of item = id_of current ->
  map id_of (<[i := item]> items) = map id_of items.
Proof.
  intros Hi Hid.
  change (id_of <$> <[i:=item]> items = id_of <$> items).
  rewrite list_fmap_insert. apply list_insert_id.
  rewrite list_lookup_fmap, Hi. cbn. rewrite Hid. reflexivity.
Qed.

Lemma unique_ids_delete items i :
  unique_ids items -> unique_ids (base.delete i items).
Proof.
  unfold unique_ids. intros Hnd.
  change (NoDup (id_of <$> base.delete i items)).
  rewrite list_fmap_delete. eapply sublist_NoDup; [exact Hnd|].
  apply sublist_delete.
Qed.

Lemma unique_ids_merge ids items incoming :
  ids = map id_of items ->
  unique_ids items -> unique_ids incoming ->
  unique_ids
    (items ++ List.filter (fun item => negb (set_has ids (id_of item))) incoming).
Proof.
  unfold unique_ids. intros -> Hnd Hin. rewrite map_app.
  apply NoDup_app. split; [exact Hnd|]. split.
  - intros x Hx Hx'. apply list_elem_of_In, in_map_iff in Hx' as (r & <- & Hr).
    apply filter_In in Hr as [_ Hr]. apply negb_true_iff in Hr.
    apply not_true_iff_false in Hr. apply Hr, set_has_elem, Hx.
  - clear -Hin. induction incoming as [|r rs IH]; cbn; [constructor|].
    cbn in Hin. apply NoDup_cons in Hin as [Hr Hrs].
    destruct (negb _); [|apply IH, Hrs]. cbn. apply NoDup_cons.
    split; [|apply IH, Hrs].
    intros Hx. apply Hr. apply list_elem_of_In, in_map_iff in Hx as (r' & E & Hr').
    apply filter_In in Hr' as [Hr' _].
    apply list_elem_of_In, in_map_iff. exists r'. split; assumption.
Qed.

(** Claim C1, as amended.  In a store of records with pairwise distinct
    ids, [create], [update], [delete] and [clear] always leave the ids
    pairwise distinct; [bulkUpdate] and [import] (with [merge] true or
    false) do so when the records they are given have pairwise distinct ids
    themselves: these two take the caller's sequence as it is. *)
Theorem unique_ids_preserved s w :
  records (data s) -> unique_ids (data s) ->
  (forall d, unique_ids (data (store_after (create d) s w))) /\
  (forall id updates, unique_ids (data (store_after (update id updates) s w))) /\
  (forall id, unique_ids (data (store_after (BaseStorage.delete id) s w))) /\
  unique_ids (data (store_after clear s w)) /\
  (forall xs, records xs -> unique_ids xs ->
              unique_ids (data (store_after (bulkUpdate (VArr xs)) s w))) /\
  (forall snapshot merge,
      records (elements (field snapshot "data")) ->
      unique_ids (elements (field snapshot "data")) ->
      unique_ids (data (store_after (import snapshot merge) s w))).
Proof.
  intros Hrec Hnd. repeat split.
  - intros d. unfold create. rewrite store_after_rethrow.
    destruct (create_try_run d s w)
      as [[msg E]|[E|[(id & w' & E & _)|(id & k & w' & o & E & _ & Hfresh & _)]]];
      rewrite E; cbn; try exact Hnd.
    apply unique_ids_snoc; [exact Hnd|].
    unfold id_of at 1. rewrite new_item_id. apply Hfresh, Hrec.
  - intros id u. unfold update. rewrite store_after_rethrow.
    destruct (update_try_run id u s w)
      as [[E _]|[(e & E & _)|(i & cur & _ & Hi & Hid & [[msg E]|(w' & o & E & _)])]];
      rewrite E; cbn; try exact Hnd.
    unfold unique_ids. erewrite unique_ids_insert; [exact Hnd | exact Hi |].
    unfold id_of at 1. rewrite updated_item_id. symmetry. exact Hid.
  - intros id. unfold store_after.
    destruct (delete_run id s w) as [(w' & E & _)|(i & w' & b & _ & E)];
      rewrite E; cbn; [exact Hnd | apply unique_ids_delete, Hnd].
  - rewrite clear_data. constructor.
  - intros xs Hxs Hu. destruct (bulkUpdate_run (VArr xs) s w) as [-> _].
    destruct (bulkUpdate_try_run (VArr xs) s w)
      as [(e & w' & E & _)|(xs' & ys & w' & o & Exs & HF & E & _)];
      rewrite E; cbn; [exact Hnd|].
    injection Exs as <-. unfold unique_ids.
    rewrite (restamped_ids _ _ Hxs HF). exact Hu.
  - intros snap merge Hin Hu. unfold import. rewrite store_after_rethrow.
    destruct (import_try_run snap merge s w)
      as [[E _]|[(e & E & _)|(incoming & added & w' & o & _ & D & Hm & E & _)]];
      rewrite E; cbn; try exact Hnd.
    rewrite D in Hin, Hu. cbn in Hin, Hu.
    destruct merge; [|exact Hu].
    destruct Hm as (ids & Hids & Hadded).
    rewrite (map_id_records _ Hrec) in Hids. injection Hids as <-.
    rewrite (filter_new_records _ _ Hin) in Hadded. injection Hadded as <-.
    apply unique_ids_merge; [reflexivity | exact Hnd | exact Hu].
Qed.

#[global] Instance value_eq_dec : EqDecision value.
Proof.
  intros a b. destruct (strict_equals a b) eqn:E.
  - left. apply strict_equals_eq, E.
  - right. apply strict_equals_neq, E.
Defined.

(** Claim C1 fails as stated: [bulkUpdate] with two records of id [a] on an
    empty store leaves two records that share their id. *)
Lemma unique_ids_bulkUpdate_counterexample :
  unique_ids (data (empty_store "clients" accept_all)) /\
  ~ unique_ids
      (data (store_after (bulkUpdate two_same_ids)
               (empty_store "clients" accept_all) sample_world)).
Proof. split; compute_done. Qed.

(** An instance: [create] of a record with a fresh id in a store of one
    record. *)
Lemma unique_ids_preserved_witness :
  unique_ids
    (data (store_after (create (VObj [("id", VStr "b")]))
             (store_of "clients" accept_all [VObj [("id", VStr "a")]])
             sample_world)).
Proof.
  destruct (unique_ids_preserved
              (store_of "clients" accept_all [VObj [("id", VStr "a")]])
              sample_world) as [H _]; [compute_done | compute_done |].
  apply H.
Defined.

(** ** Failures leave the records alone *)

(** Claim C2, as amended.  When the [try] block of [create], [update] or
    [import] throws a validation, not-found, duplicate-id or import-format
    error, the method throws that error to its caller and the record
    sequence is what it was before the call.  When the [try] block of
    [bulkUpdate] throws such an error, the record sequence is unchanged as
    well, and the method reports the failure by returning [false]. *)
Theorem store_errors_leave_data_unchanged s w :
  (forall d e,
      outcome_of (create_try d) s w = Throws e -> is_store_error e = true ->
      outcome_of (create d) s w = Throws e /\
      data (store_after (create d) s w) = data s) /\
  (forall id updates e,
      outcome_of (update_try id updates) s w = Throws e ->
      is_store_error e = true ->
      outcome_of (update id updates) s w = Throws e /\
      data (store_after (update id updates) s w) = data s) /\
  (forall snapshot merge e,
      outcome_of (import_try snapshot merge) s w = Throws e ->
      is_store_error e = true ->
      outcome_of (import snapshot merge) s w = Throws e /\
      data (store_after (import snapshot merge) s w) = data s) /\
  (forall items e,
      outcome_of (bulkUpdate_try items) s w = Throws e ->
      is_store_error e = true ->
      outcome_of (bulkUpdate items) s w = Returns false /\
      data (store_after (bulkUpdate items) s w) = data s).
Proof.
  unfold outcome_of at 1 3 5 7. repeat split.
  - unfold create. rewrite outcome_of_rethrow. exact H.
  - unfold create. rewrite store_after_rethrow. revert H H0.
    destruct (create_try_run d s w)
      as [[msg E]|[E|[(id & w' & E & _)|(id & k & w' & o & E & _ & _ & Ho)]]];
      rewrite E; cbn; try reflexivity.
    destruct Ho as [[-> _]|[-> _]]; [discriminate|].
    intros [= <-]. discriminate.
  - unfold update. rewrite outcome_of_rethrow. exact H.
  - unfold update. rewrite store_after_rethrow. revert H H0.
    destruct (update_try_run id updates s w)
      as [[E _]|[(e' & E & _)|(i & cur & _ & Hi & Hid & [[msg E]|(w' & o & E & Ho)])]];
      rewrite E; cbn; try reflexivity.
    destruct Ho as [[-> _]|[-> _]]; [discriminate|].
    intros [= <-]. discriminate.
  - unfold import. rewrite outcome_of_rethrow. exact H.
  - unfold import. rewrite store_after_rethrow. revert H H0.
    destruct (import_try_run snapshot merge s w)
      as [[E _]|[(e' & E & _)|(incoming & added & w' & o & _ & D & Hm & E & Ho)]];
      rewrite E; cbn; try reflexivity.
    destruct Ho as [->| ->]; [discriminate|].
    intros [= <-]. discriminate.
  - destruct (bulkUpdate_run items s w) as [_ ->]. rewrite H. reflexivity.
  - destruct (bulkUpdate_run items s w) as [-> _]. revert H H0.
    destruct (bulkUpdate_try_run items s w)
      as [(e' & w' & E & _)|(xs' & ys & w' & o & Exs & HF & E & Ho)];
      rewrite E; cbn; try reflexivity.
    destruct Ho as [->| ->]; [discriminate|].
    intros [= <-]. discriminate.
Qed.

(** An instance: [create] of the stored client once more throws the
    duplicate-id error and leaves the client store as it was. *)
Lemma store_errors_leave_data_unchanged_witness :
  outcome_of (create client_c1) client_store sample_world
    = Throws (DuplicateIdError (VStr "c1")) /\
  data (store_after (create client_c1) client_store sample_world)
    = data client_store.
Proof.
  destruct (store_errors_leave_data_unchanged client_store sample_world)
    as [H _].
  apply H; vm_compute; reflexivity.
Defined.

(** Claim C2 fails as stated: in the client store, [bulkUpdate] of a client
    without its required fields fails validation, and the error is not
    thrown to the caller: the call returns [false]. *)
Lemma bulkUpdate_error_not_raised_counterexample :
  outcome_of (bulkUpdate_try (VArr [VObj [("companyName", VStr "Acme")]]))
    client_store sample_world
    = Throws (ValidationError
                "필수 필드가 누락되었습니다: contactPerson, email, phone") /\
  outcome_of (bulkUpdate (VArr [VObj [("companyName", VStr "Acme")]]))
    client_store sample_world = Returns false.
Proof. split; vm_compute; reflexivity. Qed.

(** ** Timestamps *)

Lemma new_item_createdAt d id c u :
  field (new_item d id c u) "createdAt" = VStr c.
Proof.
  unfold new_item. rewrite field_obj.
  rewrite obj_get_set_ne by discriminate. rewrite obj_get_set_eq. reflexivity.
Qed.

(** A field of the updated record other than [id] and [updatedAt]: the
    partial's when it has one, the current record's otherwise. *)
Lemma updated_item_field_kept current updates id now k :
  is_record current = true -> k <> "id" -> k <> "updatedAt" ->
  obj_get (own_props updates) k = None ->
  field (updated_item current updates id now) k = field current k.
Proof.
  intros Hrec Hid Hup Hnone.
  destruct (record_inv _ Hrec) as (ps & -> & Hnd).
  unfold updated_item, spread. cbn [own_props].
  rewrite obj_assign_nil by exact Hnd. rewrite !field_obj.
  rewrite !obj_get_set_ne by congruence.
  rewrite obj_get_assign_none by exact Hnone. reflexivity.
Qed.

Lemma updated_item_field_taken current updates id now k v :
  is_record updates = true -> k <> "id" -> k <> "updatedAt" ->
  obj_get (own_props updates) k = Some v ->
  field (updated_item current updates id now) k = v.
Proof.
  intros Hrec Hid Hup Hsome.
  destruct (record_inv _ Hrec) as (ps & -> & Hnd).
  unfold updated_item, spread. cbn [own_props] in *.
  rewrite !field_obj. rewrite !obj_get_set_ne by congruence.
  rewrite (obj_get_assign_some _ _ _ _ Hnd Hsome). reflexivity.
Qed.

(** What a successful [update] did. *)
Lemma update_returns id updates s w r' :
  outcome_of (update id updates) s w = Returns r' ->
  exists i current,
    findIndex_by_id (data s) id = Returns (Some i) /\
    data s !! i = Some current /\ id_of current = id /\
    r' = updated_item current updates id (toISOString w (clock w (clockReads w))) /\
    data (store_after (update id updates) s w) = <[i := r']> (data s) /\
    calls (world_after (update id updates) s w) =
      calls w ++ map (call_of "update" r' (storageKey s)) (listeners s).
Proof.
  unfold update, world_after. rewrite outcome_of_rethrow, store_after_rethrow.
  destruct (rethrow_run (update_try id updates) "수정 오류:" s w) as (_ & _ & -> & _).
  destruct (update_try_run id updates s w)
    as [[E _]|[(e' & E & _)|(i & cur & F & Hi & Hid & [[msg E]|(w' & o & E & Ho)])]];
    rewrite E; cbn; try discriminate.
  destruct Ho as [[-> Hc]|[-> _]]; [|discriminate].
  intros [= <-]. exists i, cur. repeat split; assumption.
Qed.

(** What a successful [create] did. *)
Lemma create_returns d s w r :
  outcome_of (create d) s w = Returns r ->
  exists id k,
    clockReads w <= k <= S (clockReads w) /\
    r = new_item d id (toISOString w (clock w k)) (toISOString w (clock w (S k))) /\
    data (store_after (create d) s w) = data s ++ [r] /\
    calls (world_after (create d) s w) =
      calls w ++ map (call_of "create" r (storageKey s)) (listeners s).
Proof.
  unfold create, world_after. rewrite outcome_of_rethrow, store_after_rethrow.
  destruct (rethrow_run (create_try d) "생성 오류:" s w) as (_ & _ & -> & _).
  destruct (create_try_run d s w)
    as [[msg E]|[E|[(id & w' & E & _)|(id & k & w' & o & E & Hk & _ & Ho)]]];
    rewrite E; cbn; try discriminate.
  destruct Ho as [[-> Hc]|[-> _]]; [|discriminate].
  intros [= <-]. exists id, k. repeat split; first [assumption | lia].
Qed.

(** Claim C3, as amended.  [create] stamps [createdAt] with a reading of
    the clock taken during the call, whatever the caller supplied.
    [update] keeps the [createdAt] of the record it updates when the partial
    has no [createdAt] property; a [createdAt] in the partial replaces it,
    as the properties of the partial win over those of the record. *)
Theorem createdAt_assignment s w :
  (forall d r,
      outcome_of (create d) s w = Returns r ->
      exists k, clockReads w <= k <= S (clockReads w) /\
                field r "createdAt" = VStr (toISOString w (clock w k))) /\
  (forall id updates r',
      records (data s) ->
      outcome_of (update id updates) s w = Returns r' ->
      exists i current,
        data s !! i = Some current /\ id_of current = id /\
        data (store_after (update id updates) s w) !! i = Some r' /\
        (obj_get (own_props updates) "createdAt" = None ->
         field r' "createdAt" = field current "createdAt") /\
        (forall c, is_record updates = true ->
                   obj_get (own_props updates) "createdAt" = Some c ->
                   field r' "createdAt" = c)).
Proof.
  split.
  - intros d r Hr. destruct (create_returns _ _ _ _ Hr) as (id & k & Hk & -> & _).
    exists k. split; [exact Hk | apply new_item_createdAt].
  - intros id updates r' Hrec Hr.
    destruct (update_returns _ _ _ _ _ Hr) as (i & cur & _ & Hi & Hid & -> & Hd & _).
    exists i, cur. split; [exact Hi|]. split; [exact Hid|]. split.
    + rewrite Hd. apply list_lookup_insert_eq. eapply lookup_lt_Some, Hi.
    + split.
      * intros Hnone. apply updated_item_field_kept; try discriminate; try assumption.
        eapply records_lookup; eassumption.
      * intros c Hu Hsome.
        apply updated_item_field_taken; try discriminate; assumption.
Qed.

(** Claim C3 fails as stated: an [update] whose partial carries [createdAt]
    replaces the [createdAt] of the stored record. *)
Lemma update_replaces_createdAt_counterexample :
  map (fun r => field r "createdAt") (data client_store) = [VStr "2020"] /\
  outcome_of (update (VStr "c1") (VObj [("createdAt", VStr "1999")]))
    client_store sample_world
  = Returns
      (VObj [("id", VStr "c1"); ("companyName", VStr "Acme");
             ("contactPerson", VStr "Kim"); ("email", VStr "kim@acme.io");
             ("phone", VStr "010-1234"); ("createdAt", VStr "1999");
             ("updatedAt", VStr "1700000000000")]) /\
  map (fun r => field r "createdAt")
    (data (store_after (update (VStr "c1") (VObj [("createdAt", VStr "1999")]))
             client_store sample_world))
  = [VStr "1999"].
Proof. repeat split; vm_compute; reflexivity. Qed.

(** An instance: an [update] of the telephone number of the stored client
    keeps its [createdAt]. *)
Lemma createdAt_assignment_witness :
  exists i current,
    data client_store !! i = Some current /\ id_of current = VStr "c1" /\
    data (store_after (update (VStr "c1") (VObj [("phone", VStr "02-555")]))
            client_store sample_world) !! i
    = Some (VObj [("id", VStr "c1"); ("companyName", VStr "Acme");
                  ("contactPerson", VStr "Kim"); ("email", VStr "kim@acme.io");
                  ("phone", VStr "02-555"); ("createdAt", VStr "2020");
                  ("updatedAt", VStr "1700000000000")]) /\
    (obj_get (own_props (VObj [("phone", VStr "02-555")])) "createdAt" = None ->
     field (VObj [("id", VStr "c1"); ("companyName", VStr "Acme");
                  ("contactPerson", VStr "Kim"); ("email", VStr "kim@acme.io");
                  ("phone", VStr "02-555"); ("createdAt", VStr "2020");
                  ("updatedAt", VStr "1700000000000")]) "createdAt"
     = field current "createdAt") /\
    (forall c, is_record (VObj [("phone", VStr "02-555")]) = true ->
               obj_get (own_props (VObj [("phone", VStr "02-555")])) "createdAt" = Some c ->
               field (VObj [("id", VStr "c1"); ("companyName", VStr "Acme");
                  ("contactPerson", VStr "Kim"); ("email", VStr "kim@acme.io");
                  ("phone", VStr "02-555"); ("createdAt", VStr "2020");
                  ("updatedAt", VStr "1700000000000")]) "createdAt" = c).
Proof.
  destruct (createdAt_assignment client_store sample_world) as [_ H].
  apply (H (VStr "c1") (VObj [("phone", VStr "02-555")])).
  - compute_done.
  - vm_compute. reflexivity.
Defined.

(** ** Export and import *)

Lemma export_run s w :
  export (s, w) =
  ((s, tick_clock w),
   Returns (VObj [("storageKey", VStr (storageKey s));
                  ("version", js_or (configVersion w) (VStr "2.0.0"));
                  ("exportedAt", VStr (toISOString w (clock w (clockReads w))));
                  ("data", VArr (data s))])).
Proof. reflexivity. Qed.

(** Claim C4.  The snapshot that [export] takes of a store, imported with
    [merge] false into a store of any kind and content (an empty one in
    particular), leaves that store with the record sequence of the first
    one: the same records in the same order.  The import itself returns,
    unless [localStorage] refuses the write, which comes after the records
    were replaced. *)
Theorem import_export_round_trip source target w :
  exists snapshot,
    outcome_of export source w = Returns snapshot /\
    data (store_after (import snapshot false) target (world_after export source w))
      = data source /\
    (outcome_of (import snapshot false) target (world_after export source w)
       = Returns tt \/
     outcome_of (import snapshot false) target (world_after export source w)
       = Throws PersistenceError).
Proof.
  unfold outcome_of at 1, world_after. rewrite export_run. cbn [fst snd].
  eexists. split; [reflexivity|].
  set (snapshot := VObj _). set (w1 := tick_clock w).
  unfold import. rewrite store_after_rethrow, outcome_of_rethrow.
  destruct (import_try_run snapshot false target w1)
    as [[E [T|T]]|[(e' & E & _ & Hm & _)|(incoming & added & w' & o & _ & D & _ & E & Ho)]];
    try discriminate.
  rewrite E. cbn [fst snd data with_data].
  split; [|exact Ho].
  cbn in D. injection D as <-. reflexivity.
Qed.

(** Claim C5.  [import] with [merge] true, given a snapshot whose [data]
    is a sequence of records, on a store of records: every record of the
    store stays where it was with all its fields, and the incoming records
    whose id is not the id of a record already in the store are appended, in
    their order, and no others. *)
Theorem import_merge_appends_new s w snapshot incoming :
  records (data s) -> records incoming ->
  truthy snapshot = true -> field snapshot "data" = VArr incoming ->
  data (store_after (import snapshot true) s w) =
    data s ++
    List.filter (fun item => negb (set_has (map id_of (data s)) (id_of item)))
      incoming /\
  (forall i r, data s !! i = Some r ->
               data (store_after (import snapshot true) s w) !! i = Some r).
Proof.
  intros Hrec Hin T D.
  assert (data (store_after (import snapshot true) s w) =
          data s ++
          List.filter (fun item => negb (set_has (map id_of (data s)) (id_of item)))
            incoming) as Hdata.
  { unfold import. rewrite store_after_rethrow.
    destruct (import_try_run snapshot true s w)
      as [[E [T'|T']]|[(e' & E & _ & _ & [Hm|(ids & Hm & Hf)])
                      |(incoming' & added & w' & o & _ & D' & Hm & E & Ho)]].
    - congruence.
    - rewrite D in T'. discriminate.
    - rewrite (map_id_records _ Hrec) in Hm. discriminate.
    - rewrite (map_id_records _ Hrec) in Hm. injection Hm as <-.
      rewrite D in Hf. cbn in Hf. rewrite (filter_new_records _ _ Hin) in Hf.
      discriminate.
    - rewrite E. cbn [fst data with_data].
      rewrite D in D'. injection D' as <-.
      destruct Hm as (ids & Hm & Hf).
      rewrite (map_id_records _ Hrec) in Hm. injection Hm as <-.
      rewrite (filter_new_records _ _ Hin) in Hf. injection Hf as <-.
      reflexivity. }
  split; [exact Hdata|].
  intros i r Hi. rewrite Hdata. apply lookup_app_l_Some, Hi.
Qed.

(** An instance: merging a snapshot with the stored client, changed, and a
    new client appends the new client only. *)
Lemma import_merge_appends_new_witness :
  data (store_after
          (import (VObj [("data", VArr [VObj [("id", VStr "c1"); ("phone", VStr "999")];
                                        VObj [("id", VStr "c2")]])]) true)
          client_store sample_world)
  = [client_c1; VObj [("id", VStr "c2")]].
Proof.
  destruct (import_merge_appends_new client_store sample_world
              (VObj [("data", VArr [VObj [("id", VStr "c1"); ("phone", VStr "999")];
                                    VObj [("id", VStr "c2")]])])
              [VObj [("id", VStr "c1"); ("phone", VStr "999")];
               VObj [("id", VStr "c2")]]) as [H _];
    [compute_done | compute_done | reflexivity | reflexivity |].
  rewrite H. vm_compute. reflexivity.
Defined.

(** ** Duplicate ids *)

Lemma count_run s w : count (s, w) = ((s, w), Returns (length (data s))).
Proof. reflexivity. Qed.

(** Claim C6, as amended.  In a store of records, [create] of data that
    pass validation (or with validation switched off) and carry a truthy
    [id] equal to the id of a record of the store throws the duplicate-id
    error, and the records, hence their count, are what they were. *)
Theorem create_duplicate_id s w d r :
  records (data s) -> r ∈ data s ->
  truthy (field d "id") = true -> field d "id" = id_of r ->
  (validation (options s) = true -> validate s d = None) ->
  outcome_of (create d) s w = Throws (DuplicateIdError (field d "id")) /\
  data (store_after (create d) s w) = data s /\
  outcome_of count (store_after (create d) s w) (world_after (create d) s w)
    = outcome_of count s w.
Proof.
  intros Hrec Hin T Hid Hval.
  assert (create_try d (s, w) =
          ((s, tick_clock (tick_clock w)), Throws (DuplicateIdError (field d "id"))))
    as E.
  { destruct d as [ | | b | n | str | xs | ps]; try discriminate T.
    unfold create_try. run1.
    assert ((if validation (options s) then _validateData (VObj ps) else ret tt) (s, w)
            = ((s, w), Returns tt)) as V.
    { destruct (validation (options s)); [|reflexivity].
      unfold _validateData. cbn. unfold bind, this. cbn.
      rewrite Hval by reflexivity. reflexivity. }
    erewrite bind_run by exact V. run1. fold (field (VObj ps) "id").
    rewrite T. run.
    cbn [tick_clock clock clockReads toISOString].
    match goal with
    | |- context [new_item ?a ?b ?c ?e] => set (item := new_item a b c e)
    end.
    change (default VUndef (obj_get _ "id")) with (field item "id").
    assert (field item "id" = field (VObj ps) "id") as -> by apply new_item_id.
    rewrite (bind_run _ _ _ _ _ (getById_records _ _ _ Hrec)).
    destruct (find_id_some (data s) (field (VObj ps) "id") r Hin (eq_sym Hid))
      as (r' & -> & Hr').
    cbn [default from_option id].
    assert (truthy r' = true) as ->.
    { unfold records in Hrec. rewrite Forall_forall in Hrec.
      specialize (Hrec r' Hr'). destruct r'; try discriminate. reflexivity. }
    erewrite bind_throws by reflexivity. reflexivity. }
  unfold create at 1 2. rewrite outcome_of_rethrow, store_after_rethrow, E.
  cbn [fst snd]. repeat split.
  unfold outcome_of. rewrite !count_run. cbn [snd].
  unfold create. rewrite store_after_rethrow, E. reflexivity.
Qed.

(** An instance: [create] of the stored client once more. *)
Lemma create_duplicate_id_witness :
  outcome_of (create client_c1) client_store sample_world
    = Throws (DuplicateIdError (VStr "c1")) /\
  data (store_after (create client_c1) client_store sample_world)
    = data client_store /\
  outcome_of count (store_after (create client_c1) client_store sample_world)
    (world_after (create client_c1) client_store sample_world)
    = outcome_of count client_store sample_world.
Proof.
  apply (create_duplicate_id client_store sample_world client_c1 client_c1).
  - compute_done.
  - left.
  - reflexivity.
  - reflexivity.
  - intros _. vm_compute. reflexivity.
Defined.

(** Claim C6 fails as stated: validation comes before the duplicate check.
    In the client store, [create] of data that carry the id of the stored
    client but lack the required fields fails with the validation error,
    not with the duplicate-id error.  And an id that is not truthy is not
    kept: in a store whose record has the empty string as its id, [create]
    of data with that id succeeds under a generated id, and the store has
    two records. *)
Lemma create_duplicate_id_counterexample :
  (field (VObj [("id", VStr "c1")]) "id" = id_of client_c1 /\
   client_c1 ∈ data client_store /\
   outcome_of (create (VObj [("id", VStr "c1")])) client_store sample_world
     = Throws (ValidationError
                 "필수 필드가 누락되었습니다: companyName, contactPerson, email, phone")) /\
  (outcome_of (create (VObj [("id", VStr EmptyString)]))
     (store_of "notes" accept_all [VObj [("id", VStr EmptyString)]]) sample_world
     = Returns (VObj [("id", VStr "1700000000000_4fzyo82mv");
                      ("createdAt", VStr "1700000000001");
                      ("updatedAt", VStr "1700000000002")]) /\
   length (data (store_after (create (VObj [("id", VStr EmptyString)]))
                   (store_of "notes" accept_all [VObj [("id", VStr EmptyString)]])
                   sample_world)) = 2).
Proof.
  split.
  - split; [reflexivity|]. split; [left|]. vm_compute. reflexivity.
  - split; vm_compute; reflexivity.
Qed.

(** ** Update *)

Lemma updated_item_updatedAt current updates id now :
  field (updated_item current updates id now) "updatedAt" = VStr now.
Proof.
  unfold updated_item. rewrite field_obj, obj_get_set_eq. reflexivity.
Qed.


(** In a sequence with distinct ids every record is the first with its
    id. *)
Lemma unique_ids_first_with_id items i r :
  unique_ids items -> items !! i = Some r -> first_with_id items i r.
Proof.
  unfold unique_ids. intros Hnd Hi. split; [exact Hi|].
  intros j x Hj Hx E.
  assert (map id_of items !! j = Some (id_of x)) as Hj'
      by (rewrite list_lookup_fmap, Hx; reflexivity).
  assert (map id_of items !! i = Some (id_of r)) as Hi'
      by (rewrite list_lookup_fmap, Hi; reflexivity).
  rewrite E in Hj'. pose proof (NoDup_lookup _ _ _ _ Hnd Hj' Hi'). lia.
Qed.




(** ** Listeners *)

(** Claim C9.  On a store with one subscribed listener, a [create] that
    returns record [r] has called that listener once, with the action
    [create], the record [r] and the name of the store, by the time it
    returns: this call is all that the [create] added to the calls made so
    far.  The record [r] is the one appended to the store. *)
Theorem create_notifies_listener s w l d r :
  listeners s = [l] ->
  outcome_of (create d) s w = Returns r ->
  calls (world_after (create d) s w) =
    calls w ++ [{| call_listener := lid l; call_action := "create";
                   call_data := r; call_storageKey := storageKey s |}] /\
  data (store_after (create d) s w) = data s ++ [r].
Proof.
  intros Hl Hret.
  destruct (create_returns _ _ _ _ Hret) as (id & k & _ & _ & Hd & Hc).
  rewrite Hc, Hl. split; [reflexivity | exact Hd].
Qed.

(** An instance: a listener subscribed to an empty store, then one
    [create]. *)
Lemma create_notifies_listener_witness :
  calls (world_after (create (VObj [("name", VStr "x")]))
           (store_after (subscribe (quiet_listener 7))
              (empty_store "clients" accept_all) sample_world)
           sample_world)
  = [{| call_listener := 7; call_action := "create";
        call_data := VObj [("name", VStr "x");
                           ("id", VStr "1700000000000_4fzyo82mv");
                           ("createdAt", VStr "1700000000001");
                           ("updatedAt", VStr "1700000000002")];
        call_storageKey := "clients" |}] /\
  data (store_after (create (VObj [("name", VStr "x")]))
          (store_after (subscribe (quiet_listener 7))
             (empty_store "clients" accept_all) sample_world)
          sample_world)
  = [VObj [("name", VStr "x");
           ("id", VStr "1700000000000_4fzyo82mv");
           ("createdAt", VStr "1700000000001");
           ("updatedAt", VStr "1700000000002")]].
Proof.
  apply (create_notifies_listener
           (store_after (subscribe (quiet_listener 7))
              (empty_store "clients" accept_all) sample_world)
           sample_world (quiet_listener 7) (VObj [("name", VStr "x")])).
  - reflexivity.
  - vm_compute. reflexivity.
Defined.

(** ** Positions *)

Lemma getAll_run s w : getAll (s, w) = ((s, w), Returns (data s)).
Proof. reflexivity. Qed.

(** Claim C10.  After a successful [update], [getAll] returns a sequence
    of the same length with the same ids in the same order as before; the
    new record is at the index of the record it replaces, and every other
    index holds the record it held. *)
Theorem update_keeps_positions s w id updates r' :
  outcome_of (update id updates) s w = Returns r' ->
  exists before after i,
    outcome_of getAll s w = Returns before /\
    outcome_of getAll (store_after (update id updates) s w)
      (world_after (update id updates) s w) = Returns after /\
    map id_of after = map id_of before /\
    length after = length before /\
    i < length before /\
    after !! i = Some r' /\
    (forall j, j <> i -> after !! j = before !! j).
Proof.
  intros Hret.
  destruct (update_returns _ _ _ _ _ Hret) as (i & cur & _ & Hi & Hid & Hr' & Hd & _).
  exists (data s), (data (store_after (update id updates) s w)), i.
  unfold outcome_of. rewrite !getAll_run. cbn [snd].
  split; [reflexivity|]. split; [reflexivity|]. rewrite Hd.
  pose proof (lookup_lt_Some _ _ _ Hi) as Hlt.
  split; [|split; [|split; [|split]]].
  - apply (unique_ids_insert _ _ cur); [exact Hi|].
    rewrite Hid, Hr'. apply updated_item_id.
  - apply length_insert.
  - exact Hlt.
  - apply list_lookup_insert_eq, Hlt.
  - intros j Hj. apply list_lookup_insert_ne. congruence.
Qed.

(** An instance: an [update] of the telephone number of the stored
    client. *)
Lemma update_keeps_positions_witness :
  exists before after i,
    outcome_of getAll client_store sample_world = Returns before /\
    outcome_of getAll
      (store_after (update (VStr "c1") (VObj [("phone", VStr "02-555")]))
         client_store sample_world)
      (world_after (update (VStr "c1") (VObj [("phone", VStr "02-555")]))
         client_store sample_world) = Returns after /\
    map id_of after = map id_of before /\
    length after = length before /\
    i < length before /\
    after !! i
    = Some (VObj [("id", VStr "c1"); ("companyName", VStr "Acme");
                  ("contactPerson", VStr "Kim"); ("email", VStr "kim@acme.io");
                  ("phone", VStr "02-555"); ("createdAt", VStr "2020");
                  ("updatedAt", VStr "1700000000000")]) /\
    (forall j, j <> i -> after !! j = before !! j).
Proof.
  apply (update_keeps_positions client_store sample_world (VStr "c1")
           (VObj [("phone", VStr "02-555")])).
  vm_compute. reflexivity.
Defined.

(** ** JSON: texts are read back *)

#[local] Arguments String.append !_ _ / : simpl nomatch.

Lemma append_nil_r s : s +:+ EmptyString = s.
Proof. induction s as [|c s IH]; cbn; [|rewrite IH]; reflexivity. Qed.

Lemma append_assoc s1 s2 s3 : (s1 +:+ s2) +:+ s3 = s1 +:+ (s2 +:+ s3).
Proof. induction s1 as [|c s1 IH]; cbn; [|rewrite IH]; reflexivity. Qed.

Lemma length_append s1 s2 :
  String.length (s1 +:+ s2) = String.length s1 + String.length s2.
Proof. induction s1 as [|c s1 IH]; cbn; [|rewrite IH]; reflexivity. Qed.

Lemma prefix_append w rest : String.prefix w (w +:+ rest) = true.
Proof.
  induction w as [|c w IH]; cbn; [destruct rest; reflexivity|].
  destruct (ascii_dec c c); [exact IH | contradiction].
Qed.

Lemma substring_all n s : String.length s <= n -> substring 0 n s = s.
Proof.
  revert n. induction s as [|c s IH]; intros [|n]; cbn; try reflexivity; try lia.
  intros H. rewrite IH by lia. reflexivity.
Qed.

Lemma substring_append w rest n :
  String.length rest <= n -> substring (String.length w) n (w +:+ rest) = rest.
Proof.
  intros H. induction w as [|c w IH]; cbn; [apply substring_all, H | exact IH].
Qed.

Lemma expect_append w rest v : expect w (w +:+ rest) v = Parsed (v, rest).
Proof.
  unfold expect. rewrite prefix_append, substring_append; [reflexivity|].
  rewrite length_append. lia.
Qed.

(** *** Strings *)

Lemma parse_quote_chars s rest :
  parse_string_chars (quote_chars s +:+ String dquote rest) = Parsed (s, rest).
Proof.
  induction s as [|c s IH]; [reflexivity|].
  cbn [quote_chars]. rewrite append_assoc.
  unfold dquote in *. cbn in IH.
  destruct c as [[] [] [] [] [] [] [] []];
    match goal with
    | |- context [quote_char ?c] =>
        let q := eval vm_compute in (quote_char c) in
        change (quote_char c) with q
    end; cbn; rewrite IH; reflexivity.
Qed.

(** *** Numbers *)

Lemma parse_digits_uint d rest :
  ends_number rest ->
  parse_digits (NilEmpty.string_of_uint d +:+ rest) = (d, rest).
Proof.
  intros Hrest. induction d; cbn; try (rewrite IHd; reflexivity).
  destruct rest as [|c rest]; [reflexivity|]. cbn.
  destruct Hrest as [-> _]. reflexivity.
Qed.

Lemma pos_to_uint_head p :
  match Pos.to_uint p with
  | Decimal.Nil | Decimal.D0 _ => False
  | _ => True
  end.
Proof.
  pose proof (DecimalPos.Unsigned.to_of (Pos.to_uint p)) as H.
  rewrite DecimalPos.Unsigned.of_to in H. cbn in H.
  pose proof (DecimalPos.Unsigned.to_uint_nonzero p) as Hnz.
  destruct (Pos.to_uint p) as [|u|u|u|u|u|u|u|u|u|u] eqn:E; try exact I.
  - unfold Decimal.unorm in H. cbn in H. discriminate.
  - rewrite unorm_D0 in H.
    pose proof (nzhead_nonzero u) as Hn.
    unfold Decimal.unorm in H.
    destruct (Decimal.nzhead u) eqn:En; try discriminate H.
    + apply Hnz. exact H.
    + apply (Hn u0). reflexivity.
Qed.

Lemma string_of_uint_head d :
  d <> Decimal.Nil ->
  exists c r, NilEmpty.string_of_uint d = String c r /\ is_digit c = true.
Proof.
  destruct d; try congruence; intros _; do 2 eexists; split; reflexivity.
Qed.

Lemma parse_number_N negative n rest :
  (n <= MAX_SAFE_INTEGER)%N -> ends_number rest ->
  parse_number ((if negative : bool then "-" else EmptyString) +:+ string_of_N n +:+ rest) =
  Parsed (VNum (if negative then - Z.of_N n else Z.of_N n)%Z, rest).
Proof.
  intros Hmax Hrest. unfold parse_number, string_of_N.
  assert (strip_minus ((if negative then "-" else EmptyString) +:+
                       NilEmpty.string_of_uint (N.to_uint n) +:+ rest)
          = (negative, NilEmpty.string_of_uint (N.to_uint n) +:+ rest)) as ->.
  { destruct negative; cbn; [reflexivity|].
    destruct (string_of_uint_head (N.to_uint n)) as (c & r & E & Hc).
    - destruct n; [discriminate | apply DecimalPos.Unsigned.to_uint_nonnil].
    - rewrite E. cbn.
      unfold is_digit in Hc. apply andb_true_iff in Hc as [H1 H2].
      apply N.leb_le in H1.
      destruct (N.eqb_spec (N_of_ascii c) 45); [lia | reflexivity]. }
  rewrite (parse_digits_uint _ _ Hrest).
  assert (continues_number rest = false) as Hcont.
  { destruct rest; [reflexivity | apply Hrest]. }
  assert (N.of_uint (N.to_uint n) = n) as Hof by apply DecimalN.Unsigned.of_to.
  destruct n as [|p]; cbn [N.to_uint].
  - cbn. rewrite Hcont. reflexivity.
  - pose proof (pos_to_uint_head p) as Hhead. cbn [N.to_uint] in Hof.
    unfold number_of_digits.
    destruct (Pos.to_uint p) eqn:E; try contradiction;
      rewrite Hcont, Hof; apply N.leb_le in Hmax; rewrite Hmax; reflexivity.
Qed.

Lemma parse_number_Z n rest :
  (Z.abs_N n <=? MAX_SAFE_INTEGER)%N = true -> ends_number rest ->
  parse_number (string_of_Z n +:+ rest) = Parsed (VNum n, rest).
Proof.
  intros Hmax Hrest. apply N.leb_le in Hmax.
  destruct n as [|p|p].
  - apply (parse_number_N false 0 rest); [discriminate | exact Hrest].
  - apply (parse_number_N false (Npos p) rest); assumption.
  - apply (parse_number_N true (Npos p) rest); assumption.
Qed.

(** The first character of the text of a number is a minus sign or a
    digit. *)
Lemma string_of_Z_head n :
  exists c r, string_of_Z n = String c r /\
              ((N_of_ascii c =? 45)%N || is_digit c) = true.
Proof.
  destruct n as [|p|p]; cbn.
  - do 2 eexists. split; reflexivity.
  - destruct (string_of_uint_head (Pos.to_uint p)) as (c & r & E & Hc);
      [apply DecimalPos.Unsigned.to_uint_nonnil|].
    exists c, r. unfold string_of_N. cbn [N.to_uint]. rewrite E, Hc.
    split; [reflexivity | apply orb_true_r].
  - do 2 eexists. split; reflexivity.
Qed.

(** *** Values *)

Lemma JSON_stringify_defined v :
  v <> VUndef -> JSON_stringify v = Some (stringify_element v).
Proof.
  unfold stringify_element. destruct v as [ | |[]| | | | ]; try reflexivity.
  congruence.
Qed.

Lemma stringify_members_json ps :
  forallb (fun kv => json_value (snd kv)) ps = true ->
  stringify_members ps = map member_text ps.
Proof.
  induction ps as [|[k x] ps IH]; cbn [forallb stringify_members map snd];
    [reflexivity|].
  intros H. apply andb_true_iff in H as [Hx Hps].
  rewrite JSON_stringify_defined by (intros ->; discriminate).
  rewrite IH by exact Hps. reflexivity.
Qed.

Lemma stringify_element_head v :
  exists c r, stringify_element v = String c r /\ value_head c = true.
Proof.
  destruct v as [ | |[]|n|s|xs|ps]; try (do 2 eexists; split; reflexivity).
  destruct (string_of_Z_head n) as (c & r & E & Hc).
  exists c, r. split; [exact E|].
  unfold value_head, is_ws. unfold is_digit in Hc.
  destruct (N.eqb_spec (N_of_ascii c) 45) as [->|_]; [reflexivity|].
  cbn in Hc. apply andb_true_iff in Hc as [H1 H2].
  apply N.leb_le in H1. apply N.leb_le in H2.
  repeat match goal with
         | |- context [(N_of_ascii c =? ?k)%N] =>
             destruct (N.eqb_spec (N_of_ascii c) k); [lia|]
         end.
  reflexivity.
Qed.

Lemma skip_ws_head c r : is_ws c = false -> skip_ws (String c r) = String c r.
Proof. intros H. cbn. rewrite H. reflexivity. Qed.

Lemma value_head_inv c :
  value_head c = true ->
  is_ws c = false /\ (N_of_ascii c =? 93)%N = false /\ (N_of_ascii c =? 125)%N = false.
Proof.
  unfold value_head. rewrite !andb_true_iff, !negb_true_iff. tauto.
Qed.

(** What [parse_value] does on a text that starts with a number. *)
Lemma parse_value_number fuel c r :
  ((N_of_ascii c =? 45)%N || is_digit c) = true ->
  parse_value (S fuel) (String c r) = parse_number (String c r).
Proof.
  intros Hc. cbn [parse_value].
  assert (is_ws c = false /\
          (N_of_ascii c =? 110)%N = false /\ (N_of_ascii c =? 116)%N = false /\
          (N_of_ascii c =? 102)%N = false /\ (N_of_ascii c =? 34)%N = false /\
          (N_of_ascii c =? 91)%N = false /\ (N_of_ascii c =? 123)%N = false)
    as (Hws & H1 & H2 & H3 & H4 & H5 & H6).
  { unfold is_ws, is_digit in *.
    apply orb_true_iff in Hc as [Hc|Hc].
    - apply N.eqb_eq in Hc. rewrite Hc. repeat split; reflexivity.
    - apply andb_true_iff in Hc as [Ha Hb].
      apply N.leb_le in Ha. apply N.leb_le in Hb.
      repeat split;
        repeat match goal with
               | |- context [(N_of_ascii c =? ?k)%N] =>
                   destruct (N.eqb_spec (N_of_ascii c) k); [lia|]
               end; reflexivity. }
  rewrite (skip_ws_head _ _ Hws). cbn zeta.
  rewrite H1, H2, H3, H4, H5, H6. fold (is_digit c). rewrite Hc. reflexivity.
Qed.

Lemma ends_number_delimiter c r :
  (N_of_ascii c =? 44)%N || (N_of_ascii c =? 93)%N || (N_of_ascii c =? 125)%N = true ->
  ends_number (String c r).
Proof.
  intros H. cbn.
  destruct (N.eqb_spec (N_of_ascii c) 44) as [E|_];
    [|destruct (N.eqb_spec (N_of_ascii c) 93) as [E|_];
      [|destruct (N.eqb_spec (N_of_ascii c) 125) as [E|_]; [|discriminate]]];
    unfold digit_of; rewrite E; split; reflexivity.
Qed.

Lemma parse_elements_texts xs :
  Forall reads_back xs -> forallb json_value xs = true -> xs <> [] ->
  forall fuel rest,
    list_sum (map (fun x => S (vsize x)) xs) <= fuel ->
    parse_elements fuel
      (String.concat "," (map stringify_element xs) +:+ String "]" rest)
    = Parsed (xs, rest).
Proof.
  induction 1 as [|x xs Hx _ IH]; [congruence|].
  intros Hjson _ fuel rest Hfuel.
  cbn [forallb] in Hjson. apply andb_true_iff in Hjson as [Hjx Hjxs].
  cbn [map list_sum fold_right] in Hfuel.
  destruct fuel as [|fuel]; [lia|]. cbn [parse_elements].
  destruct xs as [|y ys]; cbn [map list_sum fold_right] in Hfuel.
  - cbn [map String.concat].
    rewrite (Hx Hjx fuel (String "]" rest)); [|lia|apply ends_number_delimiter; reflexivity].
    cbn. reflexivity.
  - assert (String.concat "," (map stringify_element (x :: y :: ys)) +:+ String "]" rest
            = stringify_element x +:+
              String "," (String.concat "," (map stringify_element (y :: ys))
                          +:+ String "]" rest)) as ->.
    { cbn [map String.concat]. rewrite !append_assoc. reflexivity. }
    rewrite (Hx Hjx fuel); [|lia|apply ends_number_delimiter; reflexivity].
    rewrite skip_ws_head by reflexivity.
    change ((N_of_ascii "," =? 44)%N) with true. cbv beta iota.
    rewrite IH; [reflexivity | exact Hjxs | discriminate |].
    cbn [map list_sum fold_right] in *. lia.
Qed.

Lemma quote_append k rest :
  quote k +:+ rest = String dquote (quote_chars k +:+ String dquote rest).
Proof. unfold quote. cbn. rewrite append_assoc. reflexivity. Qed.

Lemma member_text_append k x tail :
  member_text (k, x) +:+ tail =
  String dquote (quote_chars k +:+
                 String dquote (String ":" (stringify_element x +:+ tail))).
Proof.
  unfold member_text. cbn [fst snd]. rewrite append_assoc, quote_append.
  rewrite append_assoc. reflexivity.
Qed.

Lemma parse_members_texts ps :
  Forall (fun kv => reads_back (snd kv)) ps ->
  forallb (fun kv => json_value (snd kv)) ps = true -> ps <> [] ->
  forall fuel rest,
    list_sum (map (fun kv => S (vsize (snd kv))) ps) <= fuel ->
    parse_members fuel
      (String.concat "," (map member_text ps) +:+ String "}" rest)
    = Parsed (ps, rest).
Proof.
  induction 1 as [|[k x] ps Hx _ IH]; [congruence|].
  intros Hjson _ fuel rest Hfuel.
  cbn [forallb snd] in Hjson, Hx. apply andb_true_iff in Hjson as [Hjx Hjps].
  cbn [map list_sum fold_right snd] in Hfuel.
  destruct fuel as [|fuel]; [lia|]. cbn [parse_members].
  destruct ps as [|[l y] ps]; cbn [map list_sum fold_right snd] in Hfuel.
  - cbn [map String.concat]. rewrite member_text_append.
    rewrite skip_ws_head by reflexivity.
    change ((N_of_ascii dquote =? 34)%N) with true. cbv beta iota.
    rewrite parse_quote_chars.
    rewrite skip_ws_head by reflexivity.
    change ((N_of_ascii ":" =? 58)%N) with true. cbv beta iota.
    rewrite (Hx Hjx fuel (String "}" rest));
      [|lia|apply ends_number_delimiter; reflexivity].
    rewrite skip_ws_head by reflexivity. reflexivity.
  - assert (String.concat "," (map member_text ((k, x) :: (l, y) :: ps))
              +:+ String "}" rest
            = member_text (k, x) +:+
              String "," (String.concat "," (map member_text ((l, y) :: ps))
                          +:+ String "}" rest)) as ->.
    { cbn [map String.concat]. rewrite !append_assoc. reflexivity. }
    rewrite member_text_append.
    rewrite skip_ws_head by reflexivity.
    change ((N_of_ascii dquote =? 34)%N) with true. cbv beta iota.
    rewrite parse_quote_chars.
    rewrite skip_ws_head by reflexivity.
    change ((N_of_ascii ":" =? 58)%N) with true. cbv beta iota.
    rewrite (Hx Hjx fuel); [|lia|apply ends_number_delimiter; reflexivity].
    rewrite skip_ws_head by reflexivity.
    change ((N_of_ascii "," =? 44)%N) with true. cbv beta iota.
    rewrite IH; [reflexivity | exact Hjps | discriminate |].
    cbn [map list_sum fold_right snd] in *. lia.
Qed.

(** Every value that JSON represents is read back from its text. *)
Lemma parse_value_stringify v : reads_back v.
Proof.
  induction v as [ | | b | n | s | xs IH | ps IH] using value_ind;
    unfold reads_back; intros Hjson fuel rest Hfuel Hrest;
    (destruct fuel as [|fuel]; [cbn in Hfuel; lia|]).
  - discriminate.
  - change (stringify_element VNull) with "null". cbn [parse_value].
    change ("null" +:+ rest) with (String "n" ("ull" +:+ rest)).
    rewrite skip_ws_head by reflexivity.
    change ((N_of_ascii "n" =? 110)%N) with true. cbv beta iota zeta.
    apply expect_append.
  - destruct b.
    + change (stringify_element (VBool true)) with "true". cbn [parse_value].
      change ("true" +:+ rest) with (String "t" ("rue" +:+ rest)).
      rewrite skip_ws_head by reflexivity.
      change ((N_of_ascii "t" =? 110)%N) with false.
      change ((N_of_ascii "t" =? 116)%N) with true. cbv beta iota zeta.
      apply expect_append.
    + change (stringify_element (VBool false)) with "false". cbn [parse_value].
      change ("false" +:+ rest) with (String "f" ("alse" +:+ rest)).
      rewrite skip_ws_head by reflexivity.
      change ((N_of_ascii "f" =? 110)%N) with false.
      change ((N_of_ascii "f" =? 116)%N) with false.
      change ((N_of_ascii "f" =? 102)%N) with true. cbv beta iota zeta.
      apply expect_append.
  - change (stringify_element (VNum n)) with (string_of_Z n).
    destruct (string_of_Z_head n) as (c & r & E & Hc).
    pose proof (parse_number_Z n rest Hjson Hrest) as Hnum.
    rewrite E in *. change (String c r +:+ rest) with (String c (r +:+ rest)) in *.
    rewrite parse_value_number by exact Hc. exact Hnum.
  - change (stringify_element (VStr s)) with (quote s).
    rewrite quote_append. cbn [parse_value].
    rewrite skip_ws_head by reflexivity.
    change ((N_of_ascii dquote =? 110)%N) with false.
    change ((N_of_ascii dquote =? 116)%N) with false.
    change ((N_of_ascii dquote =? 102)%N) with false.
    change ((N_of_ascii dquote =? 34)%N) with true. cbv beta iota zeta.
    rewrite parse_quote_chars. reflexivity.
  - change (stringify_element (VArr xs))
      with ("[" +:+ String.concat "," (map stringify_element xs) +:+ "]").
    cbn [json_value] in Hjson. cbn [vsize] in Hfuel.
    rewrite !append_assoc.
    change ("[" +:+ String.concat "," (map stringify_element xs) +:+ "]" +:+ rest)
      with (String "[" (String.concat "," (map stringify_element xs)
                        +:+ String "]" rest)).
    cbn [parse_value]. rewrite skip_ws_head by reflexivity.
    change ((N_of_ascii "[" =? 110)%N) with false.
    change ((N_of_ascii "[" =? 116)%N) with false.
    change ((N_of_ascii "[" =? 102)%N) with false.
    change ((N_of_ascii "[" =? 34)%N) with false.
    change ((N_of_ascii "[" =? 91)%N) with true. cbv beta iota zeta.
    destruct xs as [|x xs]; [reflexivity|].
    pose proof (parse_elements_texts (x :: xs) IH Hjson) as Hel.
    specialize (Hel ltac:(discriminate) fuel rest ltac:(lia)).
    destruct (stringify_element_head x) as (c & r & E & Hc).
    apply value_head_inv in Hc as (Hws & H93 & _).
    assert (exists r', String.concat "," (map stringify_element (x :: xs))
                         +:+ String "]" rest = String c r') as [r' Er'].
    { cbn [map String.concat]. rewrite E. destruct (map stringify_element xs);
        eexists; reflexivity. }
    rewrite Er' in *. rewrite skip_ws_head by exact Hws. rewrite H93, Hel.
    reflexivity.
  - change (stringify_element (VObj ps))
      with ("{" +:+ String.concat "," (stringify_members ps) +:+ "}").
    cbn [json_value] in Hjson. apply andb_true_iff in Hjson as [Hkeys Hjson].
    cbn [vsize] in Hfuel.
    rewrite stringify_members_json by exact Hjson.
    rewrite !append_assoc.
    change ("{" +:+ String.concat "," (map member_text ps) +:+ "}" +:+ rest)
      with (String "{" (String.concat "," (map member_text ps)
                        +:+ String "}" rest)).
    cbn [parse_value]. rewrite skip_ws_head by reflexivity.
    change ((N_of_ascii "{" =? 110)%N) with false.
    change ((N_of_ascii "{" =? 116)%N) with false.
    change ((N_of_ascii "{" =? 102)%N) with false.
    change ((N_of_ascii "{" =? 34)%N) with false.
    change ((N_of_ascii "{" =? 91)%N) with false.
    change ((N_of_ascii "{" =? 123)%N) with true. cbv beta iota zeta.
    destruct ps as [|[k x] ps]; [reflexivity|].
    pose proof (parse_members_texts ((k, x) :: ps) IH Hjson) as Hel.
    specialize (Hel ltac:(discriminate) fuel rest ltac:(lia)).
    assert (exists r', String.concat "," (map member_text ((k, x) :: ps))
                         +:+ String "}" rest = String dquote r') as [r' Er'].
    { cbn [map String.concat]. destruct (map member_text ps);
        [|rewrite append_assoc]; rewrite member_text_append; eexists; reflexivity. }
    rewrite Er' in *. rewrite skip_ws_head by reflexivity.
    change ((N_of_ascii dquote =? 125)%N) with false. cbv beta iota.
    rewrite Hel. rewrite obj_assign_nil; [reflexivity|].
    apply distinct_keys_NoDup, Hkeys.
Qed.

(** *** The text of a value is long enough for the budget *)

Lemma concat_length_bound (ls : list string) :
  list_sum (map (fun t => 2 * String.length t + 2) ls)
  <= 2 * String.length (String.concat "," ls) + 2.
Proof.
  induction ls as [|t ls IH]; cbn [map list_sum fold_right]; [lia|].
  destruct ls as [|t' ls].
  - cbn. lia.
  - change (String.concat "," (t :: t' :: ls))
      with (t +:+ "," +:+ String.concat "," (t' :: ls)).
    rewrite !length_append. cbn [String.length].
    cbn [map list_sum fold_right] in IH |- *. lia.
Qed.

Lemma vsize_bound v :
  json_value v = true -> vsize v <= 2 * String.length (stringify_element v) + 1.
Proof.
  induction v as [ | | b | n | s | xs IH | ps IH] using value_ind;
    intros Hjson; try (cbn [vsize]; lia).
  - change (stringify_element (VArr xs))
      with ("[" +:+ String.concat "," (map stringify_element xs) +:+ "]").
    cbn [json_value] in Hjson. cbn [vsize].
    rewrite !length_append. cbn [String.length].
    pose proof (concat_length_bound (map stringify_element xs)) as Hc.
    assert (list_sum (map (fun x => S (vsize x)) xs)
            <= list_sum (map (fun t => 2 * String.length t + 2)
                           (map stringify_element xs))) as Hs.
    { clear Hc. induction IH as [|x xs Hx _ IHxs];
        cbn [map list_sum fold_right forallb] in *; [lia|].
      apply andb_true_iff in Hjson as [Hjx Hjxs].
      specialize (Hx Hjx). specialize (IHxs Hjxs). unfold list_sum in *. lia. }
    lia.
  - change (stringify_element (VObj ps))
      with ("{" +:+ String.concat "," (stringify_members ps) +:+ "}").
    cbn [json_value] in Hjson. apply andb_true_iff in Hjson as [_ Hjson].
    rewrite stringify_members_json by exact Hjson.
    cbn [vsize]. rewrite !length_append. cbn [String.length].
    pose proof (concat_length_bound (map member_text ps)) as Hc.
    assert (list_sum (map (fun kv => S (vsize (snd kv))) ps)
            <= list_sum (map (fun t => 2 * String.length t + 2)
                           (map member_text ps))) as Hs.
    { clear Hc. induction IH as [|[k x] ps Hx _ IHps];
        cbn [map list_sum fold_right forallb snd] in *; [lia|].
      apply andb_true_iff in Hjson as [Hjx Hjps].
      specialize (Hx Hjx). specialize (IHps Hjps).
      unfold member_text at 1. cbn [fst snd]. rewrite !length_append.
      unfold list_sum in *. lia. }
    lia.
Qed.

(** [JSON.parse(JSON.stringify(v))] is [v], for every value that JSON
    represents. *)
Lemma JSON_parse_stringify v :
  json_value v = true ->
  exists text, JSON_stringify v = Some text /\ JSON_parse text = Parsed v.
Proof.
  intros Hjson. exists (stringify_element v). split.
  - apply JSON_stringify_defined. intros ->. discriminate.
  - unfold JSON_parse.
    pose proof (parse_value_stringify v Hjson
                  (2 * String.length (stringify_element v) + 1) EmptyString
                  (vsize_bound v Hjson) I) as H.
    rewrite append_nil_r in H. rewrite H. reflexivity.
Qed.

Lemma json_records_value x : json_records x = true -> json_value x = true.
Proof.
  destruct x as [ | | | | |items| ]; try discriminate. cbn.
  induction items as [|item items IH]; cbn; [reflexivity|].
  rewrite !andb_true_iff. intros [[_ H] Hrest]. split; [exact H | apply IH, Hrest].
Qed.

(** *** The recursion budget does not matter once it is large enough *)

Lemma skip_ws_length s : String.length (skip_ws s) <= String.length s.
Proof.
  induction s as [|c s IH]; cbn; [lia|]. destruct (is_ws c); cbn; lia.
Qed.

Lemma substring_length n m s : String.length (substring n m s) <= String.length s - n.
Proof.
  revert n m. induction s as [|c s IH]; intros [|n] [|m]; cbn; try lia.
  - specialize (IH 0 m). lia.
  - apply IH.
  - apply IH.
Qed.

Lemma expect_shorter w s v v' rest :
  expect w s v = Parsed (v', rest) -> String.length rest <= String.length s.
Proof.
  unfold expect. destruct (String.prefix w s); [|discriminate].
  intros [= _ <-]. pose proof (substring_length (String.length w) (String.length s) s).
  lia.
Qed.

Lemma cons_parsed_inv c p t rest :
  cons_parsed c p = Parsed (t, rest) ->
  exists t', p = Parsed (t', rest).
Proof.
  destruct p as [[t' r']| |]; cbn; try discriminate.
  intros [= _ <-]. eexists. reflexivity.
Qed.

Lemma parse_string_chars_shorter s t rest :
  parse_string_chars s = Parsed (t, rest) -> String.length rest < String.length s.
Proof.
  assert (forall n s t rest,
             String.length s <= n ->
             parse_string_chars s = Parsed (t, rest) ->
             String.length rest < String.length s) as H;
    [|apply (H (String.length s)); lia].
  clear. induction n as [|n IH]; intros s t rest Hle.
  - destruct s; cbn in *; [discriminate | intros _; lia].
  - destruct s as [|c r]; [discriminate|]. cbn [parse_string_chars].
    cbv zeta.
    destruct (N_of_ascii c =? 34)%N.
    { intros [= _ <-]. cbn. lia. }
    destruct (N_of_ascii c =? 92)%N.
    2:{ destruct (N_of_ascii c <? 32)%N; [discriminate|].
        intros H. apply cons_parsed_inv in H as [t' H].
        apply IH in H; cbn in *; lia. }
    destruct r as [|e r']; [discriminate|].
    assert (forall ch, cons_parsed ch (parse_string_chars r') = Parsed (t, rest) ->
                       String.length rest < String.length (String c (String e r')))
      as Hsimple.
    { intros ch H. apply cons_parsed_inv in H as [t' H].
      apply IH in H; cbn in *; lia. }
    destruct (N_of_ascii e) as [|p]; [discriminate|].
    repeat (destruct p as [p|p|]; try discriminate; try (apply Hsimple)).
    destruct r' as [|h1 [|h2 [|h3 [|h4 r'']]]]; try discriminate.
    destruct (hex_value h1), (hex_value h2), (hex_value h3), (hex_value h4);
      try discriminate.
    destruct (_ <? 256)%N; [|discriminate].
    intros H. apply cons_parsed_inv in H as [t' H].
    apply IH in H; cbn in *; lia.
Qed.

Lemma parse_digits_length s :
  String.length (snd (parse_digits s)) <= String.length s /\
  (fst (parse_digits s) <> Decimal.Nil ->
   String.length (snd (parse_digits s)) < String.length s).
Proof.
  induction s as [|c s [IH1 IH2]]; cbn; [split; [lia | congruence]|].
  destruct (digit_of c) as [D|]; [|cbn; split; [lia | congruence]].
  destruct (parse_digits s) as [d rest]. cbn in *. split; [lia|]. intros _. lia.
Qed.

Lemma parse_number_shorter s v rest :
  parse_number s = Parsed (v, rest) -> String.length rest < String.length s.
Proof.
  unfold parse_number.
  assert (String.length (snd (strip_minus s)) <= String.length s) as Hs.
  { unfold strip_minus. destruct s as [|c r]; cbn; [lia|].
    destruct (N_of_ascii c =? 45)%N; cbn; lia. }
  destruct (strip_minus s) as [negative s1]. cbn [snd] in Hs.
  pose proof (parse_digits_length s1) as [_ Hd].
  destruct (parse_digits s1) as [d rest0]. cbn [fst snd] in Hd.
  unfold number_of_digits.
  assert (d <> Decimal.Nil ->
          (if continues_number rest0 then Unrepresentable
           else if (N.of_uint d <=? MAX_SAFE_INTEGER)%N
                then Parsed (VNum (if negative then - Z.of_N (N.of_uint d)
                                   else Z.of_N (N.of_uint d))%Z, rest0)
                else Unrepresentable) = Parsed (v, rest) ->
          String.length rest < String.length s) as Hok.
  { intros Hnil. specialize (Hd Hnil).
    destruct (continues_number rest0); [discriminate|].
    destruct (_ <=? _)%N; [|discriminate]. intros [= _ <-]. lia. }
  destruct d as [|d'|d'|d'|d'|d'|d'|d'|d'|d'|d']; try discriminate;
    try (apply Hok; discriminate).
  destruct d'; try discriminate; apply Hok; discriminate.
Qed.

Lemma skip_ws_cons s c r :
  skip_ws s = String c r -> S (String.length r) <= String.length s.
Proof.
  intros H. pose proof (skip_ws_length s) as Hl. rewrite H in Hl. exact Hl.
Qed.

(** A successful step of the parser consumes at least one character. *)
Lemma parse_shorter fuel :
  (forall s v rest,
      parse_value fuel s = Parsed (v, rest) -> String.length rest < String.length s) /\
  (forall s xs rest,
      parse_elements fuel s = Parsed (xs, rest) -> String.length rest < String.length s) /\
  (forall s ms rest,
      parse_members fuel s = Parsed (ms, rest) -> String.length rest < String.length s).
Proof.
  induction fuel as [|fuel (IHv & IHe & IHm)];
    [repeat split; intros; discriminate|].
  repeat split.
  - intros s v rest. cbn [parse_value].
    destruct (skip_ws s) as [|c r] eqn:Es; [discriminate|].
    apply skip_ws_cons in Es. cbv zeta.
    destruct (N_of_ascii c =? 110)%N.
    { intros H. apply expect_shorter in H. lia. }
    destruct (N_of_ascii c =? 116)%N.
    { intros H. apply expect_shorter in H. lia. }
    destruct (N_of_ascii c =? 102)%N.
    { intros H. apply expect_shorter in H. lia. }
    destruct (N_of_ascii c =? 34)%N.
    { destruct (parse_string_chars r) as [[t rest0]| |] eqn:Ep; try discriminate.
      apply parse_string_chars_shorter in Ep. intros [= _ <-]. lia. }
    destruct (N_of_ascii c =? 91)%N.
    { destruct (skip_ws r) as [|c' r'] eqn:Er; [discriminate|].
      apply skip_ws_cons in Er.
      destruct (N_of_ascii c' =? 93)%N; [intros [= _ <-]; lia|].
      destruct (parse_elements fuel r) as [[xs rest0]| |] eqn:Ep; try discriminate.
      apply IHe in Ep. intros [= _ <-]. lia. }
    destruct (N_of_ascii c =? 123)%N.
    { destruct (skip_ws r) as [|c' r'] eqn:Er; [discriminate|].
      apply skip_ws_cons in Er.
      destruct (N_of_ascii c' =? 125)%N; [intros [= _ <-]; lia|].
      destruct (parse_members fuel r) as [[ms rest0]| |] eqn:Ep; try discriminate.
      apply IHm in Ep. intros [= _ <-]. lia. }
    destruct (_ || _); [|discriminate].
    intros H. apply parse_number_shorter in H. cbn in H. lia.
  - intros s xs rest. cbn [parse_elements].
    destruct (parse_value fuel s) as [[x rest0]| |] eqn:Ev; try discriminate.
    apply IHv in Ev.
    destruct (skip_ws rest0) as [|c r] eqn:Er; [discriminate|].
    apply skip_ws_cons in Er.
    destruct (N_of_ascii c =? 44)%N.
    { destruct (parse_elements fuel r) as [[xs' rest']| |] eqn:Ep; try discriminate.
      apply IHe in Ep. intros [= _ <-]. lia. }
    destruct (N_of_ascii c =? 93)%N; [|discriminate].
    intros [= _ <-]. lia.
  - intros s ms rest. cbn [parse_members].
    destruct (skip_ws s) as [|q r] eqn:Es; [discriminate|].
    apply skip_ws_cons in Es.
    destruct (N_of_ascii q =? 34)%N; [|discriminate].
    destruct (parse_string_chars r) as [[k rest0]| |] eqn:Ek; try discriminate.
    apply parse_string_chars_shorter in Ek.
    destruct (skip_ws rest0) as [|colon r1] eqn:Ec; [discriminate|].
    apply skip_ws_cons in Ec.
    destruct (N_of_ascii colon =? 58)%N; [|discriminate].
    destruct (parse_value fuel r1) as [[x rest1]| |] eqn:Ev; try discriminate.
    apply IHv in Ev.
    destruct (skip_ws rest1) as [|c r2] eqn:Er; [discriminate|].
    apply skip_ws_cons in Er.
    destruct (N_of_ascii c =? 44)%N.
    { destruct (parse_members fuel r2) as [[ms' rest']| |] eqn:Ep; try discriminate.
      apply IHm in Ep. intros [= _ <-]. lia. }
    destruct (N_of_ascii c =? 125)%N; [|discriminate].
    intros [= _ <-]. lia.
Qed.

(** With a budget above twice the length of the text, a larger budget
    changes nothing. *)
Lemma parse_budget fuel :
  (forall s fuel', 2 * String.length s + 1 <= fuel -> fuel <= fuel' ->
                   parse_value fuel' s = parse_value fuel s) /\
  (forall s fuel', 2 * String.length s + 2 <= fuel -> fuel <= fuel' ->
                   parse_elements fuel' s = parse_elements fuel s) /\
  (forall s fuel', 2 * String.length s + 2 <= fuel -> fuel <= fuel' ->
                   parse_members fuel' s = parse_members fuel s).
Proof.
  induction fuel as [|fuel (IHv & IHe & IHm)];
    [repeat split; intros; lia|].
  repeat split.
  - intros s [|fuel'] Hs Hle; [lia|]. cbn [parse_value].
    destruct (skip_ws s) as [|c r] eqn:Es; [reflexivity|].
    apply skip_ws_cons in Es. cbv zeta.
    pose proof (skip_ws_length r) as Hr.
    rewrite (IHe r fuel') by lia. rewrite (IHm r fuel') by lia. reflexivity.
  - intros s [|fuel'] Hs Hle; [lia|]. cbn [parse_elements].
    rewrite (IHv s fuel') by lia.
    destruct (parse_value fuel s) as [[x rest0]| |] eqn:Ev; try reflexivity.
    apply (proj1 (parse_shorter fuel)) in Ev.
    destruct (skip_ws rest0) as [|c r] eqn:Er; [reflexivity|].
    apply skip_ws_cons in Er.
    rewrite (IHe r fuel') by lia. reflexivity.
  - intros s [|fuel'] Hs Hle; [lia|]. cbn [parse_members].
    destruct (skip_ws s) as [|q r] eqn:Es; [reflexivity|].
    apply skip_ws_cons in Es.
    destruct (N_of_ascii q =? 34)%N; [|reflexivity].
    destruct (parse_string_chars r) as [[k rest0]| |] eqn:Ek; try reflexivity.
    apply parse_string_chars_shorter in Ek.
    destruct (skip_ws rest0) as [|colon r1] eqn:Ec; [reflexivity|].
    apply skip_ws_cons in Ec.
    destruct (N_of_ascii colon =? 58)%N; [|reflexivity].
    rewrite (IHv r1 fuel') by lia.
    destruct (parse_value fuel r1) as [[x rest1]| |] eqn:Ev; try reflexivity.
    apply (proj1 (parse_shorter fuel)) in Ev.
    destruct (skip_ws rest1) as [|c r2] eqn:Er; [reflexivity|].
    apply skip_ws_cons in Er.
    rewrite (IHm r2 fuel') by lia. reflexivity.
Qed.

(** The budget that [JSON_parse] gives [parse_value] is enough: no larger
    one gives another result. *)
Lemma JSON_parse_budget text fuel :
  2 * String.length text + 1 <= fuel ->
  parse_value fuel text = parse_value (2 * String.length text + 1) text.
Proof.
  intros H. apply (proj1 (parse_budget (2 * String.length text + 1))); lia.
Qed.

(** ** The reversible encoding *)
















(** ** Concrete scenarios *)

(** [delete] of an id that no record has returns [false], calls no
    listener and leaves the records alone. *)
Example delete_absent_id :
  let s := store_after (subscribe (quiet_listener 7)) client_store sample_world in
  outcome_of (BaseStorage.delete (VStr "c2")) s sample_world = Returns false /\
  calls (world_after (BaseStorage.delete (VStr "c2")) s sample_world) = [] /\
  data (store_after (BaseStorage.delete (VStr "c2")) s sample_world) = [client_c1].
Proof. repeat split; vm_compute; reflexivity. Qed.

(** [delete] of the id of a stored record removes it, returns [true] and
    tells the listener which record went. *)
Example delete_stored_id :
  let s := store_after (subscribe (quiet_listener 7)) client_store sample_world in
  outcome_of (BaseStorage.delete (VStr "c1")) s sample_world = Returns true /\
  calls (world_after (BaseStorage.delete (VStr "c1")) s sample_world)
    = [{| call_listener := 7; call_action := "delete";
          call_data := client_c1; call_storageKey := "clients" |}] /\
  data (store_after (BaseStorage.delete (VStr "c1")) s sample_world) = [].
Proof. repeat split; vm_compute; reflexivity. Qed.

(** [bulkUpdate] replaces the records: it does not add to them. *)
Example bulkUpdate_replaces :
  map id_of
    (data (store_after (bulkUpdate (VArr [VObj [("id", VStr "x")];
                                          VObj [("id", VStr "y")]]))
             (store_of "notes" accept_all
                [VObj [("id", VStr "p")]; VObj [("id", VStr "q")];
                 VObj [("id", VStr "r")]])
             sample_world))
  = [VStr "x"; VStr "y"].
Proof. vm_compute. reflexivity. Qed.

(** What [_save] writes for a store with one record, under the key made of
    the prefix and the name of the store. *)
Example save_writes_json :
  localStorage
    (world_after _save (store_of "notes" accept_all [VObj [("id", VStr "p")]])
       sample_world) !! "ocm_v2_notes"
  = Some (String "[" (String "{" (quote "id" +:+ ":" +:+ quote "p" +:+ "}]"))).
Proof. vm_compute. reflexivity. Qed.

(** * Further properties *)

(** ** The effects of a method *)

Lemma world_eta w :
  w = {| clock := clock w; clockReads := clockReads w; toISOString := toISOString w;
         random36 := random36 w; randomReads := randomReads w;
         configPrefix := configPrefix w; configVersion := configVersion w;
         localStorage := localStorage w; setItemRefused := setItemRefused w;
         console := console w; calls := calls w |}.
Proof. destruct w; reflexivity. Qed.

Lemma mapM_listeners_exact action d ls s w :
  mapM (call_listener_safely action d) ls (s, w)
  = ((s, notified action d (storageKey s) ls w), Returns (map (fun _ => tt) ls)).
Proof.
  revert w. induction ls as [|l ls IH]; intros w; cbn [mapM map].
  - unfold notified, listener_errors, with_console, with_calls. cbn.
    rewrite !app_nil_r. rewrite <- world_eta. reflexivity.
  - unfold bind at 1. unfold call_listener_safely at 1.
    unfold bind, this, world, set_world, console_error. cbn [fst snd].
    unfold notified, listener_errors. cbn [omap list_omap map].
    destruct (lrun l action d (storageKey s)) as [e|] eqn:R; cbn [option_map];
      unfold bind, world, set_world, ret; cbn [fst snd];
      rewrite IH; unfold notified, listener_errors, with_console, with_calls;
      cbn; rewrite <- !app_assoc; reflexivity.
Qed.

Lemma _notifyListeners_exact action d s w :
  _notifyListeners action d (s, w)
  = ((s, notified action d (storageKey s) (listeners s) w), Returns tt).
Proof.
  unfold _notifyListeners, bind, this. cbn. rewrite mapM_listeners_exact. reflexivity.
Qed.

Lemma save_and_notify_exact {A} action d (r : A) s w :
  save_and_notify action d r (s, w) =
  if save_refused s w
  then ((s, save_failed s w), Throws PersistenceError)
  else ((s, notified action d (storageKey s) (listeners s) (saved s w)), Returns r).
Proof.
  unfold save_and_notify, bind. rewrite _save_run. fold (save_refused s w).
  destruct (save_refused s w); [reflexivity|].
  rewrite _notifyListeners_exact. reflexivity.
Qed.

Lemma same_platform_refl w : same_platform w w.
Proof. unfold same_platform. repeat split; reflexivity. Qed.

Lemma same_platform_tick_clock w : same_platform w (tick_clock w).
Proof. unfold same_platform. repeat split; reflexivity. Qed.

Ltac platform :=
  repeat match goal with
         | H : same_platform _ _ |- _ =>
             unfold same_platform in H; cbn in H;
             destruct H as (? & ? & ? & ? & ? & ? & ? & ?)
         end;
  unfold same_platform; cbn; repeat split; congruence.

Lemma save_key_platform s w w' :
  same_platform w w' -> save_key s w' = save_key s w.
Proof. unfold same_platform, save_key. intros (_ & _ & _ & -> & _). reflexivity. Qed.

(** [getById]: what it returns and what it writes. *)
Lemma getById_exact id s w :
  getById id (s, w) =
  match find_by_id (data s) id with
  | Returns found => ((s, w), Returns (js_or (default VUndef found) VNull))
  | Throws e =>
      ((s, with_console (console w ++ [(tagged s "ID 조회 오류:", e)]) w),
       Returns VNull)
  end.
Proof.
  unfold getById, bind, try_catch, this, this_data, lift. cbn.
  destruct (find_by_id (data s) id); reflexivity.
Qed.

Lemma getById_platform id s w :
  exists w' v, getById id (s, w) = ((s, w'), Returns v) /\ same_platform w w'.
Proof.
  rewrite getById_exact. destruct (find_by_id (data s) id);
    do 2 eexists; (split; [reflexivity|]); platform.
Qed.

(** A [catch] that logs and throws again. *)
Lemma rethrow_exact {A} (m : M A) (msg : string) s w :
  bind this (fun s0 =>
    try_catch m (fun e => bind (console_error (tagged s0 msg) e)
                            (fun _ => throw e))) (s, w)
  = match m (s, w) with
    | (st', Returns a) => (st', Returns a)
    | ((s', w'), Throws e) =>
        ((s', with_console (console w' ++ [(tagged s msg, e)]) w'), Throws e)
    end.
Proof.
  run. unfold try_catch. destruct (m (s, w)) as [[s' w'] [a|e]]; reflexivity.
Qed.

Lemma get_prop_throws v k e : get_prop v k = Throws e -> e = TypeError.
Proof. destruct v; cbn; congruence. Qed.

(** *** The mutating methods, up to their common end *)

Lemma create_try_split d s w :
  (exists e w1,
      create_try d (s, w) = ((s, w1), Throws e) /\ same_platform w w1 /\
      e <> PersistenceError /\
      (forall msg, e = ValidationError msg ->
                   validation (options s) = true /\
                   snd (_validateData d (s, w)) = Throws (ValidationError msg))) \/
  (exists id c u w1,
      same_platform w w1 /\
      create_try d (s, w)
      = save_and_notify "create" (new_item d id c u) (new_item d id c u)
          (with_data (data s ++ [new_item d id c u]) s, w1) /\
      stamps_of_create d w id c u /\
      (records (data s) -> id ∉ map id_of (data s))).
Proof.
  unfold create_try. run.
  destruct (validation_run d s w) as [V|[msg V]].
  2:{ left. exists (ValidationError msg), w. erewrite bind_throws by exact V.
      split; [reflexivity|]. split; [platform|]. split; [discriminate|].
      intros msg' [= <-]. destruct (validation (options s)); [|discriminate V].
      split; [reflexivity|]. rewrite V. reflexivity. }
  erewrite bind_run by exact V.
  destruct (get_prop d "id") as [given|e] eqn:G.
  2:{ left. exists e, w. erewrite bind_throws by reflexivity.
      split; [reflexivity|]. split; [platform|].
      apply get_prop_throws in G. subst e. split; discriminate. }
  run1. apply get_prop_field in G.
  assert (forall id w1 k,
    same_platform w w1 -> clockReads w1 = k ->
    (if truthy (field d "id")
     then id = field d "id" /\ k = clockReads w
     else id = VStr (generated_id w) /\ k = S (clockReads w)) ->
    let R :=
      bind new_Date_toISOString (fun createdAt =>
        bind new_Date_toISOString (fun updatedAt =>
          let newItem := new_item d id createdAt updatedAt in
          bind (lift (get_prop newItem "id")) (fun newId =>
          bind (getById newId) (fun existing =>
          bind (if truthy existing then throw (DuplicateIdError newId) else ret tt)
          (fun _ => bind this_data (fun items =>
          bind (set_this_data (items ++ [newItem])) (fun _ =>
          bind _save (fun _ => bind (_notifyListeners "create" newItem)
          (fun _ => ret newItem))))))))) (s, w1) in
    (exists e w1', R = ((s, w1'), Throws e) /\ same_platform w w1' /\
                   e <> PersistenceError /\
                   (forall msg, e = ValidationError msg ->
                                validation (options s) = true /\
                                snd (_validateData d (s, w))
                                = Throws (ValidationError msg))) \/
    (exists id c u w1',
      same_platform w w1' /\
      R = save_and_notify "create" (new_item d id c u) (new_item d id c u)
            (with_data (data s ++ [new_item d id c u]) s, w1') /\
      stamps_of_create d w id c u /\
      (records (data s) -> id ∉ map id_of (data s)))) as Hrest.
  { intros id w1 k Hp Hk Hid R. subst R. run.
    match goal with
    | |- context [new_item d id ?c ?u] => set (item := new_item d id c u)
    end.
    change (default VUndef (obj_get _ "id")) with (field item "id").
    assert (field item "id" = id) as -> by apply new_item_id.
    destruct (getById_platform id s (tick_clock (tick_clock w1)))
      as (w3 & existing & E & Hp3).
    erewrite bind_run by exact E.
    destruct (truthy existing) eqn:T.
    - left. exists (DuplicateIdError id), w3. erewrite bind_throws by reflexivity.
      split; [reflexivity|]. split; [clear E; platform|].
      split; discriminate.
    - right. run. do 3 eexists. exists w3. split; [|split; [reflexivity|split]].
      + clear E. platform.
      + exists k. cbn [tick_clock clock clockReads toISOString].
        destruct Hp as (_ & _ & _ & _ & _ & -> & -> & _). rewrite Hk.
        split; [reflexivity|]. split; [reflexivity | exact Hid].
      + intros Hrec. rewrite (getById_records _ _ _ Hrec) in E.
        injection E as _ <-.
        destruct (List.find _ (data s)) as [r|] eqn:F.
        * apply find_some in F as [Hin _].
          unfold records in Hrec. rewrite List.Forall_forall in Hrec.
          specialize (Hrec r Hin). destruct r; discriminate.
        * apply find_id_none, F. }
  subst given.
  destruct (truthy (field d "id")) eqn:T.
  - run1. apply (Hrest _ w (clockReads w)); [platform | reflexivity|].
    split; reflexivity.
  - run1.
    apply (Hrest _ (tick_random (tick_clock w)) (S (clockReads w)));
      [platform | reflexivity|].
    split; reflexivity.
Qed.

Lemma findIndex_by_id_throws items id e :
  findIndex_by_id items id = Throws e -> e = TypeError.
Proof.
  induction items as [|x xs IH]; cbn; [discriminate|].
  destruct (get_prop x "id") as [v|e'] eqn:G.
  - destruct (strict_equals v id); [discriminate|].
    destruct (findIndex_by_id xs id) as [[n|]|e'']; try discriminate.
    intros [= ->]. apply IH. reflexivity.
  - intros [= ->]. apply get_prop_throws in G. exact G.
Qed.

Lemma update_try_split id u s w :
  (exists e w1,
      update_try id u (s, w) = ((s, w1), Throws e) /\ same_platform w w1 /\
      e <> PersistenceError /\
      (findIndex_by_id (data s) id = Returns None <-> e = NotFoundError id)) \/
  (exists i current now,
      findIndex_by_id (data s) id = Returns (Some i) /\
      data s !! i = Some current /\ id_of current = id /\
      update_try id u (s, w)
      = save_and_notify "update" (updated_item current u id now)
          (updated_item current u id now)
          (with_data (<[i := updated_item current u id now]> (data s)) s,
           tick_clock w)).
Proof.
  unfold update_try. run.
  destruct (findIndex_by_id (data s) id) as [[i|]|e] eqn:F.
  - destruct (findIndex_by_id_some _ _ _ F) as (current & Hi & Hid).
    run. rewrite Hi. change (default VUndef (Some current)) with current.
    match goal with
    | |- context [updated_item current u ?i ?n] => set (item := updated_item current u i n)
    end.
    destruct (validation_run item s (tick_clock w)) as [V|[msg V]].
    + right. erewrite bind_run by exact V. run.
      exists i, current. eexists. repeat (split; [first [reflexivity | assumption]|]).
      reflexivity.
    + left. exists (ValidationError msg), (tick_clock w).
      erewrite bind_throws by exact V.
      split; [reflexivity|]. split; [platform|].
      split; [discriminate | split; discriminate].
  - left. exists (NotFoundError id), w. run1.
    split; [reflexivity|]. split; [platform|].
    split; [discriminate | split; reflexivity].
  - left. exists e, w. erewrite bind_throws by reflexivity.
    split; [reflexivity|]. split; [platform|].
    apply findIndex_by_id_throws in F. subst e.
    split; [discriminate | split; discriminate].
Qed.

Lemma delete_split id s w :
  (exists w1,
      BaseStorage.delete id (s, w) = ((s, w1), Returns false) /\ same_platform w w1 /\
      forall i, findIndex_by_id (data s) id <> Returns (Some i)) \/
  (exists i current,
      findIndex_by_id (data s) id = Returns (Some i) /\
      data s !! i = Some current /\ id_of current = id /\
      let s' := with_data (base.delete i (data s)) s in
      BaseStorage.delete id (s, w) =
      if save_refused s' w
      then ((s', refusal_logged "삭제 오류:" s' w), Returns false)
      else ((s', notified "delete" current (storageKey s) (listeners s) (saved s' w)),
            Returns true)).
Proof.
  unfold BaseStorage.delete. run. unfold try_catch. run.
  destruct (findIndex_by_id (data s) id) as [[i|]|e] eqn:F.
  - right. destruct (findIndex_by_id_some _ _ _ F) as (current & Hi & Hid).
    exists i, current. repeat (split; [first [reflexivity | assumption]|]).
    run. rewrite Hi. change (default VUndef (Some current)) with current.
    change (bind _save (fun _ => bind (_notifyListeners "delete" current)
                                   (fun _ => ret true)))
      with (save_and_notify "delete" current true).
    rewrite save_and_notify_exact.
    destruct (save_refused _ w); reflexivity.
  - left. run1. cbn. exists w. split; [reflexivity|]. split; [platform | discriminate].
  - left. erewrite bind_throws by reflexivity. cbn. eexists.
    split; [reflexivity|]. split; [platform | discriminate].
Qed.

Lemma clear_exact s w :
  clear (s, w) =
  if save_refused (with_data [] s) w
  then ((with_data [] s, refusal_logged "초기화 오류:" (with_data [] s) w),
        Throws PersistenceError)
  else ((with_data [] s,
         notified "clear" (VArr []) (storageKey s) (listeners s)
           (saved (with_data [] s) w)), Returns tt).
Proof.
  unfold clear. run. unfold try_catch. run.
  unfold bind at 1. rewrite _save_run.
  fold (save_refused (with_data [] s) w).
  destruct (save_refused _ w); [reflexivity|].
  rewrite _notifyListeners_exact. reflexivity.
Qed.

Lemma mapM_bulkUpdate_item_split xs s w :
  (exists w1 msg,
      mapM bulkUpdate_item xs (s, w) = ((s, w1), Throws (ValidationError msg)) /\
      same_platform w w1) \/
  (exists w1 ys,
      mapM bulkUpdate_item xs (s, w) = ((s, w1), Returns ys) /\
      Forall2 (fun x y => exists now, y = restamped_item x now) xs ys /\
      same_platform w w1).
Proof.
  revert w. induction xs as [|x xs IH]; intros w; cbn [mapM].
  - right. exists w, []. split; [reflexivity|]. split; [constructor | platform].
  - destruct (bulkUpdate_item_run x s w) as [[msg E]|E].
    + left. exists w, msg. erewrite bind_throws by exact E.
      split; [reflexivity | platform].
    + erewrite bind_run by exact E.
      destruct (IH (tick_clock w)) as [(w' & msg & E' & Hc)|(w' & ys & E' & HF & Hc)].
      * left. exists w', msg. erewrite bind_throws by exact E'.
        split; [reflexivity | clear E E'; platform].
      * right. exists w'. eexists. erewrite bind_run by exact E'.
        split; [reflexivity|]. split; [|clear E E'; platform].
        constructor; [eexists; reflexivity | exact HF].
Qed.

Lemma bulkUpdate_split items s w :
  (exists w1,
      bulkUpdate items (s, w) = ((s, w1), Returns false) /\ same_platform w w1) \/
  (exists xs ys w1,
      items = VArr xs /\
      Forall2 (fun x y => exists now, y = restamped_item x now) xs ys /\
      same_platform w w1 /\
      let s' := with_data ys s in
      bulkUpdate items (s, w) =
      if save_refused s' w1
      then ((s', refusal_logged "일괄 업데이트 오류:" s' w1), Returns false)
      else ((s', notified "bulkUpdate" (VArr ys) (storageKey s) (listeners s)
                   (saved s' w1)), Returns true)).
Proof.
  unfold bulkUpdate. run. unfold try_catch, bulkUpdate_try.
  destruct items as [ | | b | n | str | xs | ps];
    try (left; eexists; split; [reflexivity | platform]).
  destruct (mapM_bulkUpdate_item_split xs s w)
    as [(w' & msg & E & Hc)|(w' & ys & E & HF & Hc)].
  - left. erewrite bind_throws by exact E. eexists.
    split; [reflexivity | clear E; platform].
  - right. exists xs, ys, w'. split; [reflexivity|]. split; [exact HF|].
    split; [exact Hc|]. erewrite bind_run by exact E. run.
    change (bind _save (fun _ => bind (_notifyListeners "bulkUpdate" (VArr ys))
                                   (fun _ => ret true)))
      with (save_and_notify "bulkUpdate" (VArr ys) true).
    rewrite save_and_notify_exact.
    destruct (save_refused _ w'); reflexivity.
Qed.

Lemma map_id_throws items e : map_id items = Throws e -> e = TypeError.
Proof.
  induction items as [|x xs IH]; cbn; [discriminate|].
  destruct (get_prop x "id") eqn:G.
  - destruct (map_id xs); [discriminate|]. intros [= ->]. apply IH. reflexivity.
  - intros [= ->]. apply get_prop_throws in G. exact G.
Qed.

Lemma filter_new_throws ids items e : filter_new ids items = Throws e -> e = TypeError.
Proof.
  induction items as [|x xs IH]; cbn; [discriminate|].
  destruct (get_prop x "id") eqn:G.
  - destruct (filter_new ids xs); [discriminate|]. intros [= ->]. apply IH.
    reflexivity.
  - intros [= ->]. apply get_prop_throws in G. exact G.
Qed.

Lemma import_try_split snap merge s w :
  (exists e, import_try snap merge (s, w) = ((s, w), Throws e) /\
             e <> PersistenceError /\
             (e = ImportFormatError <->
              truthy snap = false \/ isArray (field snap "data") = false) /\
             (e <> ImportFormatError ->
              merge = true /\
              (map_id (data s) = Throws e \/
               exists ids, map_id (data s) = Returns ids /\
                           filter_new ids (elements (field snap "data")) = Throws e))) \/
  (exists incoming items',
      truthy snap = true /\ field snap "data" = VArr incoming /\
      (if merge
       then exists ids added,
           map_id (data s) = Returns ids /\
           filter_new ids incoming = Returns added /\ items' = data s ++ added
       else items' = incoming) /\
      import_try snap merge (s, w)
      = save_and_notify "import" (VArr items') tt (with_data items' s, w)).
Proof.
  assert (forall items' w1,
    (_save ;; d ← this_data; _notifyListeners "import" (VArr d))%js
      (with_data items' s, w1)
    = save_and_notify "import" (VArr items') tt (with_data items' s, w1)) as Htail.
  { intros items' w1. rewrite save_and_notify_exact.
    unfold bind at 1. rewrite _save_run.
    fold (save_refused (with_data items' s) w1).
    destruct (save_refused _ w1); [reflexivity|]. run.
    rewrite _notifyListeners_exact. reflexivity. }
  unfold import_try.
  destruct (truthy snap) eqn:T; cbn [negb].
  2:{ left. exists ImportFormatError. erewrite bind_throws by reflexivity.
      split; [reflexivity|]. split; [discriminate|].
      split; [split; [left; reflexivity | reflexivity] | congruence]. }
  rewrite (truthy_get_prop _ "data" T).
  destruct (field snap "data") as [ | | b | n | str | incoming | ps] eqn:D;
    try (left; exists ImportFormatError; erewrite bind_throws by reflexivity;
         split; [reflexivity|]; split; [discriminate|];
         split; [split; [right; reflexivity | reflexivity] | congruence]).
  run1. cbn [elements].
  destruct merge.
  - run. destruct (map_id (data s)) as [ids|e] eqn:Emap.
    + run. cbn [elements]. destruct (filter_new ids incoming) as [added|e] eqn:Efil.
      * right. run. exists incoming, (data s ++ added).
        split; [reflexivity|]. split; [reflexivity|].
        split; [exists ids, added; repeat split; assumption|].
        apply Htail.
      * left. exists e. erewrite bind_throws by reflexivity.
        pose proof (filter_new_throws _ _ _ Efil) as ->.
        split; [reflexivity|]. split; [discriminate|].
        split; [split; [discriminate | intros [H|H]; discriminate H]|].
        intros _. split; [reflexivity|]. right. exists ids.
        split; [reflexivity | exact Efil].
    + left. exists e. erewrite bind_throws by reflexivity.
      pose proof (map_id_throws _ _ Emap) as ->.
      split; [reflexivity|]. split; [discriminate|].
      split; [split; [discriminate | intros [H|H]; discriminate H]|].
      intros _. split; [reflexivity|]. left. reflexivity.
  - right. run. cbn [elements]. exists incoming, incoming.
    split; [reflexivity|]. split; [reflexivity|]. split; [reflexivity|].
    apply Htail.
Qed.

(** *** The mutating methods, case by case *)

Lemma create_cases d s w :
  (exists e w1,
      create d (s, w) = ((s, w1), Throws e) /\ same_platform w w1 /\
      e <> PersistenceError /\
      (forall msg, e = ValidationError msg ->
                   validation (options s) = true /\
                   snd (_validateData d (s, w)) = Throws (ValidationError msg))) \/
  (exists id c u w1,
      let item := new_item d id c u in
      let s' := with_data (data s ++ [item]) s in
      same_platform w w1 /\
      stamps_of_create d w id c u /\
      (records (data s) -> id ∉ map id_of (data s)) /\
      create d (s, w) =
      if save_refused s' w1
      then ((s', refusal_logged "생성 오류:" s' w1), Throws PersistenceError)
      else ((s', notified "create" item (storageKey s) (listeners s) (saved s' w1)),
            Returns item)).
Proof.
  unfold create. rewrite rethrow_exact.
  destruct (create_try_split d s w)
    as [(e & w1 & E & Hp & He & Hv)|(id & c & u & w1 & Hp & E & Hid & Hnew)];
    rewrite E.
  - left. do 2 eexists. split; [reflexivity|]. split; [platform|].
    split; [exact He | exact Hv].
  - right. exists id, c, u, w1. cbn zeta.
    split; [exact Hp|]. split; [exact Hid|]. split; [exact Hnew|].
    rewrite save_and_notify_exact. destruct (save_refused _ w1); reflexivity.
Qed.

Lemma update_cases id u s w :
  (exists e w1,
      update id u (s, w) = ((s, w1), Throws e) /\ same_platform w w1 /\
      e <> PersistenceError /\
      (findIndex_by_id (data s) id = Returns None <-> e = NotFoundError id)) \/
  (exists i current now,
      let item := updated_item current u id now in
      let s' := with_data (<[i := item]> (data s)) s in
      findIndex_by_id (data s) id = Returns (Some i) /\
      data s !! i = Some current /\ id_of current = id /\
      update id u (s, w) =
      if save_refused s' (tick_clock w)
      then ((s', refusal_logged "수정 오류:" s' (tick_clock w)), Throws PersistenceError)
      else ((s', notified "update" item (storageKey s) (listeners s)
                   (saved s' (tick_clock w))), Returns item)).
Proof.
  unfold update. rewrite rethrow_exact.
  destruct (update_try_split id u s w)
    as [(e & w1 & E & Hp & He & Hn)|(i & cur & now & F & Hi & Hid & E)]; rewrite E.
  - left. do 2 eexists. split; [reflexivity|]. split; [platform|].
    split; [exact He | exact Hn].
  - right. exists i, cur, now. cbn zeta.
    split; [exact F|]. split; [exact Hi|]. split; [exact Hid|].
    rewrite save_and_notify_exact. destruct (save_refused _ _); reflexivity.
Qed.

Lemma import_cases snap merge s w :
  (exists e w1,
      import snap merge (s, w) = ((s, w1), Throws e) /\ same_platform w w1 /\
      e <> PersistenceError /\
      (e = ImportFormatError <->
       truthy snap = false \/ isArray (field snap "data") = false) /\
      (e <> ImportFormatError ->
       merge = true /\
       (map_id (data s) = Throws e \/
        exists ids, map_id (data s) = Returns ids /\
                    filter_new ids (elements (field snap "data")) = Throws e))) \/
  (exists incoming items',
      let s' := with_data items' s in
      truthy snap = true /\ field snap "data" = VArr incoming /\
      (if merge
       then exists ids added,
           map_id (data s) = Returns ids /\
           filter_new ids incoming = Returns added /\ items' = data s ++ added
       else items' = incoming) /\
      import snap merge (s, w) =
      if save_refused s' w
      then ((s', refusal_logged "가져오기 오류:" s' w), Throws PersistenceError)
      else ((s', notified "import" (VArr items') (storageKey s) (listeners s)
                   (saved s' w)), Returns tt)).
Proof.
  unfold import. rewrite rethrow_exact.
  destruct (import_try_split snap merge s w)
    as [(e & E & He & Hf & Hg)|(incoming & items' & T & D & Hm & E)]; rewrite E.
  - left. do 2 eexists. split; [reflexivity|]. split; [platform|].
    split; [exact He|]. split; [exact Hf | exact Hg].
  - right. exists incoming, items'. cbn zeta.
    split; [exact T|]. split; [exact D|]. split; [exact Hm|].
    rewrite save_and_notify_exact. destruct (save_refused _ _); reflexivity.
Qed.

(** *** What the store makes is a record *)

Lemma obj_set_keys ps k v :
  map fst (obj_set ps k v)
  = if existsb (String.eqb k) (map fst ps) then map fst ps else map fst ps ++ [k].
Proof.
  induction ps as [|[k' v'] ps IH]; cbn; [reflexivity|].
  rewrite (String.eqb_sym k k').
  destruct (String.eqb k' k) eqn:E; cbn.
  - apply String.eqb_eq in E. subst k'. reflexivity.
  - rewrite IH. destruct (existsb _ _); reflexivity.
Qed.

Lemma obj_set_distinct ps k v :
  distinct_keys ps = true -> distinct_keys (obj_set ps k v) = true.
Proof.
  rewrite !distinct_keys_NoDup, obj_set_keys. intros Hnd.
  destruct (existsb (String.eqb k) (map fst ps)) eqn:E; [exact Hnd|].
  apply NoDup_app. split; [exact Hnd|]. split; [|apply NoDup_singleton].
  intros x Hx Hin. apply list_elem_of_singleton in Hin. subst x.
  apply not_true_iff_false in E. apply E. apply existsb_exists.
  exists k. split; [apply list_elem_of_In, Hx | apply String.eqb_refl].
Qed.

Lemma obj_assign_distinct ps src :
  distinct_keys ps = true -> distinct_keys (obj_assign ps src) = true.
Proof.
  unfold obj_assign. revert ps. induction src as [|[k v] src IH]; intros ps H; cbn;
    [exact H|].
  apply IH, obj_set_distinct, H.
Qed.

Lemma spread_distinct ps v :
  distinct_keys ps = true -> distinct_keys (spread ps v) = true.
Proof. apply obj_assign_distinct. Qed.

Lemma new_item_record d id c u : is_record (new_item d id c u) = true.
Proof.
  unfold new_item. cbn [is_record].
  repeat apply obj_set_distinct. apply spread_distinct. reflexivity.
Qed.

Lemma updated_item_record cur u id now : is_record (updated_item cur u id now) = true.
Proof.
  unfold updated_item. cbn [is_record].
  repeat apply obj_set_distinct. repeat apply spread_distinct. reflexivity.
Qed.

Lemma restamped_item_record x now : is_record (restamped_item x now) = true.
Proof.
  unfold restamped_item. cbn [is_record].
  apply obj_set_distinct, spread_distinct. reflexivity.
Qed.

Lemma records_app xs ys : records xs -> records ys -> records (xs ++ ys).
Proof. unfold records. intros. apply Forall_app. split; assumption. Qed.

Lemma find_by_id_app_new items r id :
  List.find (fun item => strict_equals (id_of item) id) items = None ->
  List.find (fun item => strict_equals (id_of item) id) (items ++ [r])
  = if strict_equals (id_of r) id then Some r else None.
Proof.
  induction items as [|x xs IH]; cbn; [reflexivity|].
  destruct (strict_equals (id_of x) id); [discriminate | exact IH].
Qed.

Lemma find_id_absent items id :
  id ∉ map id_of items ->
  List.find (fun item => strict_equals (id_of item) id) items = None.
Proof.
  induction items as [|x xs IH]; cbn; [reflexivity|].
  intros H. apply not_elem_of_cons in H as [Hne H].
  assert (strict_equals (id_of x) id = false) as ->
      by (apply strict_equals_neq; congruence).
  apply IH, H.
Qed.

Lemma find_app_other items r id :
  id_of r <> id ->
  List.find (fun item => strict_equals (id_of item) id) (items ++ [r])
  = List.find (fun item => strict_equals (id_of item) id) items.
Proof.
  intros Hne. induction items as [|x xs IH]; cbn.
  - apply strict_equals_neq in Hne. rewrite Hne. reflexivity.
  - destruct (strict_equals (id_of x) id); [reflexivity | exact IH].
Qed.

Lemma some_by_id_records items id :
  records items ->
  some_by_id items id = Returns (existsb (fun item => strict_equals (id_of item) id) items).
Proof.
  induction 1 as [|item items Hrec _ IH]; cbn; [reflexivity|].
  rewrite (get_prop_record _ _ Hrec). fold (id_of item).
  destruct (strict_equals (id_of item) id); [reflexivity | exact IH].
Qed.

Lemma exists_records id s w :
  records (data s) ->
  exists_ id (s, w)
  = ((s, w), Returns (existsb (fun item => strict_equals (id_of item) id) (data s))).
Proof.
  intros Hrec. unfold exists_, bind, this_data, lift. cbn.
  rewrite (some_by_id_records _ _ Hrec). reflexivity.
Qed.

Lemma existsb_id_elem items id :
  (existsb (fun item => strict_equals (id_of item) id) items = true)
  <-> (id ∈ map id_of items).
Proof.
  rewrite existsb_exists. split.
  - intros (x & Hin & E). apply strict_equals_eq in E. subst id.
    apply list_elem_of_fmap. exists x. split; [reflexivity | apply list_elem_of_In, Hin].
  - intros Hin. apply list_elem_of_fmap in Hin as (x & -> & Hin).
    exists x. split; [apply list_elem_of_In, Hin | apply strict_equals_refl].
Qed.

(** Property X1. In a store of records, a [create] that returns the record
    [r] has appended [r] to the records under an id that no record had; from
    then on [getById] of that id returns [r], [exists] of it returns [true],
    [count] is one more than it was, and [getById] of any other id returns
    what it returned before. *)
Theorem create_then_getById s w d r :
  records (data s) ->
  outcome_of (create d) s w = Returns r ->
  let s' := store_after (create d) s w in
  let w' := world_after (create d) s w in
  data s' = data s ++ [r] /\
  (id_of r ∉ map id_of (data s)) /\
  outcome_of (getById (id_of r)) s' w' = Returns r /\
  outcome_of (exists_ (id_of r)) s' w' = Returns true /\
  outcome_of count s' w' = Returns (S (length (data s))) /\
  (forall id, id <> id_of r ->
     outcome_of (getById id) s' w' = outcome_of (getById id) s w).
Proof.
  intros Hrec. unfold outcome_of, store_after, world_after. cbn zeta.
  destruct (create_cases d s w)
    as [(e & w1 & E & _)|(id & c & u & w1 & _ & _ & Hnew & E)];
    rewrite E; cbn [fst snd]; [discriminate|].
  cbn zeta in E. destruct (save_refused _ w1); cbn [fst snd]; [discriminate|].
  intros [= <-]. cbn [data with_data].
  set (item := new_item d id c u).
  assert (id_of item = id) as Hid by apply new_item_id.
  assert (records (data s ++ [item])) as Hrec'.
  { apply records_app; [exact Hrec|]. constructor; [apply new_item_record|constructor]. }
  specialize (Hnew Hrec). clear E. clearbody item. rewrite Hid.
  split; [reflexivity|]. split; [exact Hnew|].
  split; [|split; [|split]].
  - rewrite getById_records by exact Hrec'. cbn [snd data with_data].
    rewrite find_by_id_app_new by (apply find_id_absent, Hnew).
    rewrite Hid, strict_equals_refl. reflexivity.
  - rewrite exists_records by exact Hrec'. cbn [snd data with_data]. f_equal.
    apply existsb_id_elem. rewrite map_app. apply elem_of_app. right.
    cbn. rewrite Hid. left.
  - rewrite count_run. cbn [snd data with_data]. rewrite length_app. cbn.
    f_equal. lia.
  - intros id' Hne. rewrite !getById_records by assumption.
    cbn [snd data with_data]. rewrite find_app_other by congruence. reflexivity.
Qed.

(** An instance. *)
Lemma create_then_getById_witness :
  let s' := store_after (create client_data) client_store sample_world in
  let w' := world_after (create client_data) client_store sample_world in
  data s' = data client_store ++ [client_created] /\
  (id_of client_created ∉ map id_of (data client_store)) /\
  outcome_of (getById (id_of client_created)) s' w' = Returns client_created /\
  outcome_of (exists_ (id_of client_created)) s' w' = Returns true /\
  outcome_of count s' w' = Returns (S (length (data client_store))) /\
  (forall id, id <> id_of client_created ->
     outcome_of (getById id) s' w' = outcome_of (getById id) client_store sample_world).
Proof.
  apply (create_then_getById client_store sample_world client_data client_created).
  - compute_done.
  - vm_compute. reflexivity.
Defined.

(** *** Looking a record up *)

Lemma find_first items id r :
  List.find (fun item => strict_equals (id_of item) id) items = Some r ->
  exists i, items !! i = Some r /\ id_of r = id /\
            forall j x, j < i -> items !! j = Some x -> id_of x <> id.
Proof.
  induction items as [|y ys IH]; cbn; [discriminate|].
  destruct (strict_equals (id_of y) id) eqn:E.
  - intros [= ->]. exists 0. split; [reflexivity|].
    split; [apply strict_equals_eq, E | intros j x Hj; lia].
  - intros H. destruct (IH H) as (i & Hi & Hid & Hfirst).
    exists (S i). split; [exact Hi|]. split; [exact Hid|].
    intros [|j] x Hj; cbn.
    + intros [= <-]. apply strict_equals_neq, E.
    + apply Hfirst. lia.
Qed.

(** Property X2. [getById] never throws and changes neither the store, nor
    what is saved, nor the calls made. In a store of records, [getById(id)]
    returns the first record whose id is [id], and [null] when no record has
    that id; [exists(id)] returns [true] in the first case and [false] in
    the second. *)
Theorem lookup_by_id s w id :
  (exists v, outcome_of (getById id) s w = Returns v) /\
  store_after (getById id) s w = s /\
  same_platform w (world_after (getById id) s w) /\
  (records (data s) ->
   (id ∈ map id_of (data s) ->
    exists i r,
      data s !! i = Some r /\ id_of r = id /\
      (forall j x, j < i -> data s !! j = Some x -> id_of x <> id) /\
      outcome_of (getById id) s w = Returns r /\
      outcome_of (exists_ id) s w = Returns true) /\
   (id ∉ map id_of (data s) ->
    outcome_of (getById id) s w = Returns VNull /\
    outcome_of (exists_ id) s w = Returns false)).
Proof.
  unfold outcome_of, store_after, world_after.
  destruct (getById_platform id s w) as (w' & v & E & Hp).
  split; [exists v; rewrite E; reflexivity|].
  split; [rewrite E; reflexivity|].
  split; [rewrite E; exact Hp|].
  clear E Hp w' v. intros Hrec.
  rewrite getById_records, exists_records by exact Hrec. cbn [snd]. split.
  - intros Hin.
    destruct (List.find _ (data s)) as [r|] eqn:F.
    + destruct (find_first _ _ _ F) as (i & Hi & Hid & Hfirst).
      exists i, r. repeat (split; [assumption|]). split; [reflexivity|].
      f_equal. apply existsb_id_elem, Hin.
    + apply find_id_none in F. contradiction.
  - intros Hnotin. rewrite (find_id_absent _ _ Hnotin). split; [reflexivity|].
    f_equal. apply not_true_iff_false. rewrite existsb_id_elem. exact Hnotin.
Qed.

(** An instance. *)
Lemma lookup_by_id_witness :
  exists i r,
    data client_store !! i = Some r /\ id_of r = VStr "c1" /\
    (forall j x, j < i -> data client_store !! j = Some x -> id_of x <> VStr "c1") /\
    outcome_of (getById (VStr "c1")) client_store sample_world = Returns r /\
    outcome_of (exists_ (VStr "c1")) client_store sample_world = Returns true.
Proof.
  apply (lookup_by_id client_store sample_world (VStr "c1")).
  - compute_done.
  - left.
Defined.

(** A store whose data hold [null] or [undefined] (an import does not look
    at the elements) answers differently by method. *)
Lemma find_by_id_broken good bad rest id :
  records good -> id ∉ map id_of good -> truthy bad = false ->
  get_prop bad "id" = Throws TypeError ->
  find_by_id (good ++ bad :: rest) id = Throws TypeError /\
  some_by_id (good ++ bad :: rest) id = Throws TypeError.
Proof.
  intros Hrec Hnotin _ G. induction Hrec as [|x xs Hx _ IH]; cbn.
  - rewrite G. split; reflexivity.
  - rewrite (get_prop_record _ _ Hx). fold (id_of x).
    cbn in Hnotin. apply not_elem_of_cons in Hnotin as [Hne Hnotin].
    assert (strict_equals (id_of x) id = false) as ->
        by (apply strict_equals_neq; congruence).
    apply IH, Hnotin.
Qed.

(** Property X3. When the data of the store hold [null] (or [undefined])
    before any record with the id asked for, [getById] logs the error and
    returns [null], but [exists] throws the [TypeError]: it has no [try]. *)
Theorem exists_throws_where_getById_returns s w id good bad rest :
  data s = good ++ bad :: rest ->
  records good -> id ∉ map id_of good -> bad = VNull \/ bad = VUndef ->
  outcome_of (getById id) s w = Returns VNull /\
  console (world_after (getById id) s w)
    = console w ++ [(tagged s "ID 조회 오류:", TypeError)] /\
  outcome_of (exists_ id) s w = Throws TypeError.
Proof.
  intros Hd Hrec Hnotin Hbad.
  destruct (find_by_id_broken good bad rest id Hrec Hnotin) as [Hf Hs].
  { destruct Hbad as [->| ->]; reflexivity. }
  { destruct Hbad as [->| ->]; reflexivity. }
  unfold outcome_of, world_after. rewrite getById_exact, Hd, Hf. cbn [fst snd].
  split; [reflexivity|]. split; [reflexivity|].
  unfold exists_, bind, this_data, lift. cbn. rewrite Hd, Hs. reflexivity.
Qed.

(** An instance. *)
Lemma exists_throws_where_getById_returns_witness :
  outcome_of (getById (VStr "c1")) (store_of "clients" accept_all [VNull; client_c1])
    sample_world = Returns VNull /\
  console (world_after (getById (VStr "c1"))
             (store_of "clients" accept_all [VNull; client_c1]) sample_world)
    = console sample_world
      ++ [(tagged (store_of "clients" accept_all [VNull; client_c1]) "ID 조회 오류:",
           TypeError)] /\
  outcome_of (exists_ (VStr "c1")) (store_of "clients" accept_all [VNull; client_c1])
    sample_world = Throws TypeError.
Proof.
  apply (exists_throws_where_getById_returns
           (store_of "clients" accept_all [VNull; client_c1]) sample_world
           (VStr "c1") [] VNull [client_c1]).
  - reflexivity.
  - constructor.
  - apply not_elem_of_nil.
  - left. reflexivity.
Defined.

(** *** Deleting *)

Lemma findIndex_by_id_records items id :
  records items ->
  (id ∉ map id_of items -> findIndex_by_id items id = Returns None) /\
  (id ∈ map id_of items ->
   exists i r, findIndex_by_id items id = Returns (Some i) /\
               items !! i = Some r /\ id_of r = id /\
               forall j x, j < i -> items !! j = Some x -> id_of x <> id).
Proof.
  induction 1 as [|y ys Hy _ [IHn IHs]]; cbn.
  - split; [reflexivity | intros H; inversion H].
  - rewrite (get_prop_record _ _ Hy). fold (id_of y).
    destruct (strict_equals (id_of y) id) eqn:E.
    + apply strict_equals_eq in E. split.
      * intros H. exfalso. apply H. rewrite E. left.
      * intros _. exists 0, y. repeat split; [exact E | intros j x Hj; lia].
    + apply strict_equals_neq in E. split.
      * intros H. apply not_elem_of_cons in H as [_ H]. rewrite (IHn H). reflexivity.
      * intros H. apply elem_of_cons in H as [H|H]; [congruence|].
        destruct (IHs H) as (i & r & -> & Hi & Hid & Hfirst).
        exists (S i), r. repeat split; [exact Hi | exact Hid |].
        intros [|j] x Hj; cbn; [intros [= <-]; exact E | apply Hfirst; lia].
Qed.

Lemma NoDup_delete_absent {A} (f : value -> A) (items : list value) i x :
  NoDup (map f items) -> (f <$> items) !! i = Some x ->
  x ∉ map f (base.delete i items).
Proof.
  intros Hnd Hi. change (x ∉ f <$> base.delete i items).
  rewrite list_fmap_delete. intros Hd.
  apply list_elem_of_lookup in Hd as (j & Hj).
  destruct (decide (j < i)) as [Hlt|Hge].
  - rewrite list_lookup_delete_lt in Hj by exact Hlt.
    pose proof (NoDup_lookup _ _ _ _ Hnd Hj Hi). lia.
  - rewrite list_lookup_delete_ge in Hj by lia.
    pose proof (NoDup_lookup _ _ _ _ Hnd Hj Hi). lia.
Qed.

Lemma delete_absent id s w :
  findIndex_by_id (data s) id = Returns None ->
  BaseStorage.delete id (s, w) = ((s, w), Returns false).
Proof.
  intros F. unfold BaseStorage.delete. run. unfold try_catch. run.
  rewrite F. run1. reflexivity.
Qed.

(** Property X4. [delete] never throws. In a store of records, [delete(id)]
    of an id that no record has returns [false] and changes nothing at all;
    of an id that some record has, it removes the first record with that id
    and no other, and returns [true] when the records left were saved and
    [false] when [localStorage] refused them. With pairwise distinct ids, no
    record has the id afterwards. *)
Theorem delete_removes_first_match s w id :
  (exists b, outcome_of (BaseStorage.delete id) s w = Returns b) /\
  (records (data s) ->
   (id ∉ map id_of (data s) ->
    BaseStorage.delete id (s, w) = ((s, w), Returns false)) /\
   (id ∈ map id_of (data s) ->
    exists i r,
      data s !! i = Some r /\ id_of r = id /\
      (forall j x, j < i -> data s !! j = Some x -> id_of x <> id) /\
      data (store_after (BaseStorage.delete id) s w) = base.delete i (data s) /\
      outcome_of (BaseStorage.delete id) s w
      = Returns (negb (save_refused (with_data (base.delete i (data s)) s) w)) /\
      (unique_ids (data s) ->
       id ∉ map id_of (data (store_after (BaseStorage.delete id) s w))))).
Proof.
  split.
  { unfold outcome_of.
    destruct (delete_split id s w) as [(w1 & E & _)|(i & r & _ & _ & _ & E)].
    - rewrite E. eexists. reflexivity.
    - cbn zeta in E. rewrite E. destruct (save_refused _ w); eexists; reflexivity. }
  intros Hrec. destruct (findIndex_by_id_records (data s) id Hrec) as [Hn Hs]. split.
  - intros Hnotin. apply delete_absent, Hn, Hnotin.
  - intros Hin. destruct (Hs Hin) as (i & r & F & Hi & Hid & Hfirst).
    exists i, r. repeat (split; [assumption|]).
    unfold store_after, outcome_of.
    destruct (delete_split id s w) as [(w1 & _ & _ & Hno)|(i' & r' & F' & _ & _ & E)].
    { exfalso. apply (Hno i F). }
    rewrite F in F'. injection F' as <-. cbn zeta in E. rewrite E.
    assert (id ∉ map id_of (base.delete i (data s)) \/ ~ unique_ids (data s)) as Hgone.
    { destruct (decide (NoDup (map id_of (data s)))) as [Hnd|Hnd]; [left | right; exact Hnd].
      apply (NoDup_delete_absent id_of (data s) i); [exact Hnd|].
      change ((id_of <$> data s) !! i = Some id).
      rewrite list_lookup_fmap, Hi. cbn. rewrite Hid. reflexivity. }
    destruct (save_refused _ w); cbn [fst snd data with_data negb];
      (split; [reflexivity|]); (split; [reflexivity|]);
      intros Hnd; destruct Hgone as [H|H]; [exact H | contradiction | exact H | contradiction].
Qed.

(** An instance. *)
Lemma delete_removes_first_match_witness :
  exists i r,
    data client_store !! i = Some r /\ id_of r = VStr "c1" /\
    (forall j x, j < i -> data client_store !! j = Some x -> id_of x <> VStr "c1") /\
    data (store_after (BaseStorage.delete (VStr "c1")) client_store sample_world)
    = base.delete i (data client_store) /\
    outcome_of (BaseStorage.delete (VStr "c1")) client_store sample_world
    = Returns (negb (save_refused (with_data (base.delete i (data client_store))
                                     client_store) sample_world)) /\
    (unique_ids (data client_store) ->
     VStr "c1" ∉ map id_of
       (data (store_after (BaseStorage.delete (VStr "c1")) client_store sample_world))).
Proof.
  apply (delete_removes_first_match client_store sample_world (VStr "c1")).
  - compute_done.
  - left.
Defined.

(** *** What a call writes and whom it tells *)

Lemma localStorage_notified action d key ls w :
  localStorage (notified action d key ls w) = localStorage w.
Proof. reflexivity. Qed.

Lemma calls_notified action d key ls w :
  calls (notified action d key ls w) = calls w ++ map (call_of action d key) ls.
Proof. reflexivity. Qed.

Lemma localStorage_saved s0 s w w1 :
  storageKey s = storageKey s0 -> same_platform w w1 ->
  localStorage (saved s w1) = <[save_key s0 w := save_text s]> (localStorage w).
Proof.
  intros Hk Hp. unfold saved. cbn. rewrite (save_key_platform _ _ _ Hp).
  destruct Hp as (-> & _). unfold save_key. rewrite Hk. reflexivity.
Qed.

(** Property X5. A mutating method that reports success has written the
    records it leaves in the store to [localStorage], as the text that
    [_save] makes of them, under the key of the store, and has changed no
    other key. *)
Theorem successful_mutation_is_saved s w :
  (forall d r, outcome_of (create d) s w = Returns r -> wrote_records (create d) s w) /\
  (forall id u r,
      outcome_of (update id u) s w = Returns r -> wrote_records (update id u) s w) /\
  (forall id,
      outcome_of (BaseStorage.delete id) s w = Returns true ->
      wrote_records (BaseStorage.delete id) s w) /\
  (forall items,
      outcome_of (bulkUpdate items) s w = Returns true ->
      wrote_records (bulkUpdate items) s w) /\
  (outcome_of clear s w = Returns tt -> wrote_records clear s w) /\
  (forall snap merge,
      outcome_of (import snap merge) s w = Returns tt ->
      wrote_records (import snap merge) s w).
Proof.
  unfold wrote_records, outcome_of, store_after, world_after.
  split; [|split; [|split; [|split; [|split]]]].
  - intros d r.
    destruct (create_cases d s w)
      as [(e & w1 & E & _)|(id & c & u & w1 & Hp & _ & _ & E)];
      rewrite E; cbn [fst snd]; [discriminate|].
    destruct (save_refused _ w1); cbn [fst snd]; [discriminate|]. intros _.
    rewrite localStorage_notified. apply localStorage_saved; [reflexivity | exact Hp].
  - intros id u r.
    destruct (update_cases id u s w)
      as [(e & w1 & E & _)|(i & cur & now & _ & _ & _ & E)];
      rewrite E; cbn [fst snd]; [discriminate|].
    destruct (save_refused _ _); cbn [fst snd]; [discriminate|]. intros _.
    rewrite localStorage_notified. apply localStorage_saved; [reflexivity | apply same_platform_tick_clock].
  - intros id.
    destruct (delete_split id s w) as [(w1 & E & _)|(i & cur & _ & _ & _ & E)];
      rewrite E; cbn [fst snd]; [discriminate|].
    destruct (save_refused _ _); cbn [fst snd]; [discriminate|]. intros _.
    rewrite localStorage_notified. apply localStorage_saved; [reflexivity | apply same_platform_refl].
  - intros items.
    destruct (bulkUpdate_split items s w)
      as [(w1 & E & _)|(xs & ys & w1 & _ & _ & Hp & E)];
      rewrite E; cbn [fst snd]; [discriminate|].
    destruct (save_refused _ _); cbn [fst snd]; [discriminate|]. intros _.
    rewrite localStorage_notified. apply localStorage_saved; [reflexivity | exact Hp].
  - rewrite clear_exact.
    destruct (save_refused _ _); cbn [fst snd]; [discriminate|]. intros _.
    rewrite localStorage_notified. apply localStorage_saved; [reflexivity | apply same_platform_refl].
  - intros snap merge.
    destruct (import_cases snap merge s w)
      as [(e & w1 & E & _)|(incoming & items' & _ & _ & _ & E)];
      rewrite E; cbn [fst snd]; [discriminate|].
    destruct (save_refused _ _); cbn [fst snd]; [discriminate|]. intros _.
    rewrite localStorage_notified. apply localStorage_saved; [reflexivity | apply same_platform_refl].
Qed.

(** An instance. *)
Lemma successful_mutation_is_saved_witness :
  wrote_records (create client_data) client_store sample_world.
Proof.
  apply (successful_mutation_is_saved client_store sample_world) with (r := client_created).
  vm_compute. reflexivity.
Defined.

Lemma silent_platform {A} (m : M A) s w :
  same_platform w (world_after m s w) -> silent m s w.
Proof. unfold silent. intros (-> & -> & _). split; reflexivity. Qed.

Lemma same_platform_refusal msg s w w1 :
  same_platform w w1 -> same_platform w (refusal_logged msg s w1).
Proof. intros Hp. unfold refusal_logged, save_failed. platform. Qed.

(** Property X6. A call that fails has written nothing to [localStorage] and
    has called no listener: this holds for every error that [create],
    [update], [clear] and [import] throw, and for a [delete] or a
    [bulkUpdate] that returns [false]. When the error is not the refusal of
    [localStorage], the store is what it was as well. *)
Theorem failed_call_is_silent s w :
  (forall d e,
      outcome_of (create d) s w = Throws e ->
      silent (create d) s w /\
      (e <> PersistenceError -> store_after (create d) s w = s)) /\
  (forall id u e,
      outcome_of (update id u) s w = Throws e ->
      silent (update id u) s w /\
      (e <> PersistenceError -> store_after (update id u) s w = s)) /\
  (forall snap merge e,
      outcome_of (import snap merge) s w = Throws e ->
      silent (import snap merge) s w /\
      (e <> PersistenceError -> store_after (import snap merge) s w = s)) /\
  (forall e, outcome_of clear s w = Throws e ->
             silent clear s w /\ e = PersistenceError) /\
  (forall id,
      outcome_of (BaseStorage.delete id) s w = Returns false ->
      silent (BaseStorage.delete id) s w) /\
  (forall items,
      outcome_of (bulkUpdate items) s w = Returns false ->
      silent (bulkUpdate items) s w).
Proof.
  split; [|split; [|split; [|split; [|split]]]].
  - intros d e. unfold outcome_of, store_after.
    destruct (create_cases d s w)
      as [(e' & w1 & E & Hp & He & _)|(id & c & u & w1 & Hp & _ & _ & E)].
    + rewrite E. cbn [fst snd]. intros [= <-]. split; [|reflexivity].
      apply silent_platform. unfold world_after. rewrite E. exact Hp.
    + cbn zeta in E. rewrite E.
      destruct (save_refused _ w1) eqn:R; cbn [fst snd]; [|discriminate].
      intros [= <-]. split; [|congruence].
      apply silent_platform. unfold world_after. rewrite E.
      apply same_platform_refusal, Hp.
  - intros id u e. unfold outcome_of, store_after.
    destruct (update_cases id u s w)
      as [(e' & w1 & E & Hp & He & _)|(i & cur & now & _ & _ & _ & E)].
    + rewrite E. cbn [fst snd]. intros [= <-]. split; [|reflexivity].
      apply silent_platform. unfold world_after. rewrite E. exact Hp.
    + cbn zeta in E. rewrite E.
      destruct (save_refused _ _) eqn:R; cbn [fst snd]; [|discriminate].
      intros [= <-]. split; [|congruence].
      apply silent_platform. unfold world_after. rewrite E.
      apply same_platform_refusal, same_platform_tick_clock.
  - intros snap merge e. unfold outcome_of, store_after.
    destruct (import_cases snap merge s w)
      as [(e' & w1 & E & Hp & He & _)|(incoming & items' & _ & _ & _ & E)].
    + rewrite E. cbn [fst snd]. intros [= <-]. split; [|reflexivity].
      apply silent_platform. unfold world_after. rewrite E. exact Hp.
    + cbn zeta in E. rewrite E.
      destruct (save_refused _ _) eqn:R; cbn [fst snd]; [|discriminate].
      intros [= <-]. split; [|congruence].
      apply silent_platform. unfold world_after. rewrite E.
      apply same_platform_refusal, same_platform_refl.
  - intros e. unfold outcome_of. rewrite clear_exact.
    destruct (save_refused _ _) eqn:R; cbn [fst snd]; [|discriminate].
    intros [= <-]. split; [|reflexivity].
    apply silent_platform. unfold world_after. rewrite clear_exact, R.
    apply same_platform_refusal, same_platform_refl.
  - intros id. unfold outcome_of.
    destruct (delete_split id s w) as [(w1 & E & Hp & _)|(i & cur & _ & _ & _ & E)].
    + rewrite E. intros _. apply silent_platform. unfold world_after.
      rewrite E. exact Hp.
    + cbn zeta in E. rewrite E.
      destruct (save_refused _ _) eqn:R; cbn [fst snd]; [|discriminate].
      intros _. apply silent_platform. unfold world_after. rewrite E.
      apply same_platform_refusal, same_platform_refl.
  - intros items. unfold outcome_of.
    destruct (bulkUpdate_split items s w)
      as [(w1 & E & Hp)|(xs & ys & w1 & _ & _ & Hp & E)].
    + rewrite E. intros _. apply silent_platform. unfold world_after.
      rewrite E. exact Hp.
    + cbn zeta in E. rewrite E.
      destruct (save_refused _ _) eqn:R; cbn [fst snd]; [|discriminate].
      intros _. apply silent_platform. unfold world_after. rewrite E.
      apply same_platform_refusal, Hp.
Qed.

(** An instance. *)
Lemma failed_call_is_silent_witness :
  silent (create client_c1) client_store sample_world /\
  (DuplicateIdError (VStr "c1") <> PersistenceError ->
   store_after (create client_c1) client_store sample_world = client_store).
Proof.
  apply (failed_call_is_silent client_store sample_world).
  vm_compute. reflexivity.
Defined.

(** Property X7. When [localStorage] refuses the write, the change that the
    method made to the records stays in the store although the method
    reports failure: [create] has appended its record, [update] has replaced
    the record, [clear] has emptied the store, [import] has put its sequence
    in, and a [delete] of the id of a record, which returns [false] then,
    has removed a record. *)
Theorem refused_write_keeps_change s w :
  (forall d,
      outcome_of (create d) s w = Throws PersistenceError ->
      exists r, is_record r = true /\
                data (store_after (create d) s w) = data s ++ [r]) /\
  (forall id u,
      outcome_of (update id u) s w = Throws PersistenceError ->
      exists i r, i < length (data s) /\ is_record r = true /\ id_of r = id /\
                  data (store_after (update id u) s w) = <[i := r]> (data s)) /\
  (outcome_of clear s w = Throws PersistenceError ->
   data (store_after clear s w) = []) /\
  (forall snap,
      outcome_of (import snap false) s w = Throws PersistenceError ->
      data (store_after (import snap false) s w) = elements (field snap "data")) /\
  (forall id,
      storage_full w -> records (data s) -> id ∈ map id_of (data s) ->
      outcome_of (BaseStorage.delete id) s w = Returns false /\
      S (length (data (store_after (BaseStorage.delete id) s w))) = length (data s)).
Proof.
  split; [|split; [|split; [|split]]].
  - intros d. unfold outcome_of, store_after.
    destruct (create_cases d s w)
      as [(e' & w1 & E & Hp & He & _)|(id & c & u & w1 & Hp & _ & _ & E)].
    + rewrite E. cbn [fst snd]. intros [= ->]. congruence.
    + cbn zeta in E. rewrite E. intros _. eexists.
      split; [apply (new_item_record d id c u)|].
      destruct (save_refused _ w1); reflexivity.
  - intros id u. unfold outcome_of, store_after.
    destruct (update_cases id u s w)
      as [(e' & w1 & E & Hp & He & _)|(i & cur & now & _ & Hi & _ & E)].
    + rewrite E. cbn [fst snd]. intros [= ->]. congruence.
    + cbn zeta in E. rewrite E. intros _. exists i. eexists.
      split; [apply (lookup_lt_Some _ _ _ Hi)|].
      split; [apply (updated_item_record cur u id now)|].
      split; [apply updated_item_id|].
      destruct (save_refused _ _); reflexivity.
  - intros _. apply clear_data.
  - intros snap. unfold outcome_of, store_after.
    destruct (import_cases snap false s w)
      as [(e' & w1 & E & Hp & He & _)|(incoming & items' & _ & D & -> & E)].
    + rewrite E. cbn [fst snd]. intros [= ->]. congruence.
    + cbn zeta in E. rewrite E, D. intros _.
      destruct (save_refused _ _); reflexivity.
  - intros id Hfull Hrec Hin.
    destruct (proj2 (findIndex_by_id_records (data s) id Hrec) Hin)
      as (i & r & F & Hi & _).
    unfold outcome_of, store_after.
    destruct (delete_split id s w) as [(w1 & _ & _ & Hno)|(i' & r' & F' & _ & _ & E)].
    { exfalso. apply (Hno i F). }
    rewrite F in F'. injection F' as <-. cbn zeta in E. rewrite E.
    unfold save_refused. rewrite Hfull. cbn [fst snd data with_data].
    split; [reflexivity|].
    rewrite length_delete by (rewrite Hi; eauto).
    pose proof (lookup_lt_Some _ _ _ Hi). lia.
Qed.

(** An instance. *)
Lemma refused_write_keeps_change_witness :
  exists r, is_record r = true /\
            data (store_after (create client_data) client_store full_world)
            = data client_store ++ [r].
Proof.
  apply (refused_write_keeps_change client_store full_world).
  vm_compute. reflexivity.
Defined.

(** Property X8. [_notifyListeners] calls every listener of the store once,
    in the order of subscription, with the action, the data and the name of
    the store. A listener that throws stops neither the listeners after it
    nor the method: its error goes to the console and no further. Neither
    the store nor [localStorage] is touched. *)
Theorem notifyListeners_contains_errors action d s w :
  outcome_of (_notifyListeners action d) s w = Returns tt /\
  store_after (_notifyListeners action d) s w = s /\
  calls (world_after (_notifyListeners action d) s w)
  = calls w ++ map (call_of action d (storageKey s)) (listeners s) /\
  console (world_after (_notifyListeners action d) s w)
  = console w ++ listener_errors action d (storageKey s) (listeners s) /\
  localStorage (world_after (_notifyListeners action d) s w) = localStorage w.
Proof.
  unfold outcome_of, store_after, world_after. rewrite _notifyListeners_exact.
  repeat split.
Qed.

(** Property X9. A mutating method that reports success has called every
    listener of the store once, in the order of subscription, and has made
    no other call: [create] and [update] with the record they return,
    [delete] with the record it removed, [bulkUpdate] and [import] with the
    records of the store, [clear] with the empty array. *)
Theorem every_listener_is_told s w :
  (forall d r,
      outcome_of (create d) s w = Returns r ->
      told_listeners (create d) s w "create" r) /\
  (forall id u r,
      outcome_of (update id u) s w = Returns r ->
      told_listeners (update id u) s w "update" r) /\
  (forall id,
      outcome_of (BaseStorage.delete id) s w = Returns true ->
      exists i r, data s !! i = Some r /\ id_of r = id /\
                  data (store_after (BaseStorage.delete id) s w) = base.delete i (data s) /\
                  told_listeners (BaseStorage.delete id) s w "delete" r) /\
  (forall items,
      outcome_of (bulkUpdate items) s w = Returns true ->
      told_listeners (bulkUpdate items) s w "bulkUpdate"
        (VArr (data (store_after (bulkUpdate items) s w)))) /\
  (outcome_of clear s w = Returns tt ->
   told_listeners clear s w "clear" (VArr [])) /\
  (forall snap merge,
      outcome_of (import snap merge) s w = Returns tt ->
      told_listeners (import snap merge) s w "import"
        (VArr (data (store_after (import snap merge) s w)))).
Proof.
  unfold told_listeners, outcome_of, store_after, world_after.
  split; [|split; [|split; [|split; [|split]]]].
  - intros d r.
    destruct (create_cases d s w)
      as [(e & w1 & E & _)|(id & c & u & w1 & Hp & _ & _ & E)];
      rewrite E; cbn [fst snd]; [discriminate|].
    destruct (save_refused _ w1); cbn [fst snd]; [discriminate|]. intros [= <-].
    rewrite calls_notified. cbn. destruct Hp as (_ & -> & _). reflexivity.
  - intros id u r.
    destruct (update_cases id u s w)
      as [(e & w1 & E & _)|(i & cur & now & _ & _ & _ & E)];
      rewrite E; cbn [fst snd]; [discriminate|].
    destruct (save_refused _ _); cbn [fst snd]; [discriminate|]. intros [= <-].
    rewrite calls_notified. reflexivity.
  - intros id.
    destruct (delete_split id s w) as [(w1 & E & _)|(i & cur & _ & Hi & Hid & E)];
      rewrite E; cbn [fst snd]; [discriminate|].
    destruct (save_refused _ _); cbn [fst snd]; [discriminate|]. intros _.
    exists i, cur. repeat (split; [first [assumption | reflexivity]|]).
    rewrite calls_notified. reflexivity.
  - intros items.
    destruct (bulkUpdate_split items s w)
      as [(w1 & E & _)|(xs & ys & w1 & _ & _ & Hp & E)];
      rewrite E; cbn [fst snd]; [discriminate|].
    destruct (save_refused _ _); cbn [fst snd]; [discriminate|]. intros _.
    rewrite calls_notified. cbn. destruct Hp as (_ & -> & _). reflexivity.
  - rewrite clear_exact.
    destruct (save_refused _ _); cbn [fst snd]; [discriminate|]. intros _.
    rewrite calls_notified. reflexivity.
  - intros snap merge.
    destruct (import_cases snap merge s w)
      as [(e & w1 & E & _)|(incoming & items' & _ & _ & _ & E)];
      rewrite E; cbn [fst snd]; [discriminate|].
    destruct (save_refused _ _); cbn [fst snd]; [discriminate|]. intros _.
    rewrite calls_notified. reflexivity.
Qed.

(** An instance. *)
Lemma every_listener_is_told_witness :
  told_listeners (create client_data)
    (store_after (subscribe (failing_listener 3))
       (store_after (subscribe (quiet_listener 7)) client_store sample_world)
       sample_world)
    sample_world "create" client_created.
Proof.
  apply (every_listener_is_told
           (store_after (subscribe (failing_listener 3))
              (store_after (subscribe (quiet_listener 7)) client_store sample_world)
              sample_world) sample_world).
  vm_compute. reflexivity.
Defined.

(** *** Subscribing *)

Lemma existsb_lid ls n :
  existsb (fun l' => Nat.eqb (lid l') n) ls = true <-> n ∈ map lid ls.
Proof.
  rewrite existsb_exists. split.
  - intros (x & Hin & E). apply Nat.eqb_eq in E. subst n.
    apply list_elem_of_fmap. exists x. split; [reflexivity | apply list_elem_of_In, Hin].
  - intros Hin. apply list_elem_of_fmap in Hin as (x & -> & Hin).
    exists x. split; [apply list_elem_of_In, Hin | apply Nat.eqb_refl].
Qed.

Lemma filter_lid_absent ls n :
  n ∉ map lid ls -> List.filter (fun l' => negb (Nat.eqb (lid l') n)) ls = ls.
Proof.
  induction ls as [|x xs IH]; cbn; [reflexivity|].
  intros H. apply not_elem_of_cons in H as [Hne H].
  assert (Nat.eqb (lid x) n = false) as -> by (apply Nat.eqb_neq; congruence).
  cbn. rewrite IH by exact H. reflexivity.
Qed.

Lemma filter_lid_gone ls n :
  n ∉ map lid (List.filter (fun l' => negb (Nat.eqb (lid l') n)) ls).
Proof.
  intros Hin. apply list_elem_of_fmap in Hin as (x & -> & Hin).
  apply list_elem_of_In, filter_In in Hin as [_ Hin].
  rewrite Nat.eqb_refl in Hin. discriminate.
Qed.

(** Property X10. [subscribe] keeps one entry for a listener: subscribing a
    listener that is subscribed already changes nothing, so that a listener
    is never called twice for one event. The function that [subscribe]
    returns takes the listener out again and leaves the other listeners in
    their order; after it, a successful [create] makes no call to the
    listener. Neither touches the records. *)
Theorem subscribe_then_unsubscribe s w l :
  let s1 := store_after (subscribe l) s w in
  let s2 := store_after (unsubscribe l) s1 w in
  lid l ∈ map lid (listeners s1) /\
  (NoDup (map lid (listeners s)) -> NoDup (map lid (listeners s1))) /\
  store_after (subscribe l) s1 w = s1 /\
  (lid l ∉ map lid (listeners s2)) /\
  (lid l ∉ map lid (listeners s) -> listeners s2 = listeners s) /\
  data s1 = data s /\ data s2 = data s /\
  (forall d r w',
      outcome_of (create d) s2 w' = Returns r ->
      exists new,
        calls (world_after (create d) s2 w') = calls w' ++ new /\
        Forall (fun c => call_listener c <> lid l) new).
Proof.
  cbn zeta. unfold store_after, subscribe, unsubscribe. cbn [fst snd listeners with_listeners data].
  destruct (existsb (fun l' => Nat.eqb (lid l') (lid l)) (listeners s)) eqn:E.
  - pose proof (proj1 (existsb_lid _ _) E) as Hin.
    split; [exact Hin|]. split; [tauto|].
    split; [rewrite E; reflexivity|].
    split; [apply filter_lid_gone|].
    split; [contradiction|]. split; [reflexivity|]. split; [reflexivity|].
    intros d r w'. unfold outcome_of, world_after.
    match goal with |- context [create d (?x, w')] => set (s2 := x) end.
    destruct (create_cases d s2 w')
      as [(e & w1 & E' & _)|(id & c & u & w1 & Hp & _ & _ & E')];
      rewrite E'; cbn [fst snd]; [discriminate|].
    destruct (save_refused _ w1); cbn [fst snd]; [discriminate|]. intros [= <-].
    eexists. split.
    + rewrite calls_notified. cbn. destruct Hp as (_ & -> & _). reflexivity.
    + apply Forall_forall. intros c' Hc.
      apply list_elem_of_fmap in Hc as (x & -> & Hx). cbn. intros Heq.
      apply (filter_lid_gone (listeners s) (lid l)).
      apply list_elem_of_fmap. exists x. split; [congruence | exact Hx].
  - assert (lid l ∉ map lid (listeners s)) as Hnotin.
    { intros H. apply existsb_lid in H. congruence. }
    split; [rewrite map_app; apply elem_of_app; right; left|].
    split.
    { intros Hnd. rewrite map_app. apply NoDup_app. split; [exact Hnd|].
      split; [|apply NoDup_singleton].
      intros x Hx Hin. apply list_elem_of_singleton in Hin. subst x. contradiction. }
    split.
    { assert (existsb (fun l' => Nat.eqb (lid l') (lid l)) (listeners s ++ [l]) = true)
        as ->; [|reflexivity].
      apply existsb_lid. rewrite map_app. apply elem_of_app. right. left. }
    split; [apply filter_lid_gone|].
    split.
    { intros _. rewrite List.filter_app. cbn. rewrite Nat.eqb_refl. cbn.
      rewrite app_nil_r. apply filter_lid_absent, Hnotin. }
    split; [reflexivity|]. split; [reflexivity|].
    intros d r w'. unfold outcome_of, world_after.
    match goal with |- context [create d (?x, w')] => set (s2 := x) end.
    destruct (create_cases d s2 w')
      as [(e & w1 & E' & _)|(id & c & u & w1 & Hp & _ & _ & E')];
      rewrite E'; cbn [fst snd]; [discriminate|].
    destruct (save_refused _ w1); cbn [fst snd]; [discriminate|]. intros [= <-].
    eexists. split.
    + rewrite calls_notified. cbn. destruct Hp as (_ & -> & _). reflexivity.
    + apply Forall_forall. intros c' Hc.
      apply list_elem_of_fmap in Hc as (x & -> & Hx). cbn. intros Heq.
      apply (filter_lid_gone (listeners s ++ [l]) (lid l)).
      apply list_elem_of_fmap. exists x. split; [congruence | exact Hx].
Qed.

(** An instance. *)
Lemma subscribe_then_unsubscribe_witness :
  listeners
    (store_after (unsubscribe (quiet_listener 7))
       (store_after (subscribe (quiet_listener 7)) client_store sample_world)
       sample_world)
  = listeners client_store.
Proof.
  apply (subscribe_then_unsubscribe client_store sample_world (quiet_listener 7)).
  apply not_elem_of_nil.
Defined.

(** *** Querying *)

Lemma filter_pred_total (p : value -> bool) predicate items :
  (forall x, x ∈ items -> predicate x = Returns (p x)) ->
  filter_pred predicate items = Returns (List.filter p items).
Proof.
  induction items as [|x xs IH]; intros H; cbn; [reflexivity|].
  rewrite (H x) by left. rewrite IH by (intros y Hy; apply H; right; exact Hy).
  destruct (p x); reflexivity.
Qed.

Lemma filter_pred_throws predicate items x e :
  x ∈ items -> predicate x = Throws e ->
  exists e', filter_pred predicate items = Throws e'.
Proof.
  intros Hin Hx. induction items as [|y ys IH]; [inversion Hin|]. cbn.
  destruct (predicate y) as [b|e'] eqn:Py; [|eexists; reflexivity].
  apply elem_of_cons in Hin as [<-|Hin]; [congruence|].
  destruct (IH Hin) as (e' & ->). eexists. reflexivity.
Qed.

(** Property X11. [getWhere] never throws and leaves the store and
    [localStorage] alone. With a predicate that returns on every record, the
    result is the records on which it returns [true], in the order of the
    store, and the world is untouched. When the predicate throws on some
    record, the result is the empty array, whatever the other records are,
    and the error goes to the console. *)
Theorem getWhere_filters s w predicate :
  (exists xs, outcome_of (getWhere predicate) s w = Returns xs) /\
  store_after (getWhere predicate) s w = s /\
  same_platform w (world_after (getWhere predicate) s w) /\
  (forall p : value -> bool,
      (forall x, x ∈ data s -> predicate x = Returns (p x)) ->
      getWhere predicate (s, w) = ((s, w), Returns (List.filter p (data s)))) /\
  (forall x e,
      x ∈ data s -> predicate x = Throws e ->
      outcome_of (getWhere predicate) s w = Returns [] /\
      exists e', console (world_after (getWhere predicate) s w)
                 = console w ++ [(tagged s "조건 조회 오류:", e')]).
Proof.
  unfold outcome_of, store_after, world_after, getWhere.
  unfold bind, try_catch, this, this_data, lift, console_error, world, set_world, ret.
  cbn [fst snd].
  split; [destruct (filter_pred predicate (data s)); eexists; reflexivity|].
  split; [destruct (filter_pred predicate (data s)); reflexivity|].
  split; [destruct (filter_pred predicate (data s)); cbn [fst snd]; platform|].
  split.
  - intros p Hp. rewrite (filter_pred_total p) by exact Hp. reflexivity.
  - intros x e Hin Hx.
    destruct (filter_pred_throws predicate (data s) x e Hin Hx) as (e' & ->).
    cbn [fst snd]. split; [reflexivity|]. exists e'. reflexivity.
Qed.

(** An instance. *)
Lemma getWhere_filters_witness :
  getWhere (fun x => Returns (strict_equals (field x "companyName") (VStr "Acme")))
    (client_store, sample_world)
  = ((client_store, sample_world),
     Returns (List.filter (fun x => strict_equals (field x "companyName") (VStr "Acme"))
                (data client_store))).
Proof.
  apply (getWhere_filters client_store sample_world
           (fun x => Returns (strict_equals (field x "companyName") (VStr "Acme")))).
  intros x _. reflexivity.
Defined.

(** *** Importing twice *)

Lemma map_id_returns items ids : map_id items = Returns ids -> ids = map id_of items.
Proof.
  revert ids. induction items as [|x xs IH]; cbn; intros ids.
  - intros [= <-]. reflexivity.
  - destruct (get_prop x "id") as [i|] eqn:G; [|discriminate].
    destruct (map_id xs) as [ids'|]; [|discriminate]. intros [= <-].
    apply get_prop_field in G. rewrite (IH ids' eq_refl). unfold id_of. congruence.
Qed.

Lemma set_has_app ids extra i :
  set_has (ids ++ extra) i = set_has ids i || set_has extra i.
Proof. unfold set_has. apply existsb_app. Qed.

(** When every id that is read is known already, the filter of the merge
    keeps nothing. *)
Lemma filter_new_all_known ids xs added :
  (forall x i, x ∈ xs -> get_prop x "id" = Returns i -> set_has ids i = true) ->
  filter_new ids xs = Returns added -> added = [].
Proof.
  revert added. induction xs as [|x xs IH]; cbn; intros added Hknown.
  - intros [= <-]. reflexivity.
  - destruct (get_prop x "id") as [i|] eqn:G; [|discriminate].
    destruct (filter_new ids xs) as [keep|] eqn:F; [|discriminate].
    rewrite (Hknown x i) by (first [left | exact G]).
    intros [= <-]. apply IH; [|reflexivity].
    intros y j Hy. apply Hknown. right. exact Hy.
Qed.

Lemma filter_new_kept ids xs added x i :
  filter_new ids xs = Returns added ->
  x ∈ xs -> get_prop x "id" = Returns i -> set_has ids i = false -> x ∈ added.
Proof.
  revert added. induction xs as [|y ys IH]; cbn; intros added; [intros _ H; inversion H|].
  destruct (get_prop y "id") as [j|] eqn:G; [|discriminate].
  destruct (filter_new ids ys) as [keep|] eqn:F; [|discriminate].
  intros [= <-] Hin Gx Hx. apply elem_of_cons in Hin as [->|Hin].
  - rewrite G in Gx. injection Gx as ->. rewrite Hx. left.
  - specialize (IH keep eq_refl Hin Gx Hx).
    destruct (set_has ids j); [exact IH | right; exact IH].
Qed.

Lemma import_merge_data snap s w :
  data (store_after (import snap true) s w) = data s \/
  exists incoming added,
    field snap "data" = VArr incoming /\
    filter_new (map id_of (data s)) incoming = Returns added /\
    map_id (data s) = Returns (map id_of (data s)) /\
    data (store_after (import snap true) s w) = data s ++ added.
Proof.
  unfold store_after.
  destruct (import_cases snap true s w)
    as [(e & w1 & E & _)|(incoming & items' & _ & D & (ids & added & Hm & Hf & ->) & E)].
  - left. rewrite E. reflexivity.
  - right. exists incoming, added. pose proof (map_id_returns _ _ Hm) as ->.
    split; [exact D|]. split; [exact Hf|]. split; [exact Hm|].
    cbn zeta in E. rewrite E. destruct (save_refused _ _); reflexivity.
Qed.

(** Property X12. A merge adds nothing the second time: importing the same
    snapshot again with [merge] leaves the records as the first import left
    them, whatever the snapshot and the store are. And importing the
    snapshot that [export] has just made of a store into that store, with
    [merge], leaves its records as they are. *)
Theorem import_merge_twice s w w2 snap :
  data (store_after (import snap true) (store_after (import snap true) s w) w2)
  = data (store_after (import snap true) s w) /\
  (forall snapshot w1,
      outcome_of export s w = Returns snapshot ->
      data (store_after (import snapshot true) s w1) = data s).
Proof.
  split.
  - destruct (import_cases snap true s w)
      as [(e & w1 & E & _ & _ & Hfmt & Hother)
         |(incoming & items' & T & D & (ids & added & Hm & Hf & ->) & E)].
    + unfold store_after at 2 3. rewrite E. cbn [fst snd].
      destruct (import_merge_data snap s w2)
        as [H|(incoming & added & D & Hf & Hm & H)]; [exact H|].
      exfalso.
      assert (e = ImportFormatError \/ e <> ImportFormatError) as [->|Hne]
          by (destruct e; first [left; reflexivity | right; discriminate]).
      * destruct (proj1 Hfmt eq_refl) as [T|A].
        -- unfold store_after in H.
           destruct (import_cases snap true s w2)
             as [(e' & w1' & E' & _)|(inc' & items'' & T' & _)]; [|congruence].
           clear H. destruct snap; discriminate.
        -- rewrite D in A. discriminate.
      * destruct (Hother Hne) as (_ & [Hm'|(ids & Hm' & Hf')]); [congruence|].
        pose proof (map_id_returns _ _ Hm') as ->.
        rewrite D in Hf'. cbn [elements] in Hf'. congruence.
    + assert (store_after (import snap true) s w = with_data (data s ++ added) s) as ->.
      { unfold store_after. cbn zeta in E. rewrite E.
        destruct (save_refused _ _); reflexivity. }
      pose proof (map_id_returns _ _ Hm) as ->.
      destruct (import_merge_data snap (with_data (data s ++ added) s) w2)
        as [H|(incoming' & added' & D' & Hf' & Hm' & H)]; [exact H|].
      rewrite H. cbn [data with_data] in *. rewrite D in D'. injection D' as <-.
      assert (added' = []) as ->; [|apply app_nil_r].
      eapply filter_new_all_known; [|exact Hf']. intros x i Hx G.
      rewrite map_app, set_has_app.
      destruct (set_has (map id_of (data s)) i) eqn:Hs; [reflexivity|]. cbn.
      apply set_has_elem. apply list_elem_of_fmap. exists x.
      split; [apply get_prop_field in G; exact G|].
      apply (filter_new_kept _ _ _ _ _ Hf Hx G Hs).
  - intros snapshot w1. unfold outcome_of. rewrite export_run. cbn [snd].
    intros [= <-].
    match goal with |- context [import ?v true] => set (snapshot := v) end.
    destruct (import_merge_data snapshot s w1)
      as [H|(incoming & added & D & Hf & Hm & H)]; [exact H|].
    rewrite H. cbn in D. injection D as <-.
    assert (added = []) as ->; [|apply app_nil_r].
    eapply filter_new_all_known; [|exact Hf]. intros x i Hx G.
    apply set_has_elem. apply list_elem_of_fmap. exists x.
    split; [apply get_prop_field in G; exact G | exact Hx].
Qed.

(** An instance. *)
Lemma import_merge_twice_witness :
  data (store_after (import client_snapshot true) client_store full_world)
  = data client_store.
Proof.
  apply (import_merge_twice client_store sample_world sample_world VNull).
  vm_compute. reflexivity.
Defined.

(** *** Records stay records *)

Lemma records_insert items i r :
  records items -> is_record r = true -> records (<[i := r]> items).
Proof.
  unfold records. intros H Hr. apply Forall_insert; assumption.
Qed.

Lemma records_delete items i : records items -> records (base.delete i items).
Proof. unfold records. apply Forall_delete. Qed.

Lemma records_filter_new ids incoming added :
  records incoming -> filter_new ids incoming = Returns added -> records added.
Proof.
  intros Hrec. rewrite (filter_new_records _ _ Hrec). intros [= <-].
  unfold records in *. rewrite Forall_forall in *. intros x Hx.
  apply list_elem_of_In, filter_In in Hx as [Hx _]. apply Hrec, list_elem_of_In, Hx.
Qed.

Lemma restamped_records xs ys :
  Forall2 (fun x y => exists now, y = restamped_item x now) xs ys -> records ys.
Proof.
  induction 1 as [|x y xs ys [now ->] _ IH]; constructor;
    [apply restamped_item_record | exact IH].
Qed.

(** Property X13. The store keeps plain objects: when its data are records,
    they still are after [create], [update], [delete] and [clear]; after
    [bulkUpdate] they are whatever the items were, as every item is copied
    into a new object; after [import] they are when the data of the snapshot
    are, as [import] takes the elements as they come. *)
Theorem records_are_kept s w :
  records (data s) ->
  (forall d, records (data (store_after (create d) s w))) /\
  (forall id u, records (data (store_after (update id u) s w))) /\
  (forall id, records (data (store_after (BaseStorage.delete id) s w))) /\
  records (data (store_after clear s w)) /\
  (forall items, records (data (store_after (bulkUpdate items) s w))) /\
  (forall snap merge,
      records (elements (field snap "data")) ->
      records (data (store_after (import snap merge) s w))).
Proof.
  intros Hrec. unfold store_after.
  split; [|split; [|split; [|split; [|split]]]].
  - intros d.
    destruct (create_cases d s w)
      as [(e & w1 & E & _)|(id & c & u & w1 & _ & _ & _ & E)];
      rewrite E; [exact Hrec|].
    cbn zeta. destruct (save_refused _ w1); cbn [fst snd data with_data];
      (apply records_app; [exact Hrec|]);
      (constructor; [apply new_item_record | constructor]).
  - intros id u.
    destruct (update_cases id u s w)
      as [(e & w1 & E & _)|(i & cur & now & _ & _ & _ & E)];
      rewrite E; [exact Hrec|].
    cbn zeta. destruct (save_refused _ _); cbn [fst snd data with_data];
      (apply records_insert; [exact Hrec | apply updated_item_record]).
  - intros id.
    destruct (delete_split id s w) as [(w1 & E & _)|(i & cur & _ & _ & _ & E)];
      rewrite E; [exact Hrec|].
    cbn zeta. destruct (save_refused _ _); cbn [fst snd data with_data];
      apply records_delete, Hrec.
  - fold (store_after clear s w). rewrite clear_data. constructor.
  - intros items.
    destruct (bulkUpdate_split items s w)
      as [(w1 & E & _)|(xs & ys & w1 & _ & HF & _ & E)];
      rewrite E; [exact Hrec|].
    cbn zeta. destruct (save_refused _ _); cbn [fst snd data with_data];
      apply (restamped_records _ _ HF).
  - intros snap merge Hin.
    destruct (import_cases snap merge s w)
      as [(e & w1 & E & _)|(incoming & items' & _ & D & Hm & E)];
      rewrite E; [exact Hrec|].
    rewrite D in Hin. cbn [elements] in Hin.
    assert (records items') as Hrec'.
    { destruct merge.
      - destruct Hm as (ids & added & _ & Hf & ->).
        apply records_app; [exact Hrec|]. apply (records_filter_new _ _ _ Hin Hf).
      - subst items'. exact Hin. }
    cbn zeta. destruct (save_refused _ _); exact Hrec'.
Qed.

(** An instance. *)
Lemma records_are_kept_witness :
  (forall d, records (data (store_after (create d) client_store sample_world))) /\
  (forall id u, records (data (store_after (update id u) client_store sample_world))) /\
  (forall id, records (data (store_after (BaseStorage.delete id) client_store sample_world))) /\
  records (data (store_after clear client_store sample_world)) /\
  (forall items, records (data (store_after (bulkUpdate items) client_store sample_world))) /\
  (forall snap merge,
      records (elements (field snap "data")) ->
      records (data (store_after (import snap merge) client_store sample_world))).
Proof.
  apply (records_are_kept client_store sample_world). compute_done.
Defined.

(** *** When the store throws *)

Lemma _validateData_exact d s w :
  _validateData d (s, w) =
  ((s, w),
   if negb (truthy d) || negb (typeof_object d)
   then Throws (ValidationError "데이터는 객체여야 합니다.")
   else match validate s d with
        | Some msg => Throws (ValidationError msg)
        | None => Returns tt
        end).
Proof.
  unfold _validateData.
  destruct (negb (truthy d) || negb (typeof_object d)); [reflexivity|].
  unfold bind, this. cbn. destruct (validate s d); reflexivity.
Qed.

(** Property X14. The conditions under which the store throws its own
    errors. [update] throws the not-found error exactly when no record has
    the id (in a store of records). [import] throws the format error exactly
    when the snapshot is falsy or its [data] is not an array. With
    validation on, [create] throws a validation error exactly when the data
    are not an object (arrays pass: they are objects to [typeof]) or the
    [validate] of the class rejects them; the check comes before everything
    else. *)
Theorem store_error_conditions s w :
  (records (data s) ->
   forall id u,
     outcome_of (update id u) s w = Throws (NotFoundError id)
     <-> id ∉ map id_of (data s)) /\
  (forall snap merge,
      outcome_of (import snap merge) s w = Throws ImportFormatError
      <-> truthy snap = false \/ isArray (field snap "data") = false) /\
  (validation (options s) = true ->
   forall d,
     (exists msg, outcome_of (create d) s w = Throws (ValidationError msg))
     <-> (truthy d = false \/ typeof_object d = false \/ validate s d <> None)).
Proof.
  split; [|split].
  - intros Hrec id u. unfold outcome_of.
    destruct (findIndex_by_id_records (data s) id Hrec) as [Hn Hs].
    destruct (update_cases id u s w)
      as [(e & w1 & E & _ & _ & Hnf)|(i & cur & now & F & Hi & Hid & E)].
    + rewrite E. cbn [snd]. split.
      * intros [= ->]. intros Hin. destruct (Hs Hin) as (i & r & F & _).
        rewrite (proj2 Hnf eq_refl) in F. discriminate.
      * intros Hnotin. rewrite (proj1 Hnf (Hn Hnotin)). reflexivity.
    + cbn zeta in E. rewrite E. split.
      * destruct (save_refused _ _); discriminate.
      * intros Hnotin. rewrite (Hn Hnotin) in F. discriminate.
  - intros snap merge. unfold outcome_of.
    destruct (import_cases snap merge s w)
      as [(e & w1 & E & _ & _ & Hfmt & _)|(incoming & items' & T & D & _ & E)].
    + rewrite E. cbn [snd]. rewrite <- Hfmt. split; congruence.
    + cbn zeta in E. rewrite E. split.
      * destruct (save_refused _ _); discriminate.
      * intros [H|H]; [congruence | rewrite D in H; discriminate].
  - intros Hval d. unfold outcome_of.
    destruct (create_cases d s w)
      as [(e & w1 & E & _ & _ & Hv)|(id & c & u & w1 & _ & _ & _ & E)].
    + rewrite E. cbn [snd]. split.
      * intros (msg & [= ->]). destruct (Hv msg eq_refl) as [_ H].
        rewrite _validateData_exact in H. cbn [snd] in H.
        destruct (truthy d); [|left; reflexivity].
        destruct (typeof_object d); [|right; left; reflexivity].
        right; right. intros V. rewrite V in H. discriminate.
      * intros Hbad.
        assert (exists msg, snd (create_try d (s, w)) = Throws (ValidationError msg))
          as (msg & Hmsg).
        { unfold create_try. run. rewrite Hval.
          pose proof (_validateData_exact d s w) as Hx.
          destruct (negb (truthy d) || negb (typeof_object d)) eqn:Hobj.
          - erewrite bind_throws by exact Hx. eexists. reflexivity.
          - apply orb_false_iff in Hobj as [Ht Ho].
            apply negb_false_iff in Ht, Ho.
            destruct (validate s d) as [msg|] eqn:V.
            + erewrite bind_throws by exact Hx. eexists. reflexivity.
            + destruct Hbad as [H|[H|H]]; congruence. }
        exists msg. revert E Hmsg. unfold create. rewrite rethrow_exact.
        destruct (create_try d (s, w)) as [[s' w'] [a|e']]; cbn [snd];
          intros E Hmsg; congruence.
    + cbn zeta in E. rewrite E. split.
      * destruct (save_refused _ w1); intros (msg & H); discriminate H.
      * intros Hbad. exfalso.
        assert (exists msg, snd (create_try d (s, w)) = Throws (ValidationError msg))
          as (msg & Hmsg).
        { unfold create_try. run. rewrite Hval.
          pose proof (_validateData_exact d s w) as Hx.
          destruct (negb (truthy d) || negb (typeof_object d)) eqn:Hobj.
          - erewrite bind_throws by exact Hx. eexists. reflexivity.
          - apply orb_false_iff in Hobj as [Ht Ho].
            apply negb_false_iff in Ht, Ho.
            destruct (validate s d) as [msg|] eqn:V.
            + erewrite bind_throws by exact Hx. eexists. reflexivity.
            + destruct Hbad as [H|[H|H]]; congruence. }
        revert E Hmsg. unfold create. rewrite rethrow_exact.
        destruct (create_try d (s, w)) as [[s' w'] [a|e']]; cbn [snd];
          destruct (save_refused _ w1); intros E Hmsg; congruence.
Qed.

(** An instance. *)
Lemma store_error_conditions_witness :
  (exists msg,
      outcome_of (create (VArr [VStr "Acme"])) client_store sample_world
      = Throws (ValidationError msg))
  <-> (truthy (VArr [VStr "Acme"]) = false \/
       typeof_object (VArr [VStr "Acme"]) = false \/
       BaseStorage.validate client_store (VArr [VStr "Acme"]) <> None).
Proof.
  apply (store_error_conditions client_store sample_world). reflexivity.
Defined.

(** *** Replacing all records *)

Lemma mapM_bulkUpdate_item_exact xs s w w1 ys :
  mapM bulkUpdate_item xs (s, w) = ((s, w1), Returns ys) ->
  ys = imap (fun i x =>
               restamped_item x (toISOString w (clock w (clockReads w + i)))) xs.
Proof.
  revert w w1 ys. induction xs as [|x xs IH]; intros w w1 ys; cbn [mapM].
  - intros [= <- <-]. reflexivity.
  - destruct (bulkUpdate_item_run x s w) as [[msg E]|E].
    + erewrite bind_throws by exact E. discriminate.
    + erewrite bind_run by exact E.
      destruct (mapM bulkUpdate_item xs (s, tick_clock w)) as [[s' w'] [zs|e]] eqn:R.
      * assert (s' = s) as ->.
        { destruct (mapM_bulkUpdate_item_split xs s (tick_clock w))
            as [(w2 & msg & E' & _)|(w2 & ys' & E' & _)]; congruence. }
        erewrite bind_run by exact R. intros [= <- <-].
        rewrite (IH _ _ _ R). cbn [imap]. rewrite Nat.add_0_r. f_equal.
        apply imap_ext. intros i y _. cbn. f_equal. f_equal. f_equal. lia.
      * erewrite bind_throws by exact R. discriminate.
Qed.

Lemma restamped_item_field x now k :
  is_record x = true -> k <> "updatedAt" ->
  field (restamped_item x now) k = field x k.
Proof.
  intros H Hk. destruct (record_inv _ H) as (ps & -> & Hnd).
  unfold restamped_item, spread. cbn [own_props].
  rewrite obj_assign_nil by exact Hnd. rewrite !field_obj.
  rewrite obj_get_set_ne by congruence. reflexivity.
Qed.

(** Property X15. [bulkUpdate] does not update records in place: when it
    returns [true], the store holds a copy of each item given, in the order
    given, and none of the records it held before. The copy of the item at
    index [i] carries the clock reading number [i] of the call as its
    [updatedAt]; its other fields are those of the item when the item is a
    record. An argument that is not an array gives [false] and changes
    nothing. *)
Theorem bulkUpdate_replaces_all s w :
  (forall xs,
      outcome_of (bulkUpdate (VArr xs)) s w = Returns true ->
      data (store_after (bulkUpdate (VArr xs)) s w)
      = imap (fun i x =>
                restamped_item x (toISOString w (clock w (clockReads w + i)))) xs /\
      forall i x k,
        xs !! i = Some x -> is_record x = true -> k <> "updatedAt" ->
        exists y, data (store_after (bulkUpdate (VArr xs)) s w) !! i = Some y /\
                  field y k = field x k) /\
  (forall v,
      isArray v = false ->
      outcome_of (bulkUpdate v) s w = Returns false /\
      store_after (bulkUpdate v) s w = s).
Proof.
  split.
  - intros xs Hret.
    assert (data (store_after (bulkUpdate (VArr xs)) s w)
            = imap (fun i x =>
                      restamped_item x (toISOString w (clock w (clockReads w + i)))) xs)
      as Hd.
    { revert Hret. unfold outcome_of, store_after, bulkUpdate. run.
      unfold try_catch, bulkUpdate_try.
      destruct (mapM bulkUpdate_item xs (s, w)) as [[s' w'] [ys|e]] eqn:R.
      - assert (s' = s) as ->.
        { destruct (mapM_bulkUpdate_item_split xs s w)
            as [(w2 & msg & E' & _)|(w2 & ys' & E' & _)]; congruence. }
        erewrite bind_run by exact R. run.
        change (bind _save (fun _ => bind (_notifyListeners "bulkUpdate" (VArr ys))
                                       (fun _ => ret true)))
          with (save_and_notify "bulkUpdate" (VArr ys) true).
        rewrite save_and_notify_exact.
        destruct (save_refused _ w'); cbn [fst snd]; [discriminate|]. intros _.
        cbn [data with_data]. apply (mapM_bulkUpdate_item_exact _ _ _ _ _ R).
      - erewrite bind_throws by exact R. cbn. discriminate. }
    split; [exact Hd|]. intros i x k Hi Hx Hk. rewrite Hd.
    eexists. split.
    + rewrite list_lookup_imap, Hi. reflexivity.
    + apply restamped_item_field; assumption.
  - intros v Hv. unfold outcome_of, store_after, bulkUpdate. run.
    unfold try_catch, bulkUpdate_try. destruct v; try discriminate; split; reflexivity.
Qed.

(** An instance. *)
Lemma bulkUpdate_replaces_all_witness :
  data (store_after (bulkUpdate (VArr [client_created; client_c1]))
          client_store sample_world)
  = imap (fun i x =>
            restamped_item x
              (toISOString sample_world
                 (clock sample_world (clockReads sample_world + i))))
      [client_created; client_c1] /\
  forall i x k,
    [client_created; client_c1] !! i = Some x -> is_record x = true ->
    k <> "updatedAt" ->
    exists y,
      data (store_after (bulkUpdate (VArr [client_created; client_c1]))
              client_store sample_world) !! i = Some y /\
      field y k = field x k.
Proof.
  apply (bulkUpdate_replaces_all client_store sample_world).
  vm_compute. reflexivity.
Defined.

(** *** Loading *)

Lemma _loadData_exact s w :
  _loadData (s, w) =
  let failed e :=
    ((s, with_console (console w ++ [(tagged s "데이터 로드 오류:", e)]) w),
     Returns (Some (VArr []))) in
  match localStorage w !! save_key s w with
  | None => ((s, w), Returns (Some (VArr [])))
  | Some text =>
      if String.eqb text EmptyString then ((s, w), Returns (Some (VArr [])))
      else
        match JSON_parse text with
        | Unrepresentable => ((s, w), Returns None)
        | SyntaxError => failed JsonSyntaxError
        | Parsed parsed =>
            if compression (options s) then
              match get_prop parsed "_compressed" with
              | Throws e => failed e
              | Returns c =>
                  if truthy c then
                    match get_prop parsed "data" with
                    | Throws e => failed e
                    | Returns d =>
                        match _decompress d (s, w) with
                        | (st, Returns r) => (st, Returns r)
                        | ((s', w'), Throws e) =>
                            ((s', with_console
                                    (console w' ++ [(tagged s "데이터 로드 오류:", e)])
                                    w'), Returns (Some (VArr [])))
                        end
                    end
                  else ((s, w), Returns (Some (if isArray parsed then parsed else VArr [])))
              end
            else ((s, w), Returns (Some (if isArray parsed then parsed else VArr [])))
        end
  end.
Proof.
  cbn zeta. unfold _loadData. run. unfold try_catch. run.
  unfold localStorage_getItem. run. fold (save_key s w).
  destruct (localStorage w !! save_key s w) as [text|]; [|reflexivity].
  cbn [truthy negb ToString].
  destruct (String.eqb text EmptyString); [reflexivity|]. cbn [negb].
  destruct (JSON_parse text) as [parsed| |]; try reflexivity.
  destruct (compression (options s)).
  - unfold lift at 1. unfold bind at 1.
    destruct (get_prop parsed "_compressed") as [c|e]; [|reflexivity].
    destruct (truthy c); [|reflexivity].
    unfold lift at 1. unfold bind at 1.
    destruct (get_prop parsed "data") as [d|e]; [|reflexivity].
    destruct (_decompress d (s, w)) as [[s' w'] [r|e]]; reflexivity.
  - run1. reflexivity.
Qed.

Lemma _decompress_platform d s w :
  exists w' r, _decompress d (s, w) = ((s, w'), Returns r) /\ same_platform w w'.
Proof.
  unfold _decompress. destruct (JSON_parse (ToString d)).
  - do 2 eexists. split; [reflexivity | platform].
  - do 2 eexists. unfold bind, console_error, bind, world, set_world, ret. cbn.
    split; [reflexivity | platform].
  - do 2 eexists. split; [reflexivity | platform].
Qed.

(** The text of the records, as [_save] writes it without compression. *)
Lemma save_text_plain s :
  compression (options s) = false ->
  json_value (VArr (data s)) = true ->
  String.eqb (save_text s) EmptyString = false /\
  JSON_parse (save_text s) = Parsed (VArr (data s)).
Proof.
  intros Hc Hj. unfold save_text. rewrite Hc.
  destruct (JSON_parse_stringify _ Hj) as (text & Hs & Hp). rewrite Hs.
  cbn [default from_option]. split; [|exact Hp].
  cbn in Hs. injection Hs as <-. reflexivity.
Qed.

(** The text that [_save] writes with compression: an object that holds the
    text of the records as a string. *)
Lemma save_text_compressed s :
  compression (options s) = true ->
  exists inner,
    JSON_stringify (VArr (data s)) = Some inner /\
    String.eqb (save_text s) EmptyString = false /\
    JSON_parse (save_text s)
    = Parsed (VObj [("_compressed", VBool true); ("data", VStr inner)]).
Proof.
  intros Hc. unfold save_text. rewrite Hc. unfold _compress.
  assert (exists inner, JSON_stringify (VArr (data s)) = Some inner) as (inner & Hi)
      by (eexists; reflexivity).
  exists inner. split; [exact Hi|]. rewrite Hi.
  destruct (JSON_parse_stringify
              (VObj [("_compressed", VBool true); ("data", VStr inner)]) eq_refl)
    as (text & Hs & Hp).
  rewrite Hs. cbn [default from_option]. split; [|exact Hp].
  cbn in Hs. injection Hs as <-. reflexivity.
Qed.

Lemma reload_from_text s s0 w :
  storageKey s0 = storageKey s ->
  compression (options s0) = compression (options s) ->
  json_value (VArr (data s)) = true ->
  localStorage w !! save_key s w = Some (save_text s) ->
  _loadData (s0, w) = ((s0, w), Returns (Some (VArr (data s)))).
Proof.
  intros Hk Hc Hj Hl. rewrite _loadData_exact. cbn zeta.
  assert (save_key s0 w = save_key s w) as -> by (unfold save_key; rewrite Hk; reflexivity).
  rewrite Hl. destruct (compression (options s)) eqn:C.
  - destruct (save_text_compressed s C) as (inner & Hi & Hne & Hp).
    rewrite Hne, Hp, Hc. cbn [get_prop obj_get String.eqb Ascii.eqb Bool.eqb default
                                from_option truthy].
    cbn. unfold _decompress. cbn [ToString].
    destruct (JSON_parse_stringify _ Hj) as (text & Hs & Hp').
    rewrite Hi in Hs. injection Hs as <-. rewrite Hp'. reflexivity.
  - destruct (save_text_plain s C Hj) as (Hne & Hp).
    rewrite Hne, Hp, Hc. reflexivity.
Qed.

(** Writing again what is there changes nothing. *)
Lemma save_again s s' w :
  save_key s' w = save_key s w -> save_text s' = save_text s ->
  localStorage w !! save_key s w = Some (save_text s) ->
  localStorage (world_after _save s' w) = localStorage w.
Proof.
  intros Hk Ht Hl. unfold world_after. rewrite _save_run, Hk, Ht.
  destruct (setItemRefused _ _ _ _); cbn [fst snd localStorage with_localStorage
                                            with_console]; [reflexivity|].
  apply insert_id, Hl.
Qed.

(** Property X16. What is saved is read back. When the records of a store
    are values that JSON represents and [_save] has gone through, a store
    constructed afterwards under the same name and with the same
    [compression] option holds exactly these records, in the same order, and
    has no listener. The construction leaves [localStorage], the console and
    the calls made as they are; it adds one handler to the [beforeunload]
    event of the window when the [autoSave] option is on, a call of [_save]
    on the new store, and none otherwise. On a store that has not changed
    since, the handler leaves [localStorage] as it is. This holds with
    compression on and off. *)
Theorem reload_after_save s w opts hook :
  json_value (VArr (data s)) = true ->
  compression (options_of opts) = compression (options s) ->
  outcome_of _save s w = Returns tt ->
  let s' := with_data (data s) (under_construction (storageKey s) opts hook) in
  let w' := world_after _save s w in
  constructor (storageKey s) opts hook w'
  = Some (s', w', if autoSave (options_of opts) then [_save] else []) /\
  data s' = data s /\ listeners s' = [] /\
  forall handler,
    handler ∈ _setupAutoSave s' ->
    localStorage (world_after handler s' w') = localStorage w'.
Proof.
  intros Hj Hc Hsaved. cbn zeta.
  assert (localStorage (world_after _save s w) !! save_key s (world_after _save s w)
          = Some (save_text s)) as Hl.
  { revert Hsaved. unfold outcome_of, world_after. rewrite _save_run.
    destruct (setItemRefused _ _ _ _); cbn [fst snd]; [discriminate|]. intros _.
    cbn [localStorage with_localStorage].
    change (save_key s (with_localStorage _ w)) with (save_key s w).
    apply lookup_insert_eq. }
  split; [|split; [reflexivity|split; [reflexivity|]]].
  - unfold constructor.
    rewrite (reload_from_text s); [reflexivity | reflexivity | exact Hc | exact Hj | exact Hl].
  - intros handler Hh. unfold _setupAutoSave in Hh.
    destruct (autoSave _); [|inversion Hh].
    apply list_elem_of_singleton in Hh as ->.
    apply (save_again s); [reflexivity | | exact Hl].
    unfold save_text. cbn [options with_data under_construction data].
    rewrite Hc. reflexivity.
Qed.

(** An instance. *)
Lemma reload_after_save_witness :
  let s' := with_data (data compressing_store)
              (under_construction (storageKey compressing_store)
                 (VObj [("compression", VBool true)]) ClientStorage.validate) in
  let w' := world_after _save compressing_store sample_world in
  constructor (storageKey compressing_store) (VObj [("compression", VBool true)])
    ClientStorage.validate w'
  = Some (s', w',
          if autoSave (options_of (VObj [("compression", VBool true)]))
          then [_save] else []) /\
  data s' = data compressing_store /\ listeners s' = [] /\
  forall handler,
    handler ∈ _setupAutoSave s' ->
    localStorage (world_after handler s' w') = localStorage w'.
Proof.
  apply (reload_after_save compressing_store sample_world).
  - vm_compute. reflexivity.
  - reflexivity.
  - vm_compute. reflexivity.
Defined.

(** Property X17. The construction of a store never fails on what it finds
    in [localStorage]: [_loadData] never throws and writes nothing. With
    nothing stored under the key, or the empty text, the store starts empty;
    with a text that is not JSON it starts empty and the error goes to the
    console; with a JSON text that is not an array (and compression off) it
    starts empty without a word. *)
Theorem construction_edge_cases key opts hook w :
  let s0 := under_construction key opts hook in
  (exists r w', _loadData (s0, w) = ((s0, w'), Returns r) /\ same_platform w w') /\
  (localStorage w !! save_key s0 w = None \/
   localStorage w !! save_key s0 w = Some EmptyString ->
   constructor key opts hook w = Some (s0, w, _setupAutoSave s0)) /\
  (forall text,
      localStorage w !! save_key s0 w = Some text ->
      text <> EmptyString -> JSON_parse text = SyntaxError ->
      constructor key opts hook w
      = Some (s0,
              with_console
                (console w ++ [(tagged s0 "데이터 로드 오류:", JsonSyntaxError)]) w,
              _setupAutoSave s0)) /\
  (forall text v,
      localStorage w !! save_key s0 w = Some text ->
      JSON_parse text = Parsed v -> isArray v = false ->
      compression (options_of opts) = false ->
      constructor key opts hook w = Some (s0, w, _setupAutoSave s0)).
Proof.
  cbn zeta. set (s0 := under_construction key opts hook).
  split; [|split; [|split]].
  - rewrite _loadData_exact. cbn zeta.
    destruct (localStorage w !! save_key s0 w) as [text|];
      [|do 2 eexists; split; [reflexivity | platform]].
    destruct (String.eqb text EmptyString);
      [do 2 eexists; split; [reflexivity | platform]|].
    destruct (JSON_parse text) as [parsed| |];
      try (do 2 eexists; split; [reflexivity | platform]).
    destruct (compression (options s0));
      [|do 2 eexists; split; [reflexivity | platform]].
    destruct (get_prop parsed "_compressed") as [c|e];
      [|do 2 eexists; split; [reflexivity | platform]].
    destruct (truthy c); [|do 2 eexists; split; [reflexivity | platform]].
    destruct (get_prop parsed "data") as [d|e];
      [|do 2 eexists; split; [reflexivity | platform]].
    destruct (_decompress_platform d s0 w) as (w' & r & E & Hp). rewrite E.
    do 2 eexists. split; [reflexivity | exact Hp].
  - intros H. unfold constructor. fold s0. rewrite _loadData_exact. cbn zeta.
    destruct H as [-> | ->]; reflexivity.
  - intros text Hl Hne Hp. unfold constructor. fold s0.
    rewrite _loadData_exact. cbn zeta. rewrite Hl.
    apply String.eqb_neq in Hne. rewrite Hne, Hp. reflexivity.
  - intros text v Hl Hp Hv Hc. unfold constructor. fold s0.
    rewrite _loadData_exact. cbn zeta. rewrite Hl.
    destruct (String.eqb text EmptyString); [reflexivity|]. rewrite Hp.
    change (compression (options s0)) with (compression (options_of opts)).
    rewrite Hc, Hv. reflexivity.
Qed.

(** An instance. *)
Lemma construction_edge_cases_witness :
  constructor "clients" VUndef ClientStorage.validate sample_world
  = Some (under_construction "clients" VUndef ClientStorage.validate, sample_world,
          _setupAutoSave (under_construction "clients" VUndef ClientStorage.validate)).
Proof.
  apply (construction_edge_cases "clients" VUndef ClientStorage.validate sample_world).
  left. reflexivity.
Defined.

(** Property X18. The [compression] option must be the one the data were
    saved with. Records saved with compression and loaded without it are
    lost without a word: the store starts empty, as the text saved is an
    object and not an array. Records saved without compression are read by a
    store with compression on. *)
Theorem compression_mismatch s w opts hook :
  outcome_of _save s w = Returns tt ->
  (compression (options s) = true -> compression (options_of opts) = false ->
   constructor (storageKey s) opts hook (world_after _save s w)
   = Some (under_construction (storageKey s) opts hook, world_after _save s w,
           _setupAutoSave (under_construction (storageKey s) opts hook))) /\
  (compression (options s) = false -> compression (options_of opts) = true ->
   json_value (VArr (data s)) = true ->
   constructor (storageKey s) opts hook (world_after _save s w)
   = Some (with_data (data s) (under_construction (storageKey s) opts hook),
           world_after _save s w,
           _setupAutoSave (under_construction (storageKey s) opts hook))).
Proof.
  unfold outcome_of, world_after. rewrite _save_run.
  destruct (setItemRefused _ _ _ _); cbn [fst snd]; [discriminate|]. intros _.
  set (w' := with_localStorage _ w).
  assert (localStorage w' !! save_key (under_construction (storageKey s) opts hook) w'
          = Some (save_text s)) as Hl.
  { subst w'. cbn [localStorage with_localStorage].
    change (save_key _ (with_localStorage _ w)) with (save_key s w).
    apply lookup_insert_eq. }
  split.
  - intros C C0. unfold constructor. rewrite _loadData_exact. cbn zeta. rewrite Hl.
    destruct (save_text_compressed s C) as (inner & _ & Hne & Hp).
    rewrite Hne, Hp.
    change (compression (options (under_construction (storageKey s) opts hook)))
      with (compression (options_of opts)).
    rewrite C0. reflexivity.
  - intros C C0 Hj. unfold constructor. rewrite _loadData_exact. cbn zeta. rewrite Hl.
    destruct (save_text_plain s C Hj) as (Hne & Hp).
    rewrite Hne, Hp.
    change (compression (options (under_construction (storageKey s) opts hook)))
      with (compression (options_of opts)).
    rewrite C0. reflexivity.
Qed.

(** An instance. *)
Lemma compression_mismatch_witness :
  constructor (storageKey compressing_store) VUndef ClientStorage.validate
    (world_after _save compressing_store sample_world)
  = Some (under_construction (storageKey compressing_store) VUndef
            ClientStorage.validate,
          world_after _save compressing_store sample_world,
          _setupAutoSave (under_construction (storageKey compressing_store) VUndef
                            ClientStorage.validate)).
Proof.
  apply (compression_mismatch compressing_store sample_world).
  - vm_compute. reflexivity.
  - reflexivity.
  - reflexivity.
Defined.

(** *** The fields of the records *)

Lemma new_item_field d id c u k :
  is_record d = true -> k <> "id" -> k <> "createdAt" -> k <> "updatedAt" ->
  field (new_item d id c u) k = field d k.
Proof.
  intros H Hid Hc Hu. destruct (record_inv _ H) as (ps & -> & Hnd).
  unfold new_item, spread. cbn [own_props].
  rewrite obj_assign_nil by exact Hnd. rewrite !field_obj.
  rewrite !obj_get_set_ne by congruence. reflexivity.
Qed.

Lemma new_item_updatedAt d id c u : field (new_item d id c u) "updatedAt" = VStr u.
Proof. unfold new_item. rewrite field_obj, obj_get_set_eq. reflexivity. Qed.

(** Property X19. The record that a successful [create] returns has the
    fields of the data given, apart from the three that the store sets: its
    [id] is the id of the data when that is truthy and the id that
    [_generateId] makes otherwise; its [createdAt] and [updatedAt] are the
    two readings of the clock that follow, so that they need not be equal. *)
Theorem create_keeps_given_fields s w d r :
  is_record d = true ->
  outcome_of (create d) s w = Returns r ->
  (forall k, k <> "id" -> k <> "createdAt" -> k <> "updatedAt" ->
             field r k = field d k) /\
  (truthy (field d "id") = true -> id_of r = field d "id") /\
  (truthy (field d "id") = false -> id_of r = VStr (generated_id w)) /\
  exists n,
    n = (if truthy (field d "id") then clockReads w else S (clockReads w)) /\
    field r "createdAt" = VStr (toISOString w (clock w n)) /\
    field r "updatedAt" = VStr (toISOString w (clock w (S n))).
Proof.
  intros Hd. unfold outcome_of.
  destruct (create_cases d s w)
    as [(e & w1 & E & _)|(id & c & u & w1 & _ & (n & -> & -> & Hid) & _ & E)];
    rewrite E; cbn [snd]; [discriminate|].
  destruct (save_refused _ w1); cbn [snd]; [discriminate|]. intros [= <-].
  split; [intros k; apply new_item_field, Hd|].
  unfold id_of. rewrite new_item_id, new_item_createdAt, new_item_updatedAt.
  destruct (truthy (field d "id")); destruct Hid as [-> ->].
  - split; [reflexivity|]. split; [discriminate|]. eexists. repeat split.
  - split; [discriminate|]. split; [reflexivity|]. eexists. repeat split.
Qed.

(** An instance. *)
Lemma create_keeps_given_fields_witness :
  (forall k, k <> "id" -> k <> "createdAt" -> k <> "updatedAt" ->
             field client_created k = field client_data k) /\
  (truthy (field client_data "id") = true ->
   id_of client_created = field client_data "id") /\
  (truthy (field client_data "id") = false ->
   id_of client_created = VStr (generated_id sample_world)) /\
  exists n,
    n = (if truthy (field client_data "id")
         then clockReads sample_world else S (clockReads sample_world)) /\
    field client_created "createdAt"
    = VStr (toISOString sample_world (clock sample_world n)) /\
    field client_created "updatedAt"
    = VStr (toISOString sample_world (clock sample_world (S n))).
Proof.
  apply (create_keeps_given_fields client_store sample_world client_data client_created).
  - reflexivity.
  - vm_compute. reflexivity.
Defined.

(** Property X20. The record that a successful [update] returns is the
    record of the store under that id with the fields of the partial laid
    over it: a field of the partial, present with whatever value, replaces
    the field of the record, and a field that the partial lacks is kept. Its
    [id] is the id asked for and its [updatedAt] the reading of the clock,
    whatever the partial says of the two. *)
Theorem update_merges_fields s w id partial r' :
  records (data s) -> is_record partial = true ->
  outcome_of (update id partial) s w = Returns r' ->
  exists i r,
    data s !! i = Some r /\ id_of r = id /\
    data (store_after (update id partial) s w) !! i = Some r' /\
    field r' "id" = id /\
    field r' "updatedAt" = VStr (toISOString w (clock w (clockReads w))) /\
    forall k, k <> "id" -> k <> "updatedAt" ->
              field r' k = match obj_get (own_props partial) k with
                           | Some v => v
                           | None => field r k
                           end.
Proof.
  intros Hrec Hp Hret.
  destruct (update_returns _ _ _ _ _ Hret) as (i & r & _ & Hi & Hid & -> & Hd & _).
  exists i, r. split; [exact Hi|]. split; [exact Hid|].
  split; [rewrite Hd; apply list_lookup_insert_eq, (lookup_lt_Some _ _ _ Hi)|].
  split; [apply updated_item_id|].
  split; [apply updated_item_updatedAt|].
  intros k Hk1 Hk2.
  destruct (obj_get (own_props partial) k) as [v|] eqn:G.
  - apply updated_item_field_taken; assumption.
  - apply updated_item_field_kept; try assumption.
    apply (records_lookup _ _ _ Hrec Hi).
Qed.

(** An instance. *)
Lemma update_merges_fields_witness :
  exists i r,
    data client_store !! i = Some r /\ id_of r = VStr "c1" /\
    data (store_after (update (VStr "c1")
                         (VObj [("phone", VStr "02-555"); ("id", VStr "zz")]))
            client_store sample_world) !! i
    = Some client_updated /\
    field client_updated "id" = VStr "c1" /\
    field client_updated "updatedAt"
    = VStr (toISOString sample_world (clock sample_world (clockReads sample_world))) /\
    forall k, k <> "id" -> k <> "updatedAt" ->
              field client_updated k
              = match obj_get (own_props (VObj [("phone", VStr "02-555");
                                                ("id", VStr "zz")])) k with
                | Some v => v
                | None => field r k
                end.
Proof.
  apply (update_merges_fields client_store sample_world (VStr "c1")
           (VObj [("phone", VStr "02-555"); ("id", VStr "zz")]) client_updated).
  - compute_done.
  - reflexivity.
  - vm_compute. reflexivity.
Defined.

(** * The client store *)

(** ** What [validate] accepts *)

Lemma ascii_of_code c n : (N_of_ascii c =? n)%N = true -> c = ascii_of_N n.
Proof. intros H. apply N.eqb_eq in H. rewrite <- H. symmetry. apply ascii_N_embedding. Qed.

Lemma all_chars_app p a b :
  ClientStorage.all_chars p (a +:+ b)
  = ClientStorage.all_chars p a && ClientStorage.all_chars p b.
Proof.
  induction a as [|c a IH]; cbn; [reflexivity|]. rewrite IH. apply andb_assoc.
Qed.

Lemma split_at_found s before after :
  ClientStorage.split_at s = (before, Some after) ->
  s = before +:+ String "@" after.
Proof.
  revert before. induction s as [|c s IH]; cbn; intros before; [discriminate|].
  destruct (N_of_ascii c =? 64)%N eqn:E.
  - intros [= <- <-]. apply ascii_of_code in E. subst c. reflexivity.
  - destruct (ClientStorage.split_at s) as [b a]. intros [= <- ->]. cbn.
    rewrite (IH b eq_refl). reflexivity.
Qed.

Lemma split_at_plain a rest :
  ClientStorage.all_chars ClientStorage.is_plain a = true ->
  ClientStorage.split_at (a +:+ String "@" rest) = (a, Some rest).
Proof.
  induction a as [|c a IH]; cbn; [reflexivity|].
  intros H. apply andb_true_iff in H as [Hc Ha].
  unfold ClientStorage.is_plain in Hc. apply andb_true_iff in Hc as [_ Hc].
  apply negb_true_iff in Hc. rewrite Hc, (IH Ha). reflexivity.
Qed.

Lemma dot_inside_form t :
  ClientStorage.dot_inside t = true <->
  exists b c, t = b +:+ String "." c /\ b <> EmptyString /\ c <> EmptyString.
Proof.
  split.
  - induction t as [|x t IH]; [discriminate|].
    destruct t as [|c [|y r]]; try discriminate.
    change (ClientStorage.dot_inside (String x (String c (String y r))))
      with ((N_of_ascii c =? 46)%N || ClientStorage.dot_inside (String c (String y r))).
    destruct (N_of_ascii c =? 46)%N eqn:E.
    + intros _. apply ascii_of_code in E. subst c.
      exists (String x EmptyString), (String y r). repeat split; discriminate.
    + intros H. destruct (IH H) as (b & c' & Ht & Hb & Hc).
      exists (String x b), c'. cbn. rewrite Ht. repeat split; [discriminate | exact Hc].
  - intros (b & c & -> & Hb & Hc).
    induction b as [|x b IH]; [congruence|]. clear Hb.
    destruct c as [|y r]; [congruence|].
    destruct b as [|c0 b].
    + reflexivity.
    + change (String x (String c0 b) +:+ String "." (String y r))
        with (String x (String c0 (b +:+ String "." (String y r)))).
      destruct (b +:+ String "." (String y r)) as [|z rest] eqn:Eb.
      { destruct b; discriminate. }
      change (ClientStorage.dot_inside (String x (String c0 (String z rest))))
        with ((N_of_ascii c0 =? 46)%N
              || ClientStorage.dot_inside (String c0 (String z rest))).
      rewrite <- Eb.
      change (String c0 (b +:+ String "." (String y r)))
        with (String c0 b +:+ String "." (String y r)).
      rewrite IH by discriminate. apply orb_true_r.
Qed.

Lemma emailRegex_test_form s :
  ClientStorage.emailRegex_test s = true <-> ClientStorage.email_form s.
Proof.
  unfold ClientStorage.emailRegex_test, ClientStorage.email_form. split.
  - destruct (ClientStorage.split_at s) as [before [after|]] eqn:E; [|discriminate].
    rewrite !andb_true_iff, negb_true_iff. intros [[[Hne Hb] Ha] Hd].
    apply split_at_found in E. apply dot_inside_form in Hd as (b & c & -> & Hnb & Hnc).
    rewrite all_chars_app in Ha. apply andb_true_iff in Ha as [Hpb Hpc].
    cbn in Hpc. apply andb_true_iff in Hpc as [_ Hpc].
    exists before, b, c. subst s. repeat split; try assumption.
    apply String.eqb_neq, Hne.
  - intros (a & b & c & -> & Ha & Hb & Hc & Hpa & Hpb & Hpc).
    rewrite (split_at_plain _ _ Hpa).
    rewrite !andb_true_iff, negb_true_iff. repeat split.
    + apply String.eqb_neq, Ha.
    + exact Hpa.
    + rewrite all_chars_app, Hpb. cbn. rewrite Hpc. reflexivity.
    + apply dot_inside_form. exists b, c. repeat split; assumption.
Qed.

Lemma phoneRegex_test_form s :
  ClientStorage.phoneRegex_test s = true <-> ClientStorage.phone_form s.
Proof.
  unfold ClientStorage.phoneRegex_test, ClientStorage.phone_form.
  rewrite andb_true_iff, negb_true_iff, String.eqb_neq. reflexivity.
Qed.

Lemma missing_fields_none d :
  ClientStorage.missing_fields d = [] <->
  forall f, f ∈ ClientStorage.required -> truthy (field d f) = true.
Proof.
  unfold ClientStorage.missing_fields. split.
  - intros H f Hin. destruct (truthy (field d f)) eqn:T; [reflexivity|].
    assert (In f (List.filter (fun f => negb (truthy (field d f))) ClientStorage.required))
      as Hf by (apply filter_In; split; [apply list_elem_of_In, Hin | rewrite T; reflexivity]).
    rewrite H in Hf. inversion Hf.
  - intros H.
    destruct (List.filter _ ClientStorage.required) as [|f fs] eqn:F; [reflexivity|].
    assert (In f (f :: fs)) as Hin by (left; reflexivity).
    rewrite <- F in Hin. apply filter_In in Hin as [Hin Hf].
    rewrite (H f) in Hf by (apply list_elem_of_In, Hin). discriminate.
Qed.

(** Property X21. What the client store accepts. [validate] lets the data
    through exactly when the four required fields are truthy, the e-mail
    address (read as a string) consists of three non-empty runs of
    characters that are neither white space nor at signs, with an at sign
    after the first and a dot after the second, and the telephone number
    (read as a string) is a non-empty run of digits, white space and the
    characters [- + ( ) .]. *)
Theorem validate_accepts_exactly d :
  ClientStorage.validate d = None <->
  (forall f, f ∈ ClientStorage.required -> truthy (field d f) = true) /\
  ClientStorage.email_form (ToString (field d "email")) /\
  ClientStorage.phone_form (ToString (field d "phone")).
Proof.
  rewrite <- missing_fields_none, <- emailRegex_test_form, <- phoneRegex_test_form.
  unfold ClientStorage.validate.
  destruct (ClientStorage.missing_fields d) as [|f fs].
  - destruct (ClientStorage.emailRegex_test _); cbn [negb].
    + destruct (ClientStorage.phoneRegex_test _); cbn [negb].
      * split; [intros _; repeat split | reflexivity].
      * split; [discriminate | intros (_ & _ & H); discriminate H].
    + split; [discriminate | intros (_ & H & _); discriminate H].
  - split; [discriminate | intros (H & _); discriminate H].
Qed.

(** An instance. *)
Lemma validate_accepts_exactly_witness : ClientStorage.validate client_data = None.
Proof.
  apply (validate_accepts_exactly client_data). split; [|split].
  - intros f Hf. unfold ClientStorage.required in Hf.
    repeat (apply elem_of_cons in Hf as [->|Hf]; [reflexivity|]). inversion Hf.
  - exists "lee", "bolt", "kr". repeat split; discriminate.
  - split; [discriminate | reflexivity].
Defined.

(** ** The queries *)

Lemma prefix_form q s :
  String.prefix q s = true <-> exists after, s = q +:+ after.
Proof.
  revert s. induction q as [|c q IH]; intros s.
  - split; [intros _; exists s; reflexivity | destruct s; reflexivity].
  - destruct s as [|d s]; cbn;
      [split; [discriminate | intros (a & H); discriminate H]|].
    destruct (Ascii.ascii_dec c d) as [->|Hne].
    + rewrite IH. split; intros (a & H); exists a; congruence.
    + split; [discriminate | intros (a & H); congruence].
Qed.

Lemma includes_occurs s q :
  ClientStorage.includes s q = true <-> ClientStorage.occurs_in q s.
Proof.
  unfold ClientStorage.occurs_in. induction s as [|c s IH]; cbn [ClientStorage.includes].
  - rewrite orb_false_r, prefix_form. split.
    + intros (a & H). exists EmptyString, a. exact H.
    + intros ([|x b] & a & H); [exists a; exact H | discriminate H].
  - rewrite orb_true_iff, prefix_form, IH. split.
    + intros [(a & H)|(b & a & H)].
      * exists EmptyString, a. exact H.
      * exists (String c b), a. cbn. rewrite H. reflexivity.
    + intros ([|x b] & a & H).
      * left. exists a. exact H.
      * right. cbn in H. injection H as _ H. exists b, a. exact H.
Qed.

Lemma filter_sublist {A} (p : A -> bool) l : sublist (List.filter p l) l.
Proof.
  induction l as [|x l IH]; cbn; [constructor|].
  destruct (p x); [apply sublist_skip | apply sublist_cons]; exact IH.
Qed.

Lemma getWhere_total (p : value -> bool) predicate s w :
  (forall x, x ∈ data s -> predicate x = Returns (p x)) ->
  getWhere predicate (s, w) = ((s, w), Returns (List.filter p (data s))).
Proof.
  intros Hp. unfold getWhere, bind, try_catch, this, this_data, lift. cbn [fst snd].
  rewrite (filter_pred_total p) by exact Hp. reflexivity.
Qed.

Lemma getWhere_throws predicate s w x e :
  x ∈ data s -> predicate x = Throws e ->
  exists w', getWhere predicate (s, w) = ((s, w'), Returns []) /\ same_platform w w'.
Proof.
  intros Hin Hx. unfold getWhere, bind, try_catch, this, this_data, lift. cbn [fst snd].
  destruct (filter_pred_throws predicate (data s) x e Hin Hx) as (e' & ->).
  eexists. unfold console_error, bind, world, set_world, ret. cbn [fst snd].
  split; [reflexivity | platform].
Qed.

Lemma lower_includes_string prop query r name :
  field r prop = VStr name ->
  ClientStorage.lower_includes prop query r
  = Returns (ClientStorage.includes (ClientStorage.toLowerCase name) query).
Proof.
  intros H. unfold ClientStorage.lower_includes.
  destruct r; try discriminate H. cbn [get_prop and_then]. cbn [field] in H.
  rewrite H. reflexivity.
Qed.

Lemma lower_includes_other prop query r :
  (forall name, field r prop <> VStr name) ->
  ClientStorage.lower_includes prop query r = Throws TypeError.
Proof.
  intros H. unfold ClientStorage.lower_includes.
  destruct r; try reflexivity. cbn [get_prop and_then]. cbn [field] in H.
  destruct (default VUndef (obj_get ps prop)) eqn:E; try reflexivity.
  exfalso. apply (H s eq_refl).
Qed.

(** Property X22. [searchByCompany] looks for the query in the company names
    without regard to case. In a store whose records all have a string as
    their [companyName], it returns the records whose name in lower case
    contains the query in lower case, in the order of the store, and changes
    nothing. One record whose [companyName] is not a string (a number passes
    [validate]) makes it return the empty array for every query. A query
    that is not a string makes it throw. *)
Theorem searchByCompany_result s w :
  (forall q,
      (forall r, r ∈ data s -> exists name, field r "companyName" = VStr name) ->
      exists found,
        ClientStorage.searchByCompany (VStr q) (s, w) = ((s, w), Returns found) /\
        sublist found (data s) /\
        forall r,
          r ∈ found <->
          r ∈ data s /\
          exists name, field r "companyName" = VStr name /\
                       ClientStorage.occurs_in (ClientStorage.toLowerCase q)
                         (ClientStorage.toLowerCase name)) /\
  (forall q r,
      r ∈ data s -> (forall name, field r "companyName" <> VStr name) ->
      outcome_of (ClientStorage.searchByCompany (VStr q)) s w = Returns []) /\
  (forall v,
      (forall q, v <> VStr q) ->
      outcome_of (ClientStorage.searchByCompany v) s w = Throws TypeError).
Proof.
  split; [|split].
  - intros q Hnames.
    set (p := fun r =>
                ClientStorage.includes
                  (ClientStorage.toLowerCase (ToString (field r "companyName")))
                  (ClientStorage.toLowerCase q)).
    exists (List.filter p (data s)). split; [|split].
    + unfold ClientStorage.searchByCompany. cbn [ClientStorage.call_toLowerCase].
      run1. apply getWhere_total. intros r Hr.
      destruct (Hnames r Hr) as (name & Hn).
      rewrite (lower_includes_string _ _ _ _ Hn). unfold p. rewrite Hn. reflexivity.
    + apply filter_sublist.
    + intros r. rewrite list_elem_of_In, filter_In, <- list_elem_of_In. unfold p.
      split.
      * intros [Hr Hp]. split; [exact Hr|].
        destruct (Hnames r Hr) as (name & Hn). exists name. split; [exact Hn|].
        rewrite Hn in Hp. apply includes_occurs, Hp.
      * intros [Hr (name & Hn & Ho)]. split; [exact Hr|].
        rewrite Hn. apply includes_occurs, Ho.
  - intros q r Hr Hbad. unfold outcome_of, ClientStorage.searchByCompany.
    cbn [ClientStorage.call_toLowerCase]. run1.
    destruct (getWhere_throws _ s w r TypeError Hr
                (lower_includes_other "companyName" (ClientStorage.toLowerCase q)
                   r Hbad)) as (w' & -> & _).
    reflexivity.
  - intros v Hv. unfold outcome_of, ClientStorage.searchByCompany.
    destruct v; try reflexivity. exfalso. apply (Hv s0 eq_refl).
Qed.

(** An instance. *)
Lemma searchByCompany_result_witness :
  exists found,
    ClientStorage.searchByCompany (VStr "ACME") (client_store, sample_world)
    = ((client_store, sample_world), Returns found) /\
    sublist found (data client_store) /\
    forall r,
      r ∈ found <->
      r ∈ data client_store /\
      exists name, field r "companyName" = VStr name /\
                   ClientStorage.occurs_in (ClientStorage.toLowerCase "ACME")
                     (ClientStorage.toLowerCase name).
Proof.
  apply (searchByCompany_result client_store sample_world).
  intros r Hr. apply list_elem_of_singleton in Hr. subst r.
  exists "Acme". reflexivity.
Defined.

Lemma head_filter_find {A} (p : A -> bool) l : head (List.filter p l) = List.find p l.
Proof.
  induction l as [|x l IH]; cbn; [reflexivity|]. destruct (p x); [reflexivity | exact IH].
Qed.

Lemma same_email_string e r a :
  field r "email" = VStr a ->
  ClientStorage.same_email (VStr e) r
  = Returns (String.eqb (ClientStorage.toLowerCase a) (ClientStorage.toLowerCase e)).
Proof.
  intros H. unfold ClientStorage.same_email.
  destruct r; try discriminate H. cbn [get_prop and_then]. cbn [field] in H.
  rewrite H. reflexivity.
Qed.

Lemma same_email_other v r :
  (forall a, field r "email" <> VStr a) ->
  ClientStorage.same_email v r = Throws TypeError.
Proof.
  intros H. unfold ClientStorage.same_email.
  destruct r; try reflexivity. cbn [get_prop and_then]. cbn [field] in H.
  destruct (default VUndef (obj_get ps "email")) eqn:E; try reflexivity.
  exfalso. apply (H s eq_refl).
Qed.

(** Property X23. [getByEmail] compares addresses without regard to case. In
    a store whose records all have a string as their [email], it returns the
    first record whose address in lower case is the address asked for in
    lower case, and [null] when there is none; it changes nothing. When some
    record has no string as its [email], it returns [null] whatever is asked
    for, even if another record has the address. *)
Theorem getByEmail_first_match s w :
  (forall e,
      (forall r, r ∈ data s -> exists a, field r "email" = VStr a) ->
      ClientStorage.getByEmail (VStr e) (s, w) =
      ((s, w),
       Returns
         (default VNull
            (List.find
               (fun r => String.eqb
                           (ClientStorage.toLowerCase (ToString (field r "email")))
                           (ClientStorage.toLowerCase e))
               (data s))))) /\
  (forall v r,
      r ∈ data s -> (forall a, field r "email" <> VStr a) ->
      outcome_of (ClientStorage.getByEmail v) s w = Returns VNull).
Proof.
  split.
  - intros e Hmail. unfold ClientStorage.getByEmail.
    erewrite bind_run.
    2:{ apply (getWhere_total
                 (fun r => String.eqb
                             (ClientStorage.toLowerCase (ToString (field r "email")))
                             (ClientStorage.toLowerCase e))).
        intros r Hr. destruct (Hmail r Hr) as (a & Ha).
        rewrite (same_email_string _ _ _ Ha), Ha. reflexivity. }
    rewrite head_filter_find. unfold ret. do 2 f_equal.
    destruct (List.find _ (data s)) as [r|] eqn:F; [|reflexivity].
    apply find_some in F as [Hin _].
    destruct (Hmail r (proj2 (list_elem_of_In _ _) Hin)) as (a & Ha).
    destruct r; try discriminate Ha. reflexivity.
  - intros v r Hr Hbad. unfold outcome_of, ClientStorage.getByEmail.
    destruct (getWhere_throws _ s w r TypeError Hr (same_email_other v r Hbad))
      as (w' & E & _).
    erewrite bind_run by exact E. reflexivity.
Qed.

(** An instance. *)
Lemma getByEmail_first_match_witness :
  ClientStorage.getByEmail (VStr "KIM@Acme.IO") (client_store, sample_world) =
  ((client_store, sample_world),
   Returns
     (default VNull
        (List.find
           (fun r => String.eqb
                       (ClientStorage.toLowerCase (ToString (field r "email")))
                       (ClientStorage.toLowerCase "KIM@Acme.IO"))
           (data client_store)))).
Proof.
  apply (getByEmail_first_match client_store sample_world).
  intros r Hr. apply list_elem_of_singleton in Hr. subst r.
  exists "kim@acme.io". reflexivity.
Defined.

(** A client whose company name is a number passes [validate], and then
    no search by company finds anything, not even the other client. *)
Example numeric_company_name :
  ClientStorage.validate
    (VObj [("companyName", VNum 42); ("contactPerson", VStr "Lee");
           ("email", VStr "lee@bolt.kr"); ("phone", VStr "555")]) = None /\
  outcome_of (ClientStorage.searchByCompany (VStr "acme"))
    (store_of "clients" ClientStorage.validate
       [client_c1;
        VObj [("id", VStr "c2"); ("companyName", VNum 42);
              ("contactPerson", VStr "Lee"); ("email", VStr "lee@bolt.kr");
              ("phone", VStr "555")]])
    sample_world = Returns [].
Proof. split; vm_compute; reflexivity. Qed.

(** * The registry of stores *)

Lemma on_store_run {A} storage (m : BaseStorage.M A) p s s' w' o :
  StorageManager.heap p !! storage = Some s ->
  m (s, StorageManager.platform p) = ((s', w'), o) ->
  StorageManager.on_store storage m p
  = ({| StorageManager.manager := StorageManager.manager p;
        StorageManager.heap := <[storage := s']> (StorageManager.heap p);
        StorageManager.platform := w' |}, o).
Proof. intros Hs Hm. unfold StorageManager.on_store. rewrite Hs, Hm. reflexivity. Qed.

Lemma map_get_set_eq m name storage :
  StorageManager.map_get (StorageManager.map_set m name storage) name = Some storage.
Proof.
  induction m as [|[n r] m IH]; cbn.
  - rewrite String.eqb_refl. reflexivity.
  - destruct (String.eqb n name) eqn:E; cbn.
    + rewrite String.eqb_refl. reflexivity.
    + rewrite E. exact IH.
Qed.

Lemma map_get_set_ne m name storage other :
  other <> name ->
  StorageManager.map_get (StorageManager.map_set m name storage) other
  = StorageManager.map_get m other.
Proof.
  intros Hne. induction m as [|[n r] m IH]; cbn.
  - assert (String.eqb name other = false) as -> by (apply String.eqb_neq; congruence).
    reflexivity.
  - destruct (String.eqb n name) eqn:E; cbn.
    + apply String.eqb_eq in E. subst n.
      assert (String.eqb name other = false) as -> by (apply String.eqb_neq; congruence).
      reflexivity.
    + destruct (String.eqb n other); [reflexivity | exact IH].
Qed.

Lemma map_set_names m name storage :
  map fst (StorageManager.map_set m name storage)
  = if existsb (String.eqb name) (map fst m) then map fst m else map fst m ++ [name].
Proof.
  induction m as [|[n r] m IH]; cbn; [reflexivity|].
  rewrite (String.eqb_sym name n).
  destruct (String.eqb n name) eqn:E; cbn.
  - apply String.eqb_eq in E. subst n. reflexivity.
  - rewrite IH. destruct (existsb _ _); reflexivity.
Qed.

Lemma map_set_NoDup m name storage :
  NoDup (map fst m) -> NoDup (map fst (StorageManager.map_set m name storage)).
Proof.
  rewrite map_set_names. intros Hnd.
  destruct (existsb (String.eqb name) (map fst m)) eqn:E; [exact Hnd|].
  apply NoDup_app. split; [exact Hnd|]. split; [|apply NoDup_singleton].
  intros x Hx Hin. apply list_elem_of_singleton in Hin. subst x.
  apply not_true_iff_false in E. apply E. apply existsb_exists.
  exists name. split; [apply list_elem_of_In, Hx | apply String.eqb_refl].
Qed.

Lemma list_max_le_elem n ns : n ∈ ns -> n <= list_max ns.
Proof.
  intros Hin. pose proof (proj1 (list_max_le ns (list_max ns)) (le_n _)) as H.
  rewrite List.Forall_forall in H. apply H, list_elem_of_In, Hin.
Qed.

Lemma fresh_listener_new p storage s :
  StorageManager.heap p !! storage = Some s ->
  StorageManager.fresh_listener p ∉ map lid (listeners s).
Proof.
  intros Hs Hin. unfold StorageManager.fresh_listener in Hin.
  match type of Hin with S (list_max ?ns) ∈ _ =>
    assert (S (list_max ns) <= list_max ns) as Hle; [|lia];
    apply list_max_le_elem
  end.
  apply elem_of_app. right. apply list_elem_of_In, in_concat.
  exists (map lid (listeners s)). split; [|apply list_elem_of_In, Hin].
  apply in_map_iff. exists s. split; [reflexivity|].
  apply list_elem_of_In, list_elem_of_lookup. exists storage. exact Hs.
Qed.

Lemma sample_page_well_formed : StorageManager.well_formed sample_page.
Proof.
  split.
  - change (NoDup ["clients"; "projects"]). compute_done.
  - change (Forall (fun entry : string * nat => snd entry < 2)
              [("clients", 0); ("projects", 1)]).
    repeat constructor.
Qed.

(** Property X24. [register] puts the store under the name, where [get]
    finds it from then on; the other names keep what they had, and the names
    of the map stay distinct. The store gets one more listener, a new one at
    each call, also when the store is registered already; no other store and
    nothing of the platform changes. [get] on a manager in which nothing was
    registered gives [null]. *)
Theorem register_then_get p name storage s :
  StorageManager.heap p !! storage = Some s ->
  let p' := fst (StorageManager.register name storage p) in
  snd (StorageManager.register name storage p) = Returns tt /\
  snd (StorageManager.get name p') = Returns (Some storage) /\
  (forall other, other <> name ->
     snd (StorageManager.get other p') = snd (StorageManager.get other p)) /\
  (NoDup (map fst (StorageManager.storages (StorageManager.manager p))) ->
   NoDup (map fst (StorageManager.storages (StorageManager.manager p')))) /\
  (exists l, (lid l ∉ map lid (listeners s)) /\
             StorageManager.heap p' !! storage
             = Some (with_listeners (listeners s ++ [l]) s)) /\
  (forall other, other <> storage ->
     StorageManager.heap p' !! other = StorageManager.heap p !! other) /\
  StorageManager.platform p' = StorageManager.platform p /\
  snd (StorageManager.get name
         {| StorageManager.manager := StorageManager.constructor;
            StorageManager.heap := StorageManager.heap p;
            StorageManager.platform := StorageManager.platform p |}) = Returns None.
Proof.
  intros Hs. cbn zeta. unfold StorageManager.register.
  pose proof (fresh_listener_new p storage s Hs) as Hfresh.
  set (l := StorageManager.forwarder (StorageManager.fresh_listener p)).
  assert (subscribe l (s, StorageManager.platform p)
          = ((with_listeners (listeners s ++ [l]) s, StorageManager.platform p),
             Returns tt)) as Hsub.
  { unfold subscribe. cbn [fst snd].
    assert (existsb (fun l' => Nat.eqb (lid l') (lid l)) (listeners s) = false) as ->;
      [|reflexivity].
    apply not_true_iff_false. rewrite existsb_lid. exact Hfresh. }
  erewrite on_store_run; [|exact Hs|exact Hsub]. cbn [fst snd].
  split; [reflexivity|]. unfold StorageManager.get. cbn.
  split; [rewrite map_get_set_eq; reflexivity|].
  split; [intros other Hne; rewrite map_get_set_ne by exact Hne; reflexivity|].
  split; [apply map_set_NoDup|].
  split.
  { exists l. split; [exact Hfresh|]. apply list_lookup_insert_eq.
    apply (lookup_lt_Some _ _ _ Hs). }
  split; [intros other Hne; apply list_lookup_insert_ne; congruence|].
  split; reflexivity.
Qed.

(** An instance. *)
Lemma register_then_get_witness :
  snd (StorageManager.get "clients"
         (fst (StorageManager.register "clients" 0
                 {| StorageManager.manager := StorageManager.constructor;
                    StorageManager.heap := [client_store; project_store];
                    StorageManager.platform := sample_world |})))
  = Returns (Some 0).
Proof.
  apply (register_then_get
           {| StorageManager.manager := StorageManager.constructor;
              StorageManager.heap := [client_store; project_store];
              StorageManager.platform := sample_world |}
           "clients" 0 client_store).
  reflexivity.
Defined.

Lemma notify_global_calls action d key ls w :
  let w' := fold_left (fun w l => StorageManager.call_global action d key l w) ls w in
  calls w' = calls w ++ map (call_of action d key) ls /\
  console w'
  = console w ++ omap (fun l => option_map (fun e => ("전역 리스너 실행 오류:", e))
                               (lrun l action d key)) ls /\
  localStorage w' = localStorage w.
Proof.
  cbn zeta. revert w. induction ls as [|l ls IH]; intros w; cbn [fold_left map omap list_omap].
  - rewrite !app_nil_r. repeat split.
  - destruct (IH (StorageManager.call_global action d key l w)) as (Hc & Hk & Hl).
    rewrite Hc, Hk, Hl. unfold StorageManager.call_global.
    destruct (lrun l action d key); cbn; rewrite <- !app_assoc; repeat split.
Qed.

(** Property X25. [_notifyGlobalListeners] calls every global listener once,
    in the order of subscription, with the action, the data and the name of
    the store that it was given. A listener that throws does not stop the
    others: its error goes to the console. The call returns, and touches
    neither the stores, nor the map, nor [localStorage]. *)
Theorem notifyGlobalListeners_contains_errors action d key p :
  let p' := fst (StorageManager._notifyGlobalListeners action d key p) in
  snd (StorageManager._notifyGlobalListeners action d key p) = Returns tt /\
  StorageManager.manager p' = StorageManager.manager p /\
  StorageManager.heap p' = StorageManager.heap p /\
  calls (StorageManager.platform p')
  = calls (StorageManager.platform p)
    ++ map (call_of action d key)
           (StorageManager.globalListeners (StorageManager.manager p)) /\
  console (StorageManager.platform p')
  = console (StorageManager.platform p)
    ++ omap (fun l => option_map (fun e => ("전역 리스너 실행 오류:", e))
                        (lrun l action d key))
            (StorageManager.globalListeners (StorageManager.manager p)) /\
  localStorage (StorageManager.platform p') = localStorage (StorageManager.platform p).
Proof.
  cbn zeta. unfold StorageManager._notifyGlobalListeners. cbn [fst snd].
  split; [reflexivity|]. split; [reflexivity|]. split; [reflexivity|].
  apply notify_global_calls.
Qed.

Lemma storage_free_save s w : storage_free w -> save_refused s w = false.
Proof. intros H. apply H. Qed.

Lemma storage_full_save s w : storage_full w -> save_refused s w = true.
Proof. intros H. apply H. Qed.

(** *** Clearing every store *)

Lemma clear_free s w :
  storage_free w ->
  clear (s, w)
  = ((with_data [] s,
      notified "clear" (VArr []) (storageKey s) (listeners s) (saved (with_data [] s) w)),
     Returns tt).
Proof. intros H. rewrite clear_exact, (storage_free_save _ _ H). reflexivity. Qed.

Lemma clear_full s w :
  storage_full w ->
  clear (s, w)
  = ((with_data [] s, refusal_logged "초기화 오류:" (with_data [] s) w),
     Throws PersistenceError).
Proof. intros H. rewrite clear_exact, (storage_full_save _ _ H). reflexivity. Qed.

Lemma clear_each_free entries p :
  Forall (fun entry => snd entry < length (StorageManager.heap p)) entries ->
  storage_free (StorageManager.platform p) ->
  exists p',
    StorageManager.clear_each entries p = (p', Returns tt) /\
    StorageManager.manager p' = StorageManager.manager p /\
    length (StorageManager.heap p') = length (StorageManager.heap p) /\
    (forall r, r ∈ map snd entries -> StorageManager.records_of p' r = []) /\
    (forall r, r ∉ map snd entries ->
               StorageManager.heap p' !! r = StorageManager.heap p !! r).
Proof.
  revert p. induction entries as [|[n r] entries IH]; intros p Hvalid Hfree;
    cbn [StorageManager.clear_each].
  - exists p. repeat split; try reflexivity. intros r Hr. inversion Hr.
  - apply Forall_cons in Hvalid as [Hr Hvalid]. cbn [snd] in Hr.
    destruct (lookup_lt_is_Some_2 _ _ Hr) as (s & Hs).
    erewrite on_store_run; [|exact Hs|apply clear_free, Hfree].
    match goal with
    | |- context [StorageManager.clear_each entries ?q] => set (p1 := q)
    end.
    destruct (IH p1) as (p' & E & Hm & Hlen & Hin & Hout).
    { subst p1. cbn. rewrite length_insert. exact Hvalid. }
    { subst p1. cbn. exact Hfree. }
    exists p'. rewrite E. split; [reflexivity|]. split; [exact Hm|].
    split; [rewrite Hlen; subst p1; cbn; apply length_insert|].
    split.
    + intros r' Hr'. cbn [map snd] in Hr'.
      destruct (decide (r' ∈ map snd entries)) as [Hyes|Hno]; [apply Hin, Hyes|].
      apply elem_of_cons in Hr' as [->|Hr']; [|contradiction].
      unfold StorageManager.records_of. rewrite (Hout r Hno). subst p1. cbn.
      rewrite list_lookup_insert_eq by exact Hr. reflexivity.
    + intros r' Hr'. cbn [map snd] in Hr'. apply not_elem_of_cons in Hr' as [Hne Hr'].
      rewrite (Hout r' Hr'). subst p1. cbn.
      apply list_lookup_insert_ne. congruence.
Qed.

(** Property X26. When [localStorage] takes the writes, [clearAll] leaves
    every registered store without records, returns, and touches no store
    that is not registered. When [localStorage] refuses them, [clearAll]
    stops at the first store of the map: that store has lost its records in
    memory, every other store keeps what it had, and the error is thrown. *)
Theorem clearAll_empties_registered p :
  StorageManager.well_formed p ->
  let p' := fst (StorageManager.clearAll p) in
  (storage_free (StorageManager.platform p) ->
   snd (StorageManager.clearAll p) = Returns tt /\
   StorageManager.manager p' = StorageManager.manager p /\
   (forall r, StorageManager.registered p r -> StorageManager.records_of p' r = []) /\
   (forall r, ~ StorageManager.registered p r ->
              StorageManager.heap p' !! r = StorageManager.heap p !! r)) /\
  (storage_full (StorageManager.platform p) ->
   forall name first rest,
     StorageManager.storages (StorageManager.manager p) = (name, first) :: rest ->
     snd (StorageManager.clearAll p) = Throws PersistenceError /\
     StorageManager.records_of p' first = [] /\
     (forall r, r <> first ->
                StorageManager.heap p' !! r = StorageManager.heap p !! r)).
Proof.
  intros [_ Hvalid]. cbn zeta. unfold StorageManager.clearAll. split.
  - intros Hfree.
    destruct (clear_each_free _ p Hvalid Hfree) as (p' & E & Hm & _ & Hin & Hout).
    rewrite E. cbn [fst snd]. repeat split; assumption.
  - intros Hfull name first rest Hreg. rewrite Hreg in *.
    apply Forall_cons in Hvalid as [Hr _]. cbn [snd] in Hr.
    destruct (lookup_lt_is_Some_2 _ _ Hr) as (s & Hs).
    cbn [StorageManager.clear_each].
    erewrite on_store_run; [|exact Hs|apply clear_full, Hfull]. cbn [fst snd].
    split; [reflexivity|]. split.
    + unfold StorageManager.records_of. cbn.
      rewrite list_lookup_insert_eq by exact Hr. reflexivity.
    + intros r Hne. cbn. apply list_lookup_insert_ne. congruence.
Qed.

(** An instance. *)
Lemma clearAll_empties_registered_witness :
  snd (StorageManager.clearAll sample_page) = Returns tt /\
  StorageManager.manager (fst (StorageManager.clearAll sample_page))
  = StorageManager.manager sample_page /\
  (forall r, StorageManager.registered sample_page r ->
             StorageManager.records_of (fst (StorageManager.clearAll sample_page)) r = []) /\
  (forall r, ~ StorageManager.registered sample_page r ->
             StorageManager.heap (fst (StorageManager.clearAll sample_page)) !! r
             = StorageManager.heap sample_page !! r).
Proof.
  apply (clearAll_empties_registered sample_page).
  - exact sample_page_well_formed.
  - intros ls key text. reflexivity.
Defined.

(** *** Exporting and importing every store *)

Lemma import_free snap xs s w :
  storage_free w -> truthy snap = true -> field snap "data" = VArr xs ->
  import snap false (s, w)
  = ((with_data xs s,
      notified "import" (VArr xs) (storageKey s) (listeners s) (saved (with_data xs s) w)),
     Returns tt).
Proof.
  intros Hfree T D.
  destruct (import_cases snap false s w)
    as [(e & w1 & E & _ & _ & Hfmt & Hother)|(incoming & items' & _ & D' & -> & E)].
  - exfalso.
    assert (e = ImportFormatError \/ e <> ImportFormatError) as [->|Hne]
        by (destruct e; first [left; reflexivity | right; discriminate]).
    + destruct (proj1 Hfmt eq_refl) as [H|H]; [congruence|].
      rewrite D in H. discriminate.
    + destruct (Hother Hne) as [H _]. discriminate.
  - cbn zeta in E. rewrite E, (storage_free_save _ _ Hfree).
    rewrite D in D'. injection D' as <-. reflexivity.
Qed.

(** The loop of [importAll] with [merge] off, when [localStorage] takes the
    writes and every entry under a registered name is a snapshot: the
    stores that the entries name get the records of the snapshots, the
    other stores are not touched. *)
Lemma import_each_restores (exported : nat -> list value) entries p :
  (forall kv r,
      kv ∈ entries ->
      StorageManager.map_get (StorageManager.storages (StorageManager.manager p)) (fst kv)
      = Some r ->
      r < length (StorageManager.heap p) /\ truthy (snd kv) = true /\
      field (snd kv) "data" = VArr (exported r)) ->
  storage_free (StorageManager.platform p) ->
  exists p',
    StorageManager.import_each entries false p = (p', Returns tt) /\
    StorageManager.manager p' = StorageManager.manager p /\
    length (StorageManager.heap p') = length (StorageManager.heap p) /\
    (forall r,
        r ∈ omap (fun kv => StorageManager.map_get
                              (StorageManager.storages (StorageManager.manager p))
                              (fst kv)) entries ->
        StorageManager.records_of p' r = exported r) /\
    (forall r,
        r ∉ omap (fun kv => StorageManager.map_get
                              (StorageManager.storages (StorageManager.manager p))
                              (fst kv)) entries ->
        StorageManager.heap p' !! r = StorageManager.heap p !! r).
Proof.
  revert p. induction entries as [|[name d] entries IH]; intros p Hent Hfree;
    cbn [StorageManager.import_each omap list_omap fst].
  - exists p. repeat split; try reflexivity. intros r Hr. inversion Hr.
  - destruct (StorageManager.map_get _ name) as [r|] eqn:G.
    + destruct (Hent (name, d) r) as (Hr & T & D); [left | exact G |]. cbn [snd] in T, D.
      destruct (lookup_lt_is_Some_2 _ _ Hr) as (s & Hs).
      erewrite on_store_run; [|exact Hs|apply (import_free _ _ _ _ Hfree T D)].
      match goal with
      | |- context [StorageManager.import_each entries false ?q] => set (p1 := q)
      end.
      destruct (IH p1) as (p' & E & Hm & Hlen & Hin & Hout).
      { intros kv r' Hkv G'. subst p1. cbn in G' |- *. rewrite length_insert.
        apply (Hent kv r'); [right; exact Hkv | exact G']. }
      { subst p1. cbn. exact Hfree. }
      exists p'. rewrite E. split; [reflexivity|]. split; [exact Hm|].
      split; [rewrite Hlen; subst p1; cbn; apply length_insert|].
      change (StorageManager.manager p1) with (StorageManager.manager p) in Hin, Hout.
      split.
      * intros r' Hr'.
        destruct (decide (r' ∈ omap (fun kv => StorageManager.map_get
                                          (StorageManager.storages (StorageManager.manager p))
                                          (fst kv)) entries)) as [Hyes|Hno];
          [apply Hin, Hyes|].
        apply elem_of_cons in Hr' as [->|Hr']; [|contradiction].
        unfold StorageManager.records_of. rewrite (Hout r Hno). subst p1. cbn.
        rewrite list_lookup_insert_eq by exact Hr. reflexivity.
      * intros r' Hr'. apply not_elem_of_cons in Hr' as [Hne Hr'].
        rewrite (Hout r' Hr'). subst p1. cbn.
        apply list_lookup_insert_ne. congruence.
    + destruct (IH p) as (p' & E & Hm & Hlen & Hin & Hout).
      { intros kv r' Hkv G'. apply (Hent kv r'); [right; exact Hkv | exact G']. }
      { exact Hfree. }
      exists p'. rewrite E. repeat split; assumption.
Qed.

Lemma map_get_NoDup m name r :
  NoDup (map fst m) -> (name, r) ∈ m -> StorageManager.map_get m name = Some r.
Proof.
  induction m as [|[n r'] m IH]; cbn; intros Hnd Hin; [inversion Hin|].
  apply NoDup_cons in Hnd as [Hn Hnd].
  apply elem_of_cons in Hin as [[= <- <-]|Hin].
  - rewrite String.eqb_refl. reflexivity.
  - assert (String.eqb n name = false) as ->; [|apply IH; assumption].
    apply String.eqb_neq. intros ->. apply Hn.
    apply list_elem_of_fmap. exists (name, r). split; [reflexivity | exact Hin].
Qed.

Lemma map_get_elem m name r :
  StorageManager.map_get m name = Some r -> (name, r) ∈ m.
Proof.
  induction m as [|[n r'] m IH]; cbn; [discriminate|].
  destruct (String.eqb n name) eqn:E.
  - intros [= ->]. apply String.eqb_eq in E. subst n. left.
  - intros H. right. apply IH, H.
Qed.

(** The properties that a plain object has after a sequence of
    assignments: those under a name other than [__proto__]. *)
Lemma assign_all snapshots exports :
  fold_left (fun acc kv => StorageManager.assign acc (fst kv) (snd kv))
    snapshots exports
  = obj_assign exports (List.filter StorageManager.named snapshots).
Proof.
  revert exports. induction snapshots as [|[k v] snapshots IH]; intros exports;
    [reflexivity|].
  cbn [fold_left List.filter fst snd]. rewrite IH.
  unfold StorageManager.named, StorageManager.assign. cbn [fst].
  destruct (String.eqb k "__proto__"); reflexivity.
Qed.

Lemma NoDup_filter_names (f : string * value -> bool) l :
  NoDup (map fst l) -> NoDup (map fst (List.filter f l)).
Proof.
  induction l as [|kv l IH]; cbn [map List.filter]; [auto|].
  intros Hnd. apply NoDup_cons in Hnd as [Hk Hnd].
  destruct (f kv); [|apply IH, Hnd].
  cbn [map]. apply NoDup_cons. split; [|apply IH, Hnd].
  intros Hin. apply Hk. apply list_elem_of_fmap in Hin as (x & -> & Hx).
  apply list_elem_of_fmap. exists x. split; [reflexivity|].
  apply list_elem_of_In. apply list_elem_of_In, filter_In in Hx. tauto.
Qed.

(** The loop of [exportAll]: it changes no store, and assigns one snapshot
    for each entry of the map, with the records of the store of the
    entry. *)
Lemma export_each_run entries exports p :
  Forall (fun entry => snd entry < length (StorageManager.heap p)) entries ->
  exists w' snapshots,
    StorageManager.export_each entries exports p
    = (StorageManager.with_platform w' p,
       Returns (fold_left (fun acc kv => StorageManager.assign acc (fst kv) (snd kv))
                  snapshots exports)) /\
    same_platform (StorageManager.platform p) w' /\
    Forall2 (fun entry kv =>
               fst kv = fst entry /\ truthy (snd kv) = true /\
               field (snd kv) "data"
               = VArr (StorageManager.records_of p (snd entry)))
      entries snapshots.
Proof.
  revert exports p. induction entries as [|[n r] entries IH]; intros exports p Hvalid;
    cbn [StorageManager.export_each].
  - exists (StorageManager.platform p), []. destruct p.
    split; [reflexivity|]. split; [apply same_platform_refl | constructor].
  - apply Forall_cons in Hvalid as [Hr Hvalid]. cbn [snd] in Hr.
    destruct (lookup_lt_is_Some_2 _ _ Hr) as (s & Hs).
    erewrite on_store_run; [|exact Hs|apply export_run].
    rewrite list_insert_id by exact Hs.
    set (snapshot :=
           VObj [("storageKey", VStr (storageKey s));
                 ("version", js_or (configVersion (StorageManager.platform p))
                               (VStr "2.0.0"));
                 ("exportedAt",
                  VStr (toISOString (StorageManager.platform p)
                          (clock (StorageManager.platform p)
                             (clockReads (StorageManager.platform p)))));
                 ("data", VArr (data s))]).
    match goal with
    | |- context [StorageManager.export_each entries ?e ?q] => set (p1 := q)
    end.
    destruct (IH (StorageManager.assign exports n snapshot) p1)
      as (w' & snapshots & E & Hp & HF).
    { subst p1. exact Hvalid. }
    exists w', ((n, snapshot) :: snapshots). split; [|split].
    + rewrite E. reflexivity.
    + subst p1. cbn in Hp. platform.
    + constructor; [|exact HF].
      cbn [fst snd]. split; [reflexivity|]. split; [reflexivity|].
      unfold StorageManager.records_of. rewrite Hs. reflexivity.
Qed.

(** A call on a store object leaves the map of the manager and the number
    of the store objects as they are. *)
Lemma on_store_shape {A} storage (m : BaseStorage.M A) p :
  StorageManager.manager (fst (StorageManager.on_store storage m p))
  = StorageManager.manager p /\
  length (StorageManager.heap (fst (StorageManager.on_store storage m p)))
  = length (StorageManager.heap p).
Proof.
  unfold StorageManager.on_store.
  destruct (StorageManager.heap p !! storage) as [s|]; [|split; reflexivity].
  destruct (m (s, StorageManager.platform p)) as [[s' w'] o]. cbn.
  split; [reflexivity | apply length_insert].
Qed.

Lemma replaced_since_shape p0 p :
  StorageManager.replaced_since p0 p ->
  StorageManager.manager p = StorageManager.manager p0 /\
  length (StorageManager.heap p) = length (StorageManager.heap p0).
Proof.
  induction 1 as [|p storage _ [IHm IHl]|p storage items _ [IHm IHl]
                  |p storage snapshot _ [IHm IHl]];
    [split; reflexivity| | |];
    match goal with
    | |- context [StorageManager.on_store ?r ?m ?q] =>
        destruct (on_store_shape r m q) as [-> ->]
    end; split; assumption.
Qed.

(** Property X27. What [exportAll] takes, [importAll] puts back. Let the
    snapshot that [exportAll] made be imported with [merge] off, after calls
    of [clear], [bulkUpdate] and [import] with [merge] off on any of the
    stores, or right away. When [localStorage] takes the writes, [importAll]
    returns, every store that is registered under a name other than
    [__proto__] holds the records it held when the snapshot was made, in the
    same order, and no other store is touched. (A [create], an [update], a
    [delete] or a merging [import] in between is another matter: these
    change the array that the snapshot holds.) *)
Theorem exportAll_importAll_round_trip p snapshot later :
  StorageManager.well_formed p ->
  snd (StorageManager.exportAll p) = Returns snapshot ->
  StorageManager.replaced_since (fst (StorageManager.exportAll p)) later ->
  storage_free (StorageManager.platform later) ->
  let p' := fst (StorageManager.importAll snapshot false later) in
  snd (StorageManager.importAll snapshot false later) = Returns tt /\
  (forall r, StorageManager.exported p r ->
             StorageManager.records_of p' r = StorageManager.records_of p r) /\
  (forall r, ~ StorageManager.exported p r ->
             StorageManager.heap p' !! r = StorageManager.heap later !! r).
Proof.
  intros [Hnd Hvalid] Hexp Hsince Hfree. cbn zeta.
  apply replaced_since_shape in Hsince as [Hreg Hlen].
  unfold StorageManager.exportAll in Hexp, Hreg, Hlen.
  destruct (export_each_run _ [] p Hvalid) as (w' & snapshots & E & _ & HF).
  rewrite E in Hexp, Hreg, Hlen. cbn [fst snd] in Hexp, Hreg, Hlen.
  change (StorageManager.manager later = StorageManager.manager p) in Hreg.
  change (length (StorageManager.heap later) = length (StorageManager.heap p)) in Hlen.
  injection Hexp as <-.
  assert (map fst snapshots = map fst (StorageManager.storages (StorageManager.manager p)))
    as Hnames.
  { clear -HF. induction HF as [|entry kv es ks (H & _) _ IH]; [reflexivity|].
    cbn. rewrite H, IH. reflexivity. }
  rewrite assign_all.
  rewrite obj_assign_nil by (apply NoDup_filter_names; rewrite Hnames; exact Hnd).
  unfold StorageManager.importAll. cbn [get_prop obj_get String.eqb Ascii.eqb Bool.eqb].
  cbn [default from_option]. unfold id. cbn [truthy negb own_props].
  assert (forall kv, kv ∈ List.filter StorageManager.named snapshots ->
                     fst kv <> "__proto__" /\
                     exists r, (fst kv, r) ∈ StorageManager.storages (StorageManager.manager p) /\
                               truthy (snd kv) = true /\
                               field (snd kv) "data"
                               = VArr (StorageManager.records_of p r)) as Hsnap.
  { intros kv Hkv. apply list_elem_of_In, filter_In in Hkv as [Hkv Hnamed].
    split.
    - unfold StorageManager.named in Hnamed. apply negb_true_iff, String.eqb_neq in Hnamed.
      exact Hnamed.
    - apply list_elem_of_In, list_elem_of_lookup in Hkv as (i & Hi).
      destruct (Forall2_lookup_r _ _ _ _ _ HF Hi) as ([n r] & Hie & Hname & T & D).
      cbn [fst snd] in *. exists r. rewrite Hname. split; [|split; assumption].
      apply list_elem_of_lookup. exists i. exact Hie. }
  destruct (import_each_restores (StorageManager.records_of p)
              (List.filter StorageManager.named snapshots) later)
    as (p' & E' & Hm & _ & Hin & Hout).
  { intros kv r Hkv G. rewrite Hreg in G.
    destruct (Hsnap kv Hkv) as (_ & r' & Hentry & T & D).
    rewrite (map_get_NoDup _ _ _ Hnd Hentry) in G. injection G as <-.
    split; [|split; assumption].
    rewrite Hlen. rewrite Forall_forall in Hvalid. apply (Hvalid _ Hentry). }
  { exact Hfree. }
  rewrite E'. cbn [fst snd]. split; [reflexivity|].
  assert (forall r,
             r ∈ omap (fun kv => StorageManager.map_get
                                   (StorageManager.storages (StorageManager.manager later))
                                   (fst kv)) (List.filter StorageManager.named snapshots)
             <-> StorageManager.exported p r) as Hhits.
  { intros r. rewrite list_elem_of_omap, Hreg. split.
    - intros (kv & Hkv & G). destruct (Hsnap kv Hkv) as (Hname & _).
      exists (fst kv). split; [exact Hname | apply map_get_elem, G].
    - intros (name & Hname & Hentry).
      apply list_elem_of_lookup in Hentry as (i & Hi).
      destruct (Forall2_lookup_l _ _ _ _ _ HF Hi) as (kv & Hik & Hk & _).
      cbn [fst] in Hk. exists kv. split.
      + apply list_elem_of_In, filter_In. split.
        * apply list_elem_of_In, list_elem_of_lookup. exists i. exact Hik.
        * unfold StorageManager.named. rewrite Hk. apply negb_true_iff, String.eqb_neq, Hname.
      + rewrite Hk. apply (map_get_NoDup _ _ _ Hnd).
        apply list_elem_of_lookup. exists i. exact Hi. }
  split.
  - intros r Hr. apply Hin, Hhits, Hr.
  - intros r Hr. apply Hout. rewrite Hhits. exact Hr.
Qed.

(** An instance. *)
Lemma exportAll_importAll_round_trip_witness :
  snd (StorageManager.importAll page_snapshot false emptied_page) = Returns tt /\
  (forall r, StorageManager.exported sample_page r ->
             StorageManager.records_of
               (fst (StorageManager.importAll page_snapshot false emptied_page)) r
             = StorageManager.records_of sample_page r) /\
  (forall r, ~ StorageManager.exported sample_page r ->
             StorageManager.heap
               (fst (StorageManager.importAll page_snapshot false emptied_page)) !! r
             = StorageManager.heap emptied_page !! r).
Proof.
  apply (exportAll_importAll_round_trip sample_page page_snapshot emptied_page).
  - exact sample_page_well_formed.
  - vm_compute. reflexivity.
  - unfold emptied_page.
    apply StorageManager.since_clear, StorageManager.since_clear,
      StorageManager.since_now.
  - intros ls key text. reflexivity.
Defined.





(** The stores of the page are cleared after [exportAll], and [importAll]
    of the snapshot gives them their records back. *)
Example restore_after_clear :
  StorageManager.records_of sample_page 0 = [client_c1] /\
  StorageManager.records_of emptied_page 0 = [] /\
  StorageManager.records_of emptied_page 1 = [] /\
  StorageManager.records_of
    (fst (StorageManager.importAll page_snapshot false emptied_page)) 0
  = [client_c1] /\
  StorageManager.records_of
    (fst (StorageManager.importAll page_snapshot false emptied_page)) 1
  = [project_p1].
Proof. repeat split; vm_compute; reflexivity. Qed.

(** A store that is registered under the name [__proto__] is not in the
    snapshot of [exportAll]. *)
Example exportAll_leaves_out_proto :
  snd (StorageManager.exportAll
         (fst (StorageManager.register "__proto__" 0
                 {| StorageManager.manager := StorageManager.constructor;
                    StorageManager.heap := [client_store];
                    StorageManager.platform := sample_world |})))
  = Returns (VObj [("version", VStr "2.0.0"); ("exportedAt", VStr "1700000000001");
                   ("storages", VObj [])]).
Proof. vm_compute. reflexivity. Qed.

